(** * Verification of [milvus_fake_data/milvus_inserter.py]

    A shallow embedding of the [MilvusInserter] class: the field type
    registry ([_get_milvus_datatype]), the vector codec
    ([_convert_single_vector_data]), the row projector
    ([_convert_dataframe_to_dict_list]), the schema and index builders and
    the batch insertion pipeline ([insert_data]), followed by the theorems
    that settle the properties stated about them.

    Conventions.  Python exceptions are values of type [exn]; a computation
    that may raise returns a [result].  Code that talks to the Milvus client
    runs in the monad [M], which threads the state of the world (the target
    service and the progress display) and keeps it when an exception
    propagates.  Calls to [self.logger] are not modelled. *)

From Stdlib Require Import String Ascii List ZArith QArith Bool Lia.
From Stdlib Require Import Sorted Permutation.
Import ListNotations.

Set Warnings "-register-all".

Local Open Scope string_scope.
Local Open Scope list_scope.

(** ** Exceptions and results *)

Inductive exn_class : Type :=
| FileNotFoundError
| ValueError
| KeyError
| TypeError
| OverflowError
| MilvusException.

Record exn : Type := Raise { exn_type : exn_class; exn_msg : string }.

(** [str(e)] *)
Definition str_exn (e : exn) : string := exn_msg e.

Inductive result (A : Type) : Type :=
| Ok (a : A)
| Err (e : exn).
Arguments Ok {A} a.
Arguments Err {A} e.

Definition rbind {A B : Type} (r : result A) (k : A -> result B) : result B :=
  match r with
  | Ok a => k a
  | Err e => Err e
  end.

Declare Scope result_scope.
Delimit Scope result_scope with result.
Notation "x <- r ;; k" := (rbind r (fun x => k))
  (at level 61, r at next level, right associativity) : result_scope.

(** ** Python values found in data files and in insertion records *)

Inductive half_kind : Type := Float16 | BFloat16.

Inductive pyval : Type :=
| VNone
| VNaN                                   (* float('nan'), pd.NaT, pd.NA *)
| VBool (b : bool)
| VInt (z : Z)
| VFloat (q : Q)                         (* a finite float, carried uninterpreted *)
| VStr (s : string)
| VTimestamp (t : Z)                     (* pandas Timestamp: has to_pydatetime *)
| VDatetime (t : Z)                      (* datetime.datetime *)
| VList (l : list pyval)                 (* list *)
| VNdarray (l : list pyval)              (* np.ndarray as read from parquet *)
| VDict (d : list (string * pyval))      (* dict with str keys, insertion order *)
| VIntDict (d : list (Z * pyval))        (* dict with int keys, insertion order *)
| VBytes (b : list Z)                    (* bytes *)
| VHalfArray (k : half_kind) (w : list Z). (* np.float16 / bfloat16 array, 16-bit patterns *)

(** [v is not None] *)
Definition is_not_None (v : pyval) : bool :=
  match v with
  | VNone => false
  | _ => true
  end.

(** [isinstance(v, (list, np.ndarray))]; a float16 or bfloat16 array is an
    [np.ndarray] too *)
Definition is_list_or_ndarray (v : pyval) : bool :=
  match v with
  | VList _ | VNdarray _ | VHalfArray _ _ => true
  | _ => false
  end.

(** [isinstance(v, dict)] *)
Definition is_dict (v : pyval) : bool :=
  match v with
  | VDict _ | VIntDict _ => true
  | _ => false
  end.

(** [hasattr(v, "to_pydatetime")] and [v.to_pydatetime()] *)
Definition has_to_pydatetime (v : pyval) : bool :=
  match v with
  | VTimestamp _ => true
  | _ => false
  end.

Definition to_pydatetime (v : pyval) : pyval :=
  match v with
  | VTimestamp t => VDatetime t
  | _ => v
  end.

(** ** Python dicts as insertion-ordered association lists *)

Section Dict.
Context {K V : Type} (eqb : K -> K -> bool).

(** [d[k] = v]: overwrite in place when the key is there, append otherwise *)
Fixpoint dict_set (k : K) (v : V) (d : list (K * V)) : list (K * V) :=
  match d with
  | [] => [(k, v)]
  | (k', v') :: d' =>
      if eqb k' k then (k, v) :: d' else (k', v') :: dict_set k v d'
  end.

Fixpoint dict_get (k : K) (d : list (K * V)) : option V :=
  match d with
  | [] => None
  | (k', v') :: d' => if eqb k' k then Some v' else dict_get k d'
  end.

End Dict.

(** An insertion record: field name -> value *)
Definition record : Type := list (string * pyval).

(** ** Native types and schemas of the client library *)

Inductive DataType : Type :=
| BOOL | INT8 | INT16 | INT32 | INT64 | FLOAT | DOUBLE | VARCHAR | JSON
| ARRAY | FLOAT_VECTOR | BINARY_VECTOR | FLOAT16_VECTOR | BFLOAT16_VECTOR
| SPARSE_FLOAT_VECTOR.

(** The arguments of one [schema.add_field(...)] call.  A keyword that the
    call does not pass is [None]; [dim=field_info.get("dim")] passes the
    keyword even when the metadata has no ["dim"], hence the nested option. *)
Record FieldSchema : Type := {
  field_name : string;
  datatype : DataType;
  kw_max_length : option Z;
  kw_dim : option (option Z);
  kw_max_capacity : option (option Z);
  kw_element_type : option (option DataType);
  kw_is_primary : bool;
  kw_auto_id : bool
}.

Record CollectionSchema : Type := {
  enable_dynamic_field : bool;
  schema_fields : list FieldSchema
}.

(** ** The runtime: library behaviour the module relies on

    [np.array(v, dtype=np.uint8)], [int(k)] and the truth value of
    [pd.isna(v)] are taken as given; [ml_dtypes_available] tells whether
    [import ml_dtypes] succeeds; [add_field_error s f] is the exception with
    which the client library refuses [schema.add_field] with the keywords
    [f] on the schema [s], if it refuses it. *)

Record Runtime : Type := {
  ml_dtypes_available : bool;
  np_array_uint8 : pyval -> result (list Z);
  py_int : string -> result Z;
  pd_isna : pyval -> result bool;
  add_field_error : CollectionSchema -> FieldSchema -> option exn
}.

(** ** Field type registry *)

Definition type_mapping : list (string * DataType) :=
  [ ("Bool", BOOL);
    ("Int8", INT8);
    ("Int16", INT16);
    ("Int32", INT32);
    ("Int64", INT64);
    ("Float", FLOAT);
    ("Double", DOUBLE);
    ("String", VARCHAR);
    ("VarChar", VARCHAR);
    ("JSON", JSON);
    ("Array", ARRAY);
    ("FloatVector", FLOAT_VECTOR);
    ("BinaryVector", BINARY_VECTOR);
    ("Float16Vector", FLOAT16_VECTOR);
    ("BFloat16Vector", BFLOAT16_VECTOR);
    ("SparseFloatVector", SPARSE_FLOAT_VECTOR) ].

Definition _get_milvus_datatype (field_type : string) : result DataType :=
  match dict_get String.eqb field_type type_mapping with
  | None => Err (Raise ValueError ("Unknown field type: " ++ field_type))
  | Some t => Ok t
  end.

(** [sub in s] on strings *)
Fixpoint contains (sub s : string) : bool :=
  if String.prefix sub s then true
  else match s with
       | EmptyString => false
       | String _ s' => contains sub s'
       end.

(** ** Vector codec *)

(** [a.view(np.float16)] on a one-dimensional uint8 array: two bytes make one
    16-bit word, low byte first; an odd number of bytes is refused. *)
Fixpoint view16 (bytes : list Z) : option (list Z) :=
  match bytes with
  | [] => Some []
  | [_] => None
  | lo :: hi :: rest =>
      match view16 rest with
      | Some ws => Some ((lo + 256 * hi)%Z :: ws)
      | None => None
      end
  end.

Definition view_error : exn :=
  Raise ValueError
    "When changing to a larger dtype, its size must be a divisor of the total size in bytes of the last axis of the array.".

Definition view_as (k : half_kind) (bytes : list Z) : result pyval :=
  match view16 bytes with
  | Some ws => Ok (VHalfArray k ws)
  | None => Err view_error
  end.

Section Codec.
Variable rt : Runtime.

(** [{int(k): v for k, v in vector_data.items() if v is not None}] *)
Fixpoint sparse_comprehension (items : list (string * pyval))
         (acc : list (Z * pyval)) : result (list (Z * pyval)) :=
  match items with
  | [] => Ok acc
  | (k, v) :: rest =>
      if is_not_None v then
        match py_int rt k with
        | Ok n => sparse_comprehension rest (dict_set Z.eqb n v acc)
        | Err e => Err e
        end
      else sparse_comprehension rest acc
  end.

(** the same comprehension over a dict whose keys are already integers:
    [int(k)] is [k] *)
Fixpoint int_keyed_comprehension (items : list (Z * pyval))
         (acc : list (Z * pyval)) : list (Z * pyval) :=
  match items with
  | [] => acc
  | (k, v) :: rest =>
      if is_not_None v then
        int_keyed_comprehension rest (dict_set Z.eqb k v acc)
      else int_keyed_comprehension rest acc
  end.

Definition _convert_single_vector_data (vector_data : pyval)
           (field_type : string) : result pyval :=
  if field_type =? "Float16Vector" then
    if is_list_or_ndarray vector_data then
      (uint8_array <- np_array_uint8 rt vector_data ;;
       view_as Float16 uint8_array)%result
    else Ok vector_data
  else if field_type =? "BFloat16Vector" then
    if negb (ml_dtypes_available rt) then
      (* except ImportError: log and hand the value back *)
      Ok vector_data
    else if is_list_or_ndarray vector_data then
      (uint8_array <- np_array_uint8 rt vector_data ;;
       view_as BFloat16 uint8_array)%result
    else Ok vector_data
  else if field_type =? "BinaryVector" then
    if is_list_or_ndarray vector_data then
      (uint8_array <- np_array_uint8 rt vector_data ;;
       Ok (VBytes uint8_array))%result
    else Ok vector_data
  else if field_type =? "SparseFloatVector" then
    match vector_data with
    | VDict items =>
        (sparse_vector <- sparse_comprehension items [] ;;
         Ok (VIntDict sparse_vector))%result
    | VIntDict items => Ok (VIntDict (int_keyed_comprehension items []))
    | _ => Ok vector_data
    end
  else
    (* FloatVector - keep as is *)
    Ok vector_data.
End Codec.

(** ** Collection metadata ([meta.json])

    The metadata is modelled at the shape the dataset generator writes:
    a key may be missing, a key that is present holds a value of its
    declared type.  Every field description carries ["name"] and ["type"]. *)

Record FieldInfo : Type := {
  fi_name : string;
  fi_type : string;
  fi_dim : option Z;
  fi_max_length : option Z;
  fi_max_capacity : option Z;
  fi_element_type : option string;
  fi_is_primary : option bool;
  fi_auto_id : option bool
}.

Record SchemaInfo : Type := {
  collection_name : option string;
  fields : option (list FieldInfo)
}.

Record Metadata : Type := { schema : option SchemaInfo }.

(** [d.get(key, default)] *)
Definition get {A : Type} (o : option A) (default : A) : A :=
  match o with
  | Some a => a
  | None => default
  end.

Definition key_error (k : string) : exn := Raise KeyError ("'" ++ k ++ "'").

(** [metadata["schema"]] *)
Definition metadata_schema (metadata : Metadata) : result SchemaInfo :=
  match schema metadata with
  | Some s => Ok s
  | None => Err (key_error "schema")
  end.

(** [metadata["schema"]["fields"]] *)
Definition metadata_fields (metadata : Metadata) : result (list FieldInfo) :=
  (s <- metadata_schema metadata ;;
   match fields s with
   | Some fs => Ok fs
   | None => Err (key_error "fields")
   end)%result.

(** [metadata["schema"]["collection_name"]] *)
Definition metadata_collection_name (metadata : Metadata) : result string :=
  (s <- metadata_schema metadata ;;
   match collection_name s with
   | Some n => Ok n
   | None => Err (key_error "collection_name")
   end)%result.

Fixpoint auto_id_scan (column_name : string) (fs : list FieldInfo) : bool :=
  match fs with
  | [] => false
  | field_info :: rest =>
      if (fi_name field_info =? column_name) && get (fi_auto_id field_info) false
      then true
      else auto_id_scan column_name rest
  end.

Definition _is_auto_id_field (column_name : string) (metadata : Metadata)
  : result bool :=
  (fs <- metadata_fields metadata ;; Ok (auto_id_scan column_name fs))%result.

Fixpoint field_type_scan (column_name : string) (fs : list FieldInfo) : string :=
  match fs with
  | [] => "unknown"
  | field_info :: rest =>
      if fi_name field_info =? column_name then fi_type field_info
      else field_type_scan column_name rest
  end.

Definition _get_field_type (column_name : string) (metadata : Metadata)
  : result string :=
  (fs <- metadata_fields metadata ;; Ok (field_type_scan column_name fs))%result.

(** ** Data frames

    A frame has column labels, the labels of its rows in order, and a cell
    for every row and column.  [df.iloc[i:j]] keeps the rows at positions
    [i <= p < j]; the pipeline only slices with [0 <= i < j]. *)

Record DataFrame : Type := {
  columns : list string;
  index : list nat;
  cell : nat -> string -> pyval
}.

Definition len (df : DataFrame) : Z := Z.of_nat (length (index df)).

Definition iloc (df : DataFrame) (i j : Z) : DataFrame :=
  {| columns := columns df;
     index := firstn (Z.to_nat (j - i)) (skipn (Z.to_nat i) (index df));
     cell := cell df |}.

(** [name in df.columns] *)
Definition in_columns (name : string) (df : DataFrame) : bool :=
  existsb (String.eqb name) (columns df).

(** ** Row projector *)

Section Projector.
Variable rt : Runtime.

(** the scalar branch of the row loop *)
Definition convert_scalar (value : pyval) : result pyval :=
  (isna <- pd_isna rt value ;;
   if (isna : bool) then Ok VNone
   else if has_to_pydatetime value then
     (isna' <- pd_isna rt value ;;
      Ok (if negb isna' then to_pydatetime value else VNone))
   else Ok value)%result.

(** what the row loop stores for a value it does not skip: vector fields go
    through the codec, scalar fields are normalised *)
Definition convert_value (value : pyval) (field_type : string) : result pyval :=
  if contains "Vector" field_type then
    _convert_single_vector_data rt value field_type
  else convert_scalar value.

(** the body of [for field_info in metadata["schema"]["fields"]] for one
    row, continued over the remaining fields *)
Fixpoint project_fields (df : DataFrame) (metadata : Metadata) (row : nat)
         (fs : list FieldInfo) (rec : record) : result record :=
  match fs with
  | [] => Ok rec
  | field_info :: rest =>
      let field_name := fi_name field_info in
      let field_type := fi_type field_info in
      (skip <- _is_auto_id_field field_name metadata ;;
       if (skip : bool) then project_fields df metadata row rest rec
       else if negb (in_columns field_name df) then
         project_fields df metadata row rest rec
       else
         let value := cell df row field_name in
         (v <- convert_value value field_type ;;
          project_fields df metadata row rest
            (dict_set String.eqb field_name v rec)))%result
  end.

Definition project_row (df : DataFrame) (metadata : Metadata) (row : nat)
  : result record :=
  (fs <- metadata_fields metadata ;;
   project_fields df metadata row fs [])%result.

(** [for _, row in df.iterrows()] *)
Fixpoint convert_rows (df : DataFrame) (metadata : Metadata)
         (rows : list nat) (data_list : list record) : result (list record) :=
  match rows with
  | [] => Ok data_list
  | row :: rest =>
      (rec <- project_row df metadata row ;;
       convert_rows df metadata rest (data_list ++ [rec]))%result
  end.

Definition _convert_dataframe_to_dict_list (df : DataFrame)
           (metadata : Metadata) : result (list record) :=
  convert_rows df metadata (index df) [].
End Projector.

(** ** Schema translator *)

(** [self.client.create_schema(enable_dynamic_field=True)] *)
Definition create_schema (dynamic : bool) : CollectionSchema :=
  {| enable_dynamic_field := dynamic; schema_fields := [] |}.

(** [schema.add_field(...)]: the library checks the keywords, then appends
    the field *)
Definition add_field (rt : Runtime) (s : CollectionSchema) (f : FieldSchema)
  : result CollectionSchema :=
  match add_field_error rt s f with
  | Some e => Err e
  | None =>
      Ok {| enable_dynamic_field := enable_dynamic_field s;
            schema_fields := schema_fields s ++ [f] |}
  end.

(** [element_type=self._get_milvus_datatype(e) if e else None] with
    [e = field_info.get("element_type")]; the empty string is falsy *)
Definition array_element_type (field_info : FieldInfo) : result (option DataType) :=
  match fi_element_type field_info with
  | None => Ok None
  | Some e =>
      if e =? "" then Ok None
      else (t <- _get_milvus_datatype e ;; Ok (Some t))%result
  end.

(** the arguments [_create_schema] passes to [add_field] for one field *)
Definition field_schema (field_info : FieldInfo) : result FieldSchema :=
  let field_name := fi_name field_info in
  let field_type := fi_type field_info in
  let is_primary := get (fi_is_primary field_info) false in
  let auto_id := get (fi_auto_id field_info) false in
  (milvus_type <- _get_milvus_datatype field_type ;;
   if (field_type =? "VarChar") || (field_type =? "String") then
     Ok {| field_name := field_name; datatype := milvus_type;
           kw_max_length := Some (get (fi_max_length field_info) 65535%Z);
           kw_dim := None; kw_max_capacity := None; kw_element_type := None;
           kw_is_primary := is_primary; kw_auto_id := auto_id |}
   else if contains "Vector" field_type then
     if field_type =? "SparseFloatVector" then
       Ok {| field_name := field_name; datatype := milvus_type;
             kw_max_length := None; kw_dim := None;
             kw_max_capacity := None; kw_element_type := None;
             kw_is_primary := is_primary; kw_auto_id := auto_id |}
     else
       Ok {| field_name := field_name; datatype := milvus_type;
             kw_max_length := None; kw_dim := Some (fi_dim field_info);
             kw_max_capacity := None; kw_element_type := None;
             kw_is_primary := is_primary; kw_auto_id := auto_id |}
   else if field_type =? "Array" then
     (element_type <- array_element_type field_info ;;
      Ok {| field_name := field_name; datatype := milvus_type;
            kw_max_length := None; kw_dim := None;
            kw_max_capacity := Some (fi_max_capacity field_info);
            kw_element_type := Some element_type;
            kw_is_primary := is_primary; kw_auto_id := auto_id |})
   else
     Ok {| field_name := field_name; datatype := milvus_type;
           kw_max_length := None; kw_dim := None;
           kw_max_capacity := None; kw_element_type := None;
           kw_is_primary := is_primary; kw_auto_id := auto_id |})%result.

Fixpoint add_fields (rt : Runtime) (fs : list FieldInfo) (s : CollectionSchema)
  : result CollectionSchema :=
  match fs with
  | [] => Ok s
  | field_info :: rest =>
      (f <- field_schema field_info ;;
       s' <- add_field rt s f ;;
       add_fields rt rest s')%result
  end.

Definition _create_schema (rt : Runtime) (metadata : Metadata)
  : result CollectionSchema :=
  let s := create_schema true in
  (fs <- metadata_fields metadata ;; add_fields rt fs s)%result.

(** ** Index parameters *)

(** The arguments of one [index_params.add_index(...)] call; [index_type]
    and [index_name] are [None] when the call leaves them to the client,
    whose default index type is AUTOINDEX. *)
Record IndexParam : Type := {
  ip_field_name : string;
  ip_index_name : option string;
  ip_index_type : option string;
  ip_metric_type : string;
  ip_params : list (string * pyval)
}.

Definition index_param (field_info : FieldInfo) : IndexParam :=
  let field_name := fi_name field_info in
  let field_type := fi_type field_info in
  if field_type =? "SparseFloatVector" then
    {| ip_field_name := field_name;
       ip_index_name := Some ("sparse_inverted_index_" ++ field_name)%string;
       ip_index_type := Some "SPARSE_INVERTED_INDEX";
       ip_metric_type := "IP";
       ip_params := [("drop_ratio_build", VFloat (2 # 10))] |}
  else
    let metric_type :=
      if field_type =? "BinaryVector" then "HAMMING" else "L2" in
    {| ip_field_name := field_name;
       ip_index_name := None;
       ip_index_type := None;
       ip_metric_type := metric_type;
       ip_params := [] |}.

Fixpoint add_indexes (fs : list FieldInfo) (index_params : list IndexParam)
  : list IndexParam :=
  match fs with
  | [] => index_params
  | field_info :: rest =>
      if contains "Vector" (fi_type field_info)
      then add_indexes rest (index_params ++ [index_param field_info])
      else add_indexes rest index_params
  end.

Definition _create_index_params (metadata : Metadata) : result (list IndexParam) :=
  (fs <- metadata_fields metadata ;; Ok (add_indexes fs []))%result.

(** one entry of the ["indexes_created"] summary *)
Record IndexInfo : Type := {
  ii_field : string;
  ii_index_type : string;
  ii_metric_type : string
}.

Definition index_info_entry (field_info : FieldInfo) : IndexInfo :=
  let field_name := fi_name field_info in
  let field_type := fi_type field_info in
  if field_type =? "SparseFloatVector" then
    {| ii_field := field_name;
       ii_index_type := "SPARSE_INVERTED_INDEX";
       ii_metric_type := "IP" |}
  else
    let metric_type :=
      if field_type =? "BinaryVector" then "HAMMING" else "L2" in
    {| ii_field := field_name;
       ii_index_type := "AUTOINDEX";
       ii_metric_type := metric_type |}.

Fixpoint index_info_loop (fs : list FieldInfo) (index_info : list IndexInfo)
  : list IndexInfo :=
  match fs with
  | [] => index_info
  | field_info :: rest =>
      if contains "Vector" (fi_type field_info)
      then index_info_loop rest (index_info ++ [index_info_entry field_info])
      else index_info_loop rest index_info
  end.

Definition _get_index_info (collection : string) (metadata : Metadata)
  : result (list IndexInfo) :=
  (fs <- metadata_fields metadata ;; Ok (index_info_loop fs []))%result.

(** ** The world: target service and progress display *)

(** Calls made on [self.client]; [Connect] is the construction of the
    [MilvusClient] in [__init__]. *)
Inductive call : Type :=
| Connect (uri token db_name : string)
| HasCollection (name : string)
| DropCollection (name : string)
| CreateCollection (name : string) (sch : CollectionSchema)
                   (index_params : list IndexParam)
| Insert (name : string) (data : list record)
| Flush (name : string)
| LoadCollection (name : string)
| ListCollections
| Close.

(** The target: the collections it holds, whether the client is connected,
    and every call received so far with the error it answered, if any. *)
Record Target : Type := {
  t_collections : list string;
  t_connected : bool;
  t_trace : list (call * option exn)
}.

Inductive progress_event : Type :=
| ProgressEnter
| AddTask (description : string) (total : Z)
| Update (advance : Z)
| ProgressExit.

Record World : Type := {
  target : Target;
  display : list progress_event
}.

Definition has_name (name : string) (l : list string) : bool :=
  existsb (String.eqb name) l.

Definition remove_name (name : string) (l : list string) : list string :=
  filter (fun n => negb (n =? name)) l.

(** what a call that succeeds does to the set of collections *)
Definition collections_after (c : call) (l : list string) : list string :=
  match c with
  | CreateCollection name _ _ => if has_name name l then l else l ++ [name]
  | DropCollection name => remove_name name l
  | _ => l
  end.

Definition connected_after (c : call) (b : bool) : bool :=
  match c with
  | Connect _ _ _ => true
  | Close => false
  | _ => b
  end.

(** ** The monad of client code *)

Definition M (A : Type) : Type := World -> World * result A.

Definition ret {A : Type} (a : A) : M A := fun w => (w, Ok a).

Definition bind {A B : Type} (m : M A) (k : A -> M B) : M B :=
  fun w =>
    match m w with
    | (w', Ok a) => k a w'
    | (w', Err e) => (w', Err e)
    end.

Definition raise {A : Type} (e : exn) : M A := fun w => (w, Err e).

Definition lift {A : Type} (r : result A) : M A := fun w => (w, r).

(** [try: m except Exception as e: h e] *)
Definition try_except {A : Type} (m : M A) (h : exn -> M A) : M A :=
  fun w =>
    match m w with
    | (w', Ok a) => (w', Ok a)
    | (w', Err e) => h e w'
    end.

Declare Scope monad_scope.
Delimit Scope monad_scope with M.
Notation "x <- m ;; k" := (bind m (fun x => k))
  (at level 61, m at next level, right associativity) : monad_scope.
Notation "m ;;; k" := (bind m (fun _ => k))
  (at level 61, right associativity) : monad_scope.

Definition emit (ev : progress_event) : M unit :=
  fun w => ({| target := target w; display := display w ++ [ev] |}, Ok tt).

(** [with Progress(...) as progress: body]; leaving the block closes the
    display, also when an exception passes through. *)
Definition with_progress {A : Type} (body : M A) : M A :=
  (emit ProgressEnter ;;;
   try_except (a <- body ;; emit ProgressExit ;;; ret a)
              (fun e => emit ProgressExit ;;; raise e))%M.

(** ** Results of the pipeline *)

Record BatchFailure : Type := {
  file : string;
  batch : Z;
  error : string
}.

Record InsertReport : Type := {
  report_collection_name : string;
  total_inserted : Z;
  failed_batches : list BatchFailure;
  indexes_created : list IndexInfo;
  collection_loaded : bool
}.

(** ** The dataset directory *)

(** [meta_json] is [None] when the directory has no [meta.json], otherwise
    what [json.load] gives; [parquet_files] lists the [*.parquet] entries in
    directory order, each with what [pd.read_parquet] gives. *)
Record Dataset : Type := {
  path : string;
  path_exists : bool;
  meta_json : option (result Metadata);
  parquet_files : list (string * result DataFrame)
}.

Fixpoint insert_sorted {A : Type} (f : string * A) (l : list (string * A))
  : list (string * A) :=
  match l with
  | [] => [f]
  | g :: rest =>
      if (fst f <=? fst g)%string then f :: l else g :: insert_sorted f rest
  end.

(** [sorted(data_path.glob("*.parquet"))] *)
Definition sorted {A : Type} (l : list (string * A)) : list (string * A) :=
  fold_right insert_sorted [] l.

(** [range(0, stop, step)] for [0 <= stop] *)
Definition py_range (stop step : Z) : result (list Z) :=
  if (step =? 0)%Z then
    Err (Raise ValueError "range() arg 3 must not be zero")
  else if (step <? 0)%Z then Ok []
  else
    Ok (map (fun k => (Z.of_nat k * step)%Z)
            (seq 0 (Z.to_nat ((stop + step - 1) / step)))).

(** ** The batch insertion pipeline *)

Section Pipeline.
Variable rt : Runtime.

(** [fault t c] is the error with which the target, in state [t], answers
    the call [c], if it does not serve it. *)
Variable fault : Target -> call -> option exn.

(** one call on [self.client]: a served call takes effect, a refused call
    changes nothing; either way it is recorded *)
Definition client_call (c : call) : M unit :=
  fun w =>
    let t := target w in
    match fault t c with
    | Some e =>
        ({| target := {| t_collections := t_collections t;
                         t_connected := t_connected t;
                         t_trace := t_trace t ++ [(c, Some e)] |};
            display := display w |}, Err e)
    | None =>
        ({| target := {| t_collections := collections_after c (t_collections t);
                         t_connected := connected_after c (t_connected t);
                         t_trace := t_trace t ++ [(c, None)] |};
            display := display w |}, Ok tt)
    end.

Definition has_collection (name : string) : M bool :=
  fun w =>
    let present := has_name name (t_collections (target w)) in
    (client_call (HasCollection name) ;;; ret present)%M w.

(** [__init__]: the connection is made when the inserter is built *)
Definition __init__ (uri token db_name : string) : M unit :=
  try_except (client_call (Connect uri token db_name)) (fun e => raise e).

Definition batch_failure (file_name : string) (i batch_size : Z) (e : exn)
  : BatchFailure :=
  {| file := file_name; batch := (i / batch_size)%Z; error := str_exn e |}.

(** the body of the batch loop in the branch without a progress bar *)
Definition insert_batch_plain (final_collection_name file_name : string)
           (df : DataFrame) (metadata : Metadata) (batch_size : Z)
           (acc : Z * list BatchFailure) (i : Z) : M (Z * list BatchFailure) :=
  let batch_df := iloc df i (i + batch_size) in
  try_except
    (data <- lift (_convert_dataframe_to_dict_list rt batch_df metadata) ;;
     client_call (Insert final_collection_name data) ;;;
     ret ((fst acc + len batch_df)%Z, snd acc))%M
    (fun e =>
       ret (fst acc, snd acc ++ [batch_failure file_name i batch_size e])).

(** the body of the batch loop under [with Progress(...)] *)
Definition insert_batch_progress (final_collection_name file_name : string)
           (df : DataFrame) (metadata : Metadata) (batch_size : Z)
           (acc : Z * list BatchFailure) (i : Z) : M (Z * list BatchFailure) :=
  let batch_df := iloc df i (i + batch_size) in
  try_except
    (data <- lift (_convert_dataframe_to_dict_list rt batch_df metadata) ;;
     client_call (Insert final_collection_name data) ;;;
     emit (Update (len batch_df)) ;;;
     ret ((fst acc + len batch_df)%Z, snd acc))%M
    (fun e =>
       emit (Update (len batch_df)) ;;;
       ret (fst acc, snd acc ++ [batch_failure file_name i batch_size e]))%M.

(** [for i in range(0, total_rows, batch_size): body] *)
Fixpoint for_each {S : Type} (body : S -> Z -> M S) (starts : list Z) (acc : S)
  : M S :=
  match starts with
  | [] => ret acc
  | i :: rest => (acc' <- body acc i ;; for_each body rest acc')%M
  end.

(** one iteration of [for parquet_file in parquet_files] *)
Definition insert_file (final_collection_name : string) (metadata : Metadata)
           (batch_size : Z) (show_progress : bool)
           (parquet_file : string * result DataFrame)
           (acc : Z * list BatchFailure) : M (Z * list BatchFailure) :=
  let file_name := fst parquet_file in
  (df <- lift (snd parquet_file) ;;
   let total_rows := len df in
   if show_progress then
     with_progress
       (emit (AddTask ("Inserting " ++ file_name) total_rows) ;;;
        starts <- lift (py_range total_rows batch_size) ;;
        for_each (insert_batch_progress final_collection_name file_name df
                                        metadata batch_size) starts acc)
   else
     (starts <- lift (py_range total_rows batch_size) ;;
      for_each (insert_batch_plain final_collection_name file_name df
                                   metadata batch_size) starts acc))%M.

Fixpoint insert_files (final_collection_name : string) (metadata : Metadata)
         (batch_size : Z) (show_progress : bool)
         (files : list (string * result DataFrame))
         (acc : Z * list BatchFailure) : M (Z * list BatchFailure) :=
  match files with
  | [] => ret acc
  | parquet_file :: rest =>
      (acc' <- insert_file final_collection_name metadata batch_size
                           show_progress parquet_file acc ;;
       insert_files final_collection_name metadata batch_size show_progress
                    rest acc')%M
  end.

(** [collection_name or metadata["schema"]["collection_name"]] *)
Definition resolve_collection_name (collection_name : option string)
           (metadata : Metadata) : result string :=
  match collection_name with
  | Some n => if n =? "" then metadata_collection_name metadata else Ok n
  | None => metadata_collection_name metadata
  end.

Definition conflict_error (final_collection_name : string) : exn :=
  Raise ValueError
        ("Collection '" ++ final_collection_name
           ++ "' already exists. Use --drop-if-exists to recreate it.").

Definition insert_data (data_path : Dataset) (collection_name : option string)
           (drop_if_exists create_index : bool) (batch_size : Z)
           (show_progress : bool) : M InsertReport :=
  if negb (path_exists data_path) then
    raise (Raise FileNotFoundError ("Data path not found: " ++ path data_path))
  else
    match meta_json data_path with
    | None =>
        raise (Raise FileNotFoundError
                     ("meta.json not found in " ++ path data_path))
    | Some loaded =>
        (metadata <- lift loaded ;;
         final_collection_name <-
           lift (resolve_collection_name collection_name metadata) ;;
         present <- has_collection final_collection_name ;;
         (if (present : bool) then
            if drop_if_exists
            then client_call (DropCollection final_collection_name)
            else raise (conflict_error final_collection_name)
          else ret tt) ;;;
         sch <- lift (_create_schema rt metadata) ;;
         index_params <- lift (_create_index_params metadata) ;;
         client_call (CreateCollection final_collection_name sch index_params) ;;;
         let files := sorted (parquet_files data_path) in
         match files with
         | [] =>
             raise (Raise FileNotFoundError
                          ("No parquet files found in " ++ path data_path))
         | _ :: _ =>
             acc <- insert_files final_collection_name metadata batch_size
                                 show_progress files (0%Z, []) ;;
             client_call (Flush final_collection_name) ;;;
             client_call (LoadCollection final_collection_name) ;;;
             index_info <- lift (_get_index_info final_collection_name metadata) ;;
             ret {| report_collection_name := final_collection_name;
                    total_inserted := fst acc;
                    failed_batches := snd acc;
                    indexes_created := index_info;
                    collection_loaded := true |}
         end)%M
    end.

(** [close]: an error of [self.client.close()] is logged, not raised *)
Definition close : M unit :=
  try_except (client_call Close) (fun e => ret tt).

Definition test_connection : M bool :=
  try_except (client_call ListCollections ;;; ret true)%M (fun e => ret false).

End Pipeline.

(** ** A reference runtime

    One runtime on which the definitions can be evaluated: numpy refuses
    what is not a list of integers in [0, 255], [int] reads plain decimal
    literals with an optional sign, [pd.isna] is true of [None] and NaN
    and ambiguous on sequences of more than one element, and [add_field]
    refuses [auto_id] on a field that is not the primary key. *)

Definition uint8_of (v : pyval) : result Z :=
  match v with
  | VInt z =>
      if ((0 <=? z) && (z <=? 255))%Z then Ok z
      else Err (Raise OverflowError "Python integer out of bounds for uint8")
  | _ => Err (Raise TypeError "int() argument must be a string, a bytes-like object or a real number")
  end.

Fixpoint uint8_list (l : list pyval) : result (list Z) :=
  match l with
  | [] => Ok []
  | v :: rest =>
      (b <- uint8_of v ;; bs <- uint8_list rest ;; Ok (b :: bs))%result
  end.

Definition reference_np_array_uint8 (v : pyval) : result (list Z) :=
  match v with
  | VList l | VNdarray l => uint8_list l
  | _ => Err (Raise TypeError "not a sequence")
  end.

Definition digit_of (c : ascii) : option Z :=
  let n := nat_of_ascii c in
  if (48 <=? n)%nat && (n <=? 57)%nat then Some (Z.of_nat (n - 48)) else None.

Fixpoint read_digits (s : string) (acc : Z) : option Z :=
  match s with
  | EmptyString => Some acc
  | String c s' =>
      match digit_of c with
      | Some d => read_digits s' (10 * acc + d)%Z
      | None => None
      end
  end.

Definition read_decimal (s : string) : option Z :=
  match s with
  | EmptyString => None
  | String "-" (String c s') => option_map Z.opp (read_digits (String c s') 0%Z)
  | String "+" (String c s') => read_digits (String c s') 0%Z
  | _ => read_digits s 0%Z
  end.

Definition reference_py_int (s : string) : result Z :=
  match read_decimal s with
  | Some z => Ok z
  | None =>
      Err (Raise ValueError ("invalid literal for int() with base 10: '" ++ s ++ "'"))
  end.

Definition scalar_isna (v : pyval) : bool :=
  match v with
  | VNone | VNaN => true
  | _ => false
  end.

Definition reference_pd_isna (v : pyval) : result bool :=
  match v with
  | VList [] | VNdarray [] => Ok false
  | VList [x] | VNdarray [x] => Ok (scalar_isna x)
  | VList _ | VNdarray _ =>
      Err (Raise ValueError
                 "The truth value of an array with more than one element is ambiguous. Use a.any() or a.all()")
  | _ => Ok (scalar_isna v)
  end.

Definition reference_add_field_error (s : CollectionSchema) (f : FieldSchema)
  : option exn :=
  if kw_auto_id f && negb (kw_is_primary f) then
    Some (Raise MilvusException
                "The auto_id can only be specified on the primary key field")
  else None.

Definition reference_runtime (ml_dtypes : bool) : Runtime :=
  {| ml_dtypes_available := ml_dtypes;
     np_array_uint8 := reference_np_array_uint8;
     py_int := reference_py_int;
     pd_isna := reference_pd_isna;
     add_field_error := reference_add_field_error |}.

(** a target that serves every call *)
Definition healthy : Target -> call -> option exn := fun _ _ => None.

(** ** Notions used to state the properties *)

(** the portable field-type vocabulary *)
Definition vocabulary : list string :=
  [ "Bool"; "Int8"; "Int16"; "Int32"; "Int64"; "Float"; "Double"; "String";
    "VarChar"; "JSON"; "Array"; "FloatVector"; "BinaryVector";
    "Float16Vector"; "BFloat16Vector"; "SparseFloatVector" ].

(** [converted rt items out]: [out] lists, in order, the entries of
    [items] whose weight is not [None], each key read by [int] and each
    weight as it was. *)
Definition converted (rt : Runtime) (items : list (string * pyval))
           (out : list (Z * pyval)) : Prop :=
  Forall2 (fun kv nw => py_int rt (fst kv) = Ok (fst nw) /\ snd nw = snd kv)
          (filter (fun kv => is_not_None (snd kv)) items) out.


(** a small dataset used to evaluate the definitions: an auto-id primary
    key that the data nevertheless carries, a title, a declared field the
    data does not have, and a dense vector *)
Definition demo_fields : list FieldInfo :=
  [ {| fi_name := "id"; fi_type := "Int64"; fi_dim := None;
       fi_max_length := None; fi_max_capacity := None;
       fi_element_type := None; fi_is_primary := Some true;
       fi_auto_id := Some true |};
    {| fi_name := "title"; fi_type := "VarChar"; fi_dim := None;
       fi_max_length := Some 128%Z; fi_max_capacity := None;
       fi_element_type := None; fi_is_primary := None; fi_auto_id := None |};
    {| fi_name := "rating"; fi_type := "Int32"; fi_dim := None;
       fi_max_length := None; fi_max_capacity := None;
       fi_element_type := None; fi_is_primary := None; fi_auto_id := None |};
    {| fi_name := "v"; fi_type := "FloatVector"; fi_dim := Some 2%Z;
       fi_max_length := None; fi_max_capacity := None;
       fi_element_type := None; fi_is_primary := None; fi_auto_id := None |} ].

Definition demo_metadata : Metadata :=
  {| schema := Some {| collection_name := Some "t";
                       fields := Some demo_fields |} |}.

Definition demo_cell (row : nat) (column : string) : pyval :=
  if column =? "id" then VInt (Z.of_nat row)
  else if column =? "title" then
    (if (row =? 1)%nat then VNone else VStr "a title")
  else if column =? "v" then
    VNdarray [VFloat (1 # 10); VFloat (Z.of_nat row # 1)]
  else VNone.

Definition demo_frame : DataFrame :=
  {| columns := ["id"; "title"; "v"]; index := [0; 1; 2]%nat; cell := demo_cell |}.

(** [issued rt data_path c]: [c] is a call [insert_data] may make on the
    client for the dataset [data_path]: an existence check, a drop, the
    creation with the schema and the index parameters built from the
    metadata, an insert, the flush or the load. *)
Definition issued (rt : Runtime) (data_path : Dataset) (c : call) : Prop :=
  match c with
  | HasCollection _ | DropCollection _ | Insert _ _ | Flush _
  | LoadCollection _ => True
  | CreateCollection _ sch index_params =>
      exists metadata,
        meta_json data_path = Some (Ok metadata) /\
        _create_schema rt metadata = Ok sch /\
        _create_index_params metadata = Ok index_params
  | Connect _ _ _ | ListCollections | Close => False
  end.

(** [only_issued rt data_path w w']: from [w] to [w'] the target has received
    calls of [insert_data] only, and the connection is as it was. *)
Definition only_issued (rt : Runtime) (data_path : Dataset) (w w' : World)
  : Prop :=
  t_connected (target w') = t_connected (target w) /\
  exists calls,
    t_trace (target w') = t_trace (target w) ++ calls /\
    Forall (fun cr => issued rt data_path (fst cr)) calls.

(** the index parameters the table of the specification gives a field *)
Definition index_table_row (f : FieldInfo) (ip : IndexParam) : Prop :=
  ip_field_name ip = fi_name f /\
  (fi_type f = "SparseFloatVector" ->
   ip_index_type ip = Some "SPARSE_INVERTED_INDEX" /\
   ip_metric_type ip = "IP" /\
   ip_params ip = [("drop_ratio_build", VFloat (2 # 10))]) /\
  (fi_type f = "BinaryVector" ->
   ip_index_type ip = None /\ ip_metric_type ip = "HAMMING" /\
   ip_params ip = []) /\
  (fi_type f <> "SparseFloatVector" -> fi_type f <> "BinaryVector" ->
   ip_index_type ip = None /\ ip_metric_type ip = "L2" /\ ip_params ip = []).

(** [isVectorType]: the test both index loops make *)
Definition is_vector_field (f : FieldInfo) : bool :=
  contains "Vector" (fi_type f).

Definition demo_dataset : Dataset :=
  {| path := "/data/demo";
     path_exists := true;
     meta_json := Some (Ok demo_metadata);
     parquet_files := [("part-0.parquet", Ok demo_frame)] |}.

(** a connected client on a target without collections *)
Definition fresh_world : World :=
  {| target := {| t_collections := []; t_connected := true; t_trace := [] |};
     display := [] |}.

(** [respects R m]: running [m] takes a world to one related to it by [R],
    whether it returns or raises *)
Definition respects (R : World -> World -> Prop) {A : Type} (m : M A) : Prop :=
  forall w, R w (fst (m w)).

(** a dataset with its metadata and no data file *)
Definition empty_dataset : Dataset :=
  {| path := "/data/empty";
     path_exists := true;
     meta_json := Some (Ok demo_metadata);
     parquet_files := [] |}.

(** a connected client on a target that already holds collection ["t"] *)
Definition world_with_t : World :=
  {| target := {| t_collections := ["t"]; t_connected := true; t_trace := [] |};
     display := [] |}.

(** [agree m1 m2]: started on the same target, [m1] and [m2] end on the
    same target with the same result, whatever the progress display shows *)
Definition agree {A : Type} (m1 m2 : M A) : Prop :=
  forall w1 w2,
    target w1 = target w2 ->
    target (fst (m1 w1)) = target (fst (m2 w2)) /\ snd (m1 w1) = snd (m2 w2).

(** *** Batches and what becomes of them *)

(** a batch: the file it comes from, its 0-based index in that file, and
    its rows *)
Record Batch : Type := {
  b_file : string;
  b_index : Z;
  b_rows : DataFrame
}.

(** the number of batches of a file of [rows] rows *)
Definition batch_count (rows batch_size : Z) : nat :=
  Z.to_nat ((rows + batch_size - 1) / batch_size).

Definition nth_batch (batch_size : Z) (file : string * DataFrame) (k : nat)
  : Batch :=
  {| b_file := fst file;
     b_index := Z.of_nat k;
     b_rows := iloc (snd file) (Z.of_nat k * batch_size)
                    (Z.of_nat k * batch_size + batch_size) |}.

Definition batches_of (batch_size : Z) (file : string * DataFrame) : list Batch :=
  map (nth_batch batch_size file)
      (seq 0 (batch_count (len (snd file)) batch_size)).

(** every batch of every file, in processing order *)
Definition all_batches (batch_size : Z) (files : list (string * DataFrame))
  : list Batch :=
  flat_map (batches_of batch_size) files.

(** files that [pd.read_parquet] reads *)
Definition readable (files : list (string * DataFrame))
  : list (string * result DataFrame) :=
  map (fun f => (fst f, Ok (snd f))) files.

(** An attempt is a batch with the answer of the target to its insert call
    ([None]: served).  A batch whose rows cannot be projected makes no
    call; its answer is immaterial. *)
Definition attempt : Type := Batch * option exn.

(** the insert calls an attempt leaves in the trace: one, or none *)
Definition attempt_calls (rt : Runtime) (metadata : Metadata) (name : string)
           (a : attempt) : list (call * option exn) :=
  match _convert_dataframe_to_dict_list rt (b_rows (fst a)) metadata with
  | Ok data => [(Insert name data, snd a)]
  | Err _ => []
  end.

(** the failure an attempt leaves in [failed_batches]: one, or none *)
Definition attempt_failures (rt : Runtime) (metadata : Metadata) (a : attempt)
  : list BatchFailure :=
  let failure e :=
    {| file := b_file (fst a); batch := b_index (fst a); error := str_exn e |} in
  match _convert_dataframe_to_dict_list rt (b_rows (fst a)) metadata with
  | Err e => [failure e]
  | Ok _ =>
      match snd a with
      | Some e => [failure e]
      | None => []
      end
  end.

(** the rows an attempt adds to [total_inserted] *)
Definition attempt_inserted (rt : Runtime) (metadata : Metadata) (a : attempt)
  : Z :=
  match _convert_dataframe_to_dict_list rt (b_rows (fst a)) metadata, snd a with
  | Ok _, None => len (b_rows (fst a))
  | _, _ => 0%Z
  end.

Definition Zsum (l : list Z) : Z := fold_right Z.add 0%Z l.

(** [accounted rt metadata name atts acc w run]: the run of the batch loop
    started with the accumulators [acc] in the world [w] returned, with
    the rows of the served attempts added to the total, the failures of
    the others appended in order, and the insert calls of [atts] appended
    to the trace of the target. *)
Definition accounted (rt : Runtime) (metadata : Metadata) (name : string)
           (atts : list attempt) (acc : Z * list BatchFailure)
           (w : World) (run : World * result (Z * list BatchFailure)) : Prop :=
  snd run
  = Ok ((fst acc + Zsum (map (attempt_inserted rt metadata) atts))%Z,
        snd acc ++ flat_map (attempt_failures rt metadata) atts)
  /\ t_trace (target (fst run))
     = t_trace (target w) ++ flat_map (attempt_calls rt metadata name) atts.

(** the scenario of the specification: a target that refuses the second
    insert call it receives; with batch size 1 the demo file makes three
    batches *)
Definition refuse_second_insert (t : Target) (c : call) : option exn :=
  match c with
  | Insert _ _ =>
      if (length (filter (fun cr => match fst cr with
                                    | Insert _ _ => true
                                    | _ => false
                                    end) (t_trace t)) =? 1)%nat
      then Some (Raise MilvusException "insert refused")
      else None
  | _ => None
  end.

(** the number of rows of a list of files *)
Definition total_rows (files : list (string * DataFrame)) : Z :=
  Zsum (map (fun f => len (snd f)) files).

(** [translatable f]: the registry knows the type of [f] and, for an
    Array field, its element type when one is given *)
Definition translatable (f : FieldInfo) : Prop :=
  In (fi_type f) vocabulary /\
  (fi_type f = "Array" ->
   match fi_element_type f with
   | Some e => e = "" \/ In e vocabulary
   | None => True
   end).

(** the native types of dense vectors, which carry a dimension *)
Definition is_dense_vector (t : DataType) : bool :=
  match t with
  | FLOAT_VECTOR | BINARY_VECTOR | FLOAT16_VECTOR | BFLOAT16_VECTOR => true
  | _ => false
  end.

(** a call that only asks about a collection or drops it *)
Definition asks_or_drops (c : call) : Prop :=
  match c with
  | HasCollection _ | DropCollection _ => True
  | _ => False
  end.

(** metadata whose second field has a type the registry does not know *)
Definition untranslatable_metadata : Metadata :=
  {| schema :=
       Some {| collection_name := Some "t";
               fields :=
                 Some [ {| fi_name := "id"; fi_type := "Int64"; fi_dim := None;
                           fi_max_length := None; fi_max_capacity := None;
                           fi_element_type := None;
                           fi_is_primary := Some true; fi_auto_id := None |};
                        {| fi_name := "body"; fi_type := "Text"; fi_dim := None;
                           fi_max_length := None; fi_max_capacity := None;
                           fi_element_type := None;
                           fi_is_primary := None; fi_auto_id := None |} ] |} |}.

Definition untranslatable_dataset : Dataset :=
  {| path := "/data/text";
     path_exists := true;
     meta_json := Some (Ok untranslatable_metadata);
     parquet_files := [("part-0.parquet", Ok demo_frame)] |}.

(** [extends_by P w w']: from [w] to [w'] the target has received some
    calls, all of which satisfy [P], and none has been forgotten *)
Definition extends_by (P : call -> Prop) (w w' : World) : Prop :=
  exists calls,
    t_trace (target w') = t_trace (target w) ++ calls /\
    Forall (fun cr => P (fst cr)) calls.

(** [addressed name allow_drop c]: [c] is a call of the pipeline on the
    collection [name]; a drop only when [allow_drop] *)
Definition addressed (name : string) (allow_drop : bool) (c : call) : Prop :=
  match c with
  | HasCollection n | CreateCollection n _ _ | Insert n _ | Flush n
  | LoadCollection n => n = name
  | DropCollection n => n = name /\ allow_drop = true
  | Connect _ _ _ | ListCollections | Close => False
  end.

(** [collections_kept w w']: every collection of [w] is a collection of [w'] *)
Definition collections_kept (w w' : World) : Prop :=
  forall n,
    has_name n (t_collections (target w)) = true ->
    has_name n (t_collections (target w')) = true.

(** the index type an entry of the index parameters stands for: the one
    it names, or the client's default *)
Definition effective_index_type (ip : IndexParam) : string :=
  match ip_index_type ip with
  | Some t => t
  | None => "AUTOINDEX"
  end.

(** the bytes of a sequence of 16-bit words, low byte first *)
Definition bytes_of_words (ws : list Z) : list Z :=
  flat_map (fun w => [(w mod 256)%Z; (w / 256)%Z]) ws.

Definition is_byte (b : Z) : Prop := (0 <= b < 256)%Z.

(** [last_retained rt n items found]: the weight of the last entry of
    [items] with a weight that is not [None] and a key that [int] reads as
    [n]; [found] when there is none *)
Fixpoint last_retained (rt : Runtime) (n : Z) (items : list (string * pyval))
         (found : option pyval) : option pyval :=
  match items with
  | [] => found
  | (k, v) :: rest =>
      last_retained rt n rest
        (if is_not_None v then
           match py_int rt k with
           | Ok m => if (m =? n)%Z then Some v else found
           | Err _ => found
           end
         else found)
  end.

(** the order in which data files are processed: by name *)
Definition name_le {A : Type} (a b : string * A) : Prop :=
  (fst a <=? fst b)%string = true.

(** the fields the row projector keeps: not auto-id, and a column *)
Definition kept_field (df : DataFrame) (declared : list FieldInfo)
           (k : string) : bool :=
  negb (auto_id_scan k declared) && in_columns k df.

(** the number of records in the insert calls of a trace that the target
    served *)
Definition served_records (calls : list (call * option exn)) : Z :=
  Zsum (map (fun cr => match cr with
                       | (Insert _ data, None) => Z.of_nat (length data)
                       | _ => 0%Z
                       end) calls).

(** an insert call on [name] with at least one and at most [batch_size]
    records *)
Definition bounded_insert (name : string) (batch_size : Z) (c : call) : Prop :=
  match c with
  | Insert n data => n = name /\ (1 <= Z.of_nat (length data) <= batch_size)%Z
  | _ => False
  end.

(** the advances of the progress bar in a sequence of display events *)
Definition advances (events : list progress_event) : Z :=
  Zsum (map (fun ev => match ev with
                       | Update n => n
                       | _ => 0%Z
                       end) events).

(** a call that moves data into a collection that exists: insert, flush,
    load *)
Definition loads_data (c : call) : Prop :=
  match c with
  | Insert _ _ | Flush _ | LoadCollection _ => True
  | _ => False
  end.

(** * Field type registry: properties *)

Lemma dict_get_outside_vocabulary (s : string) :
  ~ In s vocabulary -> dict_get String.eqb s type_mapping = None.
Proof.
  intros Hout. unfold type_mapping. cbn [dict_get].
  repeat match goal with
         | |- context [(?a =? s)%string] =>
             destruct (String.eqb_spec a s) as [Heq | _];
             [ exfalso; apply Hout; rewrite <- Heq; simpl; tauto | ]
         end.
  reflexivity.
Qed.

(** C5. [_get_milvus_datatype] gives each of the sixteen vocabulary types
    its fixed native constant and raises [ValueError] ("Unknown field
    type") for every other string.  It is a function of its argument alone:
    it reads no state and touches none. *)
Theorem get_milvus_datatype_vocabulary :
  _get_milvus_datatype "Bool" = Ok BOOL /\
  _get_milvus_datatype "Int8" = Ok INT8 /\
  _get_milvus_datatype "Int16" = Ok INT16 /\
  _get_milvus_datatype "Int32" = Ok INT32 /\
  _get_milvus_datatype "Int64" = Ok INT64 /\
  _get_milvus_datatype "Float" = Ok FLOAT /\
  _get_milvus_datatype "Double" = Ok DOUBLE /\
  _get_milvus_datatype "String" = Ok VARCHAR /\
  _get_milvus_datatype "VarChar" = Ok VARCHAR /\
  _get_milvus_datatype "JSON" = Ok JSON /\
  _get_milvus_datatype "Array" = Ok ARRAY /\
  _get_milvus_datatype "FloatVector" = Ok FLOAT_VECTOR /\
  _get_milvus_datatype "BinaryVector" = Ok BINARY_VECTOR /\
  _get_milvus_datatype "Float16Vector" = Ok FLOAT16_VECTOR /\
  _get_milvus_datatype "BFloat16Vector" = Ok BFLOAT16_VECTOR /\
  _get_milvus_datatype "SparseFloatVector" = Ok SPARSE_FLOAT_VECTOR /\
  forall s : string,
    ~ In s vocabulary ->
    _get_milvus_datatype s
    = Err (Raise ValueError ("Unknown field type: " ++ s)).
Proof.
  repeat (split; [reflexivity | ]).
  intros s Hout. unfold _get_milvus_datatype.
  rewrite (dict_get_outside_vocabulary s Hout). reflexivity.
Qed.

Lemma get_milvus_datatype_vocabulary_witness :
  ~ In "Text" vocabulary /\
  _get_milvus_datatype "Text"
  = Err (Raise ValueError "Unknown field type: Text").
Proof.
  assert (Hout : ~ In "Text" vocabulary)
    by (simpl; intuition discriminate).
  split; [exact Hout | ].
  exact (proj2 (proj2 (proj2 (proj2 (proj2 (proj2 (proj2 (proj2
        (proj2 (proj2 (proj2 (proj2 (proj2 (proj2 (proj2 (proj2
           get_milvus_datatype_vocabulary)))))))))))))))
           "Text" Hout).
Defined.

(** * Vector codec: properties *)

(** C3, as stated, fails.  Without [ml_dtypes] the codec does not raise: on
    the byte list [[0, 60]] declared as a BFloat16Vector it returns the list
    as it came, unconverted. *)
Lemma bfloat16_without_ml_dtypes_counterexample :
  _convert_single_vector_data (reference_runtime false)
                              (VList [VInt 0; VInt 60]) "BFloat16Vector"
  = Ok (VList [VInt 0; VInt 60])
  /\ forall e : exn,
      _convert_single_vector_data (reference_runtime false)
                                  (VList [VInt 0; VInt 60]) "BFloat16Vector"
      <> Err e.
Proof.
  split; [reflexivity | intros e H; discriminate H].
Qed.

(** C3, amended.  When [ml_dtypes] cannot be imported, the codec raises
    nothing for a BFloat16Vector value and returns the value unchanged. *)
Theorem bfloat16_without_ml_dtypes_passes_through
        (rt : Runtime) (vector_data : pyval) :
  ml_dtypes_available rt = false ->
  _convert_single_vector_data rt vector_data "BFloat16Vector" = Ok vector_data.
Proof.
  intros Hno. unfold _convert_single_vector_data.
  change ("BFloat16Vector" =? "Float16Vector") with false.
  change ("BFloat16Vector" =? "BFloat16Vector") with true.
  cbv iota. rewrite Hno. reflexivity.
Qed.

Lemma bfloat16_without_ml_dtypes_passes_through_witness :
  ml_dtypes_available (reference_runtime false) = false /\
  _convert_single_vector_data (reference_runtime false)
                              (VNdarray [VInt 128; VInt 63]) "BFloat16Vector"
  = Ok (VNdarray [VInt 128; VInt 63]).
Proof.
  split; [reflexivity | ].
  apply (bfloat16_without_ml_dtypes_passes_through
           (reference_runtime false) (VNdarray [VInt 128; VInt 63])).
  reflexivity.
Defined.

(** with [ml_dtypes] the same bytes are reinterpreted *)
Example bfloat16_with_ml_dtypes :
  _convert_single_vector_data (reference_runtime true)
                              (VList [VInt 128; VInt 63]) "BFloat16Vector"
  = Ok (VHalfArray BFloat16 [16256%Z]).
Proof. reflexivity. Qed.

(** [dict_set] on a key that is not there appends the entry *)
Lemma dict_set_fresh (n : Z) (v : pyval) (d : list (Z * pyval)) :
  ~ In n (map fst d) -> dict_set Z.eqb n v d = d ++ [(n, v)].
Proof.
  induction d as [| [k w] d IH]; simpl; intros Hfresh.
  - reflexivity.
  - destruct (Z.eqb_spec k n) as [-> | _].
    + exfalso. apply Hfresh. now left.
    + f_equal. apply IH. intros Hin. apply Hfresh. now right.
Qed.

Lemma sparse_comprehension_converted (rt : Runtime) :
  forall items acc out,
    converted rt items out ->
    NoDup (map fst (acc ++ out)) ->
    sparse_comprehension rt items acc = Ok (acc ++ out).
Proof.
  unfold converted.
  induction items as [| [k v] items IH]; intros acc out Hconv Hnodup.
  - simpl in Hconv. inversion Hconv; subst. simpl. now rewrite app_nil_r.
  - simpl in Hconv. simpl.
    destruct (is_not_None v) eqn:Hv.
    + inversion Hconv as [| kv [n w] l l' [Hint Hw] Hrest]; subst.
      simpl in Hint, Hw. subst w. rewrite Hint.
      rewrite dict_set_fresh.
      * replace (acc ++ (n, v) :: l') with ((acc ++ [(n, v)]) ++ l')
          by (rewrite <- app_assoc; reflexivity).
        apply IH; [exact Hrest | ].
        rewrite <- app_assoc. exact Hnodup.
      * rewrite map_app in Hnodup. simpl in Hnodup.
        apply NoDup_remove_2 in Hnodup.
        intros Hin. apply Hnodup. apply in_or_app. now left.
    + apply IH; assumption.
Qed.

(** C6. For a sparse vector given as a str-keyed dict whose keys with a
    non-null weight are integer literals denoting distinct dimensions, the
    codec returns the int-keyed dict made of exactly the entries with a
    non-null weight, keys read as integers, weights unchanged. *)
Theorem sparse_vector_drops_nulls_and_integerizes
        (rt : Runtime) (items : list (string * pyval))
        (out : list (Z * pyval)) :
  converted rt items out ->
  NoDup (map fst out) ->
  _convert_single_vector_data rt (VDict items) "SparseFloatVector"
  = Ok (VIntDict out).
Proof.
  intros Hconv Hnodup. unfold _convert_single_vector_data.
  change ("SparseFloatVector" =? "Float16Vector") with false.
  change ("SparseFloatVector" =? "BFloat16Vector") with false.
  change ("SparseFloatVector" =? "BinaryVector") with false.
  change ("SparseFloatVector" =? "SparseFloatVector") with true.
  cbv iota.
  rewrite (sparse_comprehension_converted rt items [] out Hconv Hnodup).
  reflexivity.
Qed.

(** the example of the specification: [{"3": 0.5, "7": None, "9": 1.2}]
    becomes [{3: 0.5, 9: 1.2}] *)
Lemma sparse_vector_drops_nulls_and_integerizes_witness :
  _convert_single_vector_data
    (reference_runtime true)
    (VDict [("3", VFloat (5 # 10)); ("7", VNone); ("9", VFloat (12 # 10))])
    "SparseFloatVector"
  = Ok (VIntDict [(3%Z, VFloat (5 # 10)); (9%Z, VFloat (12 # 10))]).
Proof.
  apply (sparse_vector_drops_nulls_and_integerizes
           (reference_runtime true)
           [("3", VFloat (5 # 10)); ("7", VNone); ("9", VFloat (12 # 10))]
           [(3%Z, VFloat (5 # 10)); (9%Z, VFloat (12 # 10))]).
  - unfold converted. simpl.
    repeat (constructor; [split; reflexivity | ]). constructor.
  - simpl. repeat constructor; simpl; intuition discriminate.
Defined.

(** * Row projector: properties *)




Section ProjectorFacts.
Variable rt : Runtime.
Variable df : DataFrame.
Variable metadata : Metadata.
Variable declared : list FieldInfo.
Hypothesis Hdeclared : metadata_fields metadata = Ok declared.






Lemma convert_rows_rows :
  forall rows data_list out,
    convert_rows rt df metadata rows data_list = Ok out ->
    exists recs,
      out = data_list ++ recs /\
      Forall2 (fun row rec => project_row rt df metadata row = Ok rec) rows recs.
Proof.
  induction rows as [| row rows IH]; intros data_list out Hrun.
  - simpl in Hrun. injection Hrun as <-. exists []. split.
    + now rewrite app_nil_r.
    + constructor.
  - simpl in Hrun.
    destruct (project_row rt df metadata row) as [rec | e] eqn:Hrow;
      simpl in Hrun; [ | discriminate].
    destruct (IH _ _ Hrun) as (recs & -> & Hall).
    exists (rec :: recs). split.
    + now rewrite <- app_assoc.
    + now constructor.
Qed.


End ProjectorFacts.





(** the three cases of the scalar normalisation on the reference runtime *)
Example scalar_normalisation :
  convert_value (reference_runtime true) VNaN "Double" = Ok VNone
  /\ convert_value (reference_runtime true) (VTimestamp 1700000000) "Int64"
     = Ok (VDatetime 1700000000)
  /\ convert_value (reference_runtime true) (VInt 7) "Int64" = Ok (VInt 7)
  /\ convert_value (reference_runtime true)
                   (VDict [("3", VFloat (5 # 10)); ("7", VNone)])
                   "SparseFloatVector"
     = Ok (VIntDict [(3%Z, VFloat (5 # 10))]).
Proof. repeat split. Qed.

(** the records of the demo frame: no ["id"], no ["rating"], a null title
    for the second row *)
Example demo_records :
  _convert_dataframe_to_dict_list (reference_runtime true) demo_frame
                                  demo_metadata
  = Ok [ [("title", VStr "a title"); ("v", VNdarray [VFloat (1 # 10); VFloat (0 # 1)])];
         [("title", VNone); ("v", VNdarray [VFloat (1 # 10); VFloat (1 # 1)])];
         [("title", VStr "a title"); ("v", VNdarray [VFloat (1 # 10); VFloat (2 # 1)])] ].
Proof. reflexivity. Qed.

(** * The pipeline: what a run may do to the world *)

Section Respects.
Variable R : World -> World -> Prop.
Hypothesis R_refl : forall w, R w w.
Hypothesis R_trans : forall w1 w2 w3, R w1 w2 -> R w2 w3 -> R w1 w3.

Lemma respects_ret {A : Type} (a : A) : respects R (ret a).
Proof. intros w. apply R_refl. Qed.

Lemma respects_raise {A : Type} (e : exn) : respects R (@raise A e).
Proof. intros w. apply R_refl. Qed.

Lemma respects_lift {A : Type} (r : result A) : respects R (lift r).
Proof. intros w. apply R_refl. Qed.

Lemma respects_bind {A B : Type} (m : M A) (k : A -> M B) :
  respects R m -> (forall a, respects R (k a)) -> respects R (bind m k).
Proof.
  intros Hm Hk w. unfold bind. specialize (Hm w).
  destruct (m w) as [w1 [a | e]]; simpl in *.
  - eapply R_trans; [exact Hm | apply Hk].
  - exact Hm.
Qed.

Lemma respects_bind_lift {A B : Type} (r : result A) (k : A -> M B) :
  (forall a, r = Ok a -> respects R (k a)) -> respects R (bind (lift r) k).
Proof.
  intros Hk w. unfold bind, lift. destruct r as [a | e].
  - now apply Hk.
  - apply R_refl.
Qed.

Lemma respects_try_except {A : Type} (m : M A) (h : exn -> M A) :
  respects R m -> (forall e, respects R (h e)) -> respects R (try_except m h).
Proof.
  intros Hm Hh w. unfold try_except. specialize (Hm w).
  destruct (m w) as [w1 [a | e]]; simpl in *.
  - exact Hm.
  - eapply R_trans; [exact Hm | apply Hh].
Qed.

Lemma respects_for_each {S : Type} (body : S -> Z -> M S) :
  (forall acc i, respects R (body acc i)) ->
  forall starts acc, respects R (for_each body starts acc).
Proof.
  intros Hbody. induction starts as [| i starts IH]; intros acc; simpl.
  - apply respects_ret.
  - apply respects_bind; [apply Hbody | intros acc'; apply IH].
Qed.

Hypothesis R_emit : forall ev, respects R (emit ev).

Lemma respects_with_progress {A : Type} (body : M A) :
  respects R body -> respects R (with_progress body).
Proof.
  intros Hbody. unfold with_progress.
  apply respects_bind; [apply R_emit | intros _].
  apply respects_try_except.
  - apply respects_bind; [exact Hbody | intros a].
    apply respects_bind; [apply R_emit | intros _; apply respects_ret].
  - intros e. apply respects_bind; [apply R_emit | intros _; apply respects_raise].
Qed.

Variable rt : Runtime.
Variable fault : Target -> call -> option exn.
Variable data_path : Dataset.
Hypothesis R_call : forall c, issued rt data_path c -> respects R (client_call fault c).

Lemma respects_has_collection (name : string) :
  respects R (has_collection fault name).
Proof.
  intros w. unfold has_collection.
  apply (respects_bind (client_call fault (HasCollection name))
                       (fun _ => ret _)).
  - apply R_call. exact I.
  - intros _. apply respects_ret.
Qed.

Lemma respects_insert_batch_plain name file_name df metadata batch_size acc i :
  respects R (insert_batch_plain rt fault name file_name df metadata batch_size
                               acc i).
Proof.
  unfold insert_batch_plain. apply respects_try_except.
  - apply respects_bind; [apply respects_lift | intros data].
    apply respects_bind; [apply R_call; exact I | intros _; apply respects_ret].
  - intros e. apply respects_ret.
Qed.

Lemma respects_insert_batch_progress name file_name df metadata batch_size acc i :
  respects R (insert_batch_progress rt fault name file_name df metadata
                                  batch_size acc i).
Proof.
  unfold insert_batch_progress. apply respects_try_except.
  - apply respects_bind; [apply respects_lift | intros data].
    apply respects_bind; [apply R_call; exact I | intros _].
    apply respects_bind; [apply R_emit | intros _; apply respects_ret].
  - intros e.
    apply respects_bind; [apply R_emit | intros _; apply respects_ret].
Qed.

Lemma respects_insert_file name metadata batch_size show_progress file acc :
  respects R (insert_file rt fault name metadata batch_size show_progress file acc).
Proof.
  unfold insert_file.
  apply respects_bind; [apply respects_lift | intros df].
  destruct show_progress.
  - apply respects_with_progress.
    apply respects_bind; [apply R_emit | intros _].
    apply respects_bind; [apply respects_lift | intros starts].
    apply respects_for_each. intros acc' i.
    apply respects_insert_batch_progress.
  - apply respects_bind; [apply respects_lift | intros starts].
    apply respects_for_each. intros acc' i.
    apply respects_insert_batch_plain.
Qed.

Lemma respects_insert_files name metadata batch_size show_progress :
  forall files acc,
    respects R (insert_files rt fault name metadata batch_size show_progress
                           files acc).
Proof.
  induction files as [| file files IH]; intros acc; simpl.
  - apply respects_ret.
  - apply respects_bind; [apply respects_insert_file | intros acc'; apply IH].
Qed.

Lemma respects_insert_data collection_name drop_if_exists create_index
      batch_size show_progress :
  respects R (insert_data rt fault data_path collection_name drop_if_exists
                        create_index batch_size show_progress).
Proof.
  unfold insert_data.
  destruct (path_exists data_path); simpl; [ | apply respects_raise].
  destruct (meta_json data_path) as [loaded | ] eqn:Hmeta;
    [ | apply respects_raise].
  apply respects_bind_lift. intros metadata ->.
  apply respects_bind_lift. intros name _.
  apply respects_bind; [apply respects_has_collection | intros present].
  apply respects_bind.
  { destruct present; [ | apply respects_ret].
    destruct drop_if_exists; [apply R_call; exact I | apply respects_raise]. }
  intros _.
  apply respects_bind_lift. intros sch Hsch.
  apply respects_bind_lift. intros index_params Hips.
  apply respects_bind.
  { apply R_call. simpl. exists metadata. auto. }
  intros _.
  destruct (sorted (parquet_files data_path)) as [| file files];
    [apply respects_raise | ].
  apply respects_bind; [apply respects_insert_files | intros acc].
  apply respects_bind; [apply R_call; exact I | intros _].
  apply respects_bind; [apply R_call; exact I | intros _].
  apply respects_bind_lift. intros index_info _.
  apply respects_ret.
Qed.

End Respects.

Lemma only_issued_refl (rt : Runtime) (data_path : Dataset) (w : World) :
  only_issued rt data_path w w.
Proof.
  split; [reflexivity | ]. exists []. split; [now rewrite app_nil_r | constructor].
Qed.

Lemma only_issued_trans (rt : Runtime) (data_path : Dataset)
      (w1 w2 w3 : World) :
  only_issued rt data_path w1 w2 -> only_issued rt data_path w2 w3 ->
  only_issued rt data_path w1 w3.
Proof.
  intros [Hc1 (l1 & Ht1 & Hl1)] [Hc2 (l2 & Ht2 & Hl2)]. split.
  - congruence.
  - exists (l1 ++ l2). split.
    + rewrite Ht2, Ht1. now rewrite app_assoc.
    + apply Forall_app. now split.
Qed.

Lemma only_issued_emit (rt : Runtime) (data_path : Dataset)
      (ev : progress_event) (w : World) :
  only_issued rt data_path w (fst (emit ev w)).
Proof.
  split; [reflexivity | ]. exists []. simpl.
  split; [now rewrite app_nil_r | constructor].
Qed.

Lemma only_issued_call (rt : Runtime) (fault : Target -> call -> option exn)
      (data_path : Dataset) (c : call) :
  issued rt data_path c ->
  forall w, only_issued rt data_path w (fst (client_call fault c w)).
Proof.
  intros Hc w. unfold client_call.
  destruct (fault (target w) c) as [e | ]; simpl.
  - split; [reflexivity | ]. exists [(c, Some e)].
    split; [reflexivity | ]. constructor; [exact Hc | constructor].
  - split.
    + simpl. destruct c; simpl in *; try reflexivity; contradiction.
    + exists [(c, None)]. split; [reflexivity | ].
      constructor; [exact Hc | constructor].
Qed.

Lemma insert_data_only_issued
      (rt : Runtime) (fault : Target -> call -> option exn)
      (data_path : Dataset) (collection_name : option string)
      (drop_if_exists create_index : bool) (batch_size : Z)
      (show_progress : bool) (w : World) :
  only_issued rt data_path w
              (fst (insert_data rt fault data_path collection_name
                                drop_if_exists create_index batch_size
                                show_progress w)).
Proof.
  apply (respects_insert_data (only_issued rt data_path)
           (only_issued_refl rt data_path) (only_issued_trans rt data_path)
           (only_issued_emit rt data_path) rt fault data_path
           (only_issued_call rt fault data_path)).
Qed.

(** * Connection: properties *)

(** C9, as stated, fails.  A run of [insert_data] that completes and
    returns its report leaves the client connected: the target has received
    no close call. *)
Lemma connection_not_released_counterexample :
  let run := insert_data (reference_runtime true) healthy demo_dataset None
                         false true 2%Z false fresh_world in
  (exists report, snd run = Ok report) /\
  t_connected (target (fst run)) = true /\
  ~ In Close (map fst (t_trace (target (fst run)))).
Proof.
  vm_compute. split; [eexists; reflexivity | split; [reflexivity | ]].
  intros H. repeat (destruct H as [H | H]; [discriminate H | ]). exact H.
Qed.

(** C9, amended.  [insert_data] holds no connection of its own: on every
    exit path, return or error, the connection is in the state it was in
    before the call and the target has received no close call.  The
    connection is released by the separate method [close], which makes one
    close call and returns normally even when that call fails. *)
Theorem insert_data_leaves_connection_to_close
        (rt : Runtime) (fault : Target -> call -> option exn)
        (data_path : Dataset) (collection_name : option string)
        (drop_if_exists create_index : bool) (batch_size : Z)
        (show_progress : bool) (w : World) :
  let run := insert_data rt fault data_path collection_name drop_if_exists
                         create_index batch_size show_progress w in
  (t_connected (target (fst run)) = t_connected (target w) /\
   exists calls,
     t_trace (target (fst run)) = t_trace (target w) ++ calls /\
     ~ In Close (map fst calls))
  /\ snd (close fault w) = Ok tt
  /\ t_trace (target (fst (close fault w)))
     = t_trace (target w) ++ [(Close, fault (target w) Close)]
  /\ (fault (target w) Close = None ->
      t_connected (target (fst (close fault w))) = false).
Proof.
  simpl. split; [ | ].
  - destruct (insert_data_only_issued rt fault data_path collection_name
                drop_if_exists create_index batch_size show_progress w)
      as [Hconn (calls & Htrace & Hcalls)].
    split; [exact Hconn | ]. exists calls. split; [exact Htrace | ].
    intros Hin. apply in_map_iff in Hin. destruct Hin as ([c r] & Hc & Hin).
    simpl in Hc. subst c.
    rewrite Forall_forall in Hcalls. exact (Hcalls _ Hin).
  - unfold close, try_except, client_call.
    destruct (fault (target w) Close) as [e | ]; simpl.
    + repeat split. intros H. discriminate H.
    + repeat split.
Qed.

(** * Pre-flight checks: properties *)

(** C4. When the dataset loads, names the target collection, that
    collection exists and [drop_if_exists] is false, [insert_data] raises;
    the only call the target receives is the existence check, so nothing is
    created, dropped or inserted, and the collection is still there.  The
    error is the conflict [ValueError] whenever the existence check is
    answered. *)
Theorem conflict_without_replacement
        (rt : Runtime) (fault : Target -> call -> option exn)
        (data_path : Dataset) (collection_name : option string)
        (create_index : bool) (batch_size : Z) (show_progress : bool)
        (w : World) (metadata : Metadata) (name : string) :
  path_exists data_path = true ->
  meta_json data_path = Some (Ok metadata) ->
  resolve_collection_name collection_name metadata = Ok name ->
  has_name name (t_collections (target w)) = true ->
  let run := insert_data rt fault data_path collection_name false
                         create_index batch_size show_progress w in
  (exists e, snd run = Err e /\
             (fault (target w) (HasCollection name) = None ->
              e = conflict_error name))
  /\ t_trace (target (fst run))
     = t_trace (target w)
         ++ [(HasCollection name, fault (target w) (HasCollection name))]
  /\ t_collections (target (fst run)) = t_collections (target w)
  /\ has_name name (t_collections (target (fst run))) = true.
Proof.
  intros Hpath Hmeta Hname Hexists run.
  assert (Hrun :
            run
            = ({| target :=
                    {| t_collections := t_collections (target w);
                       t_connected := t_connected (target w);
                       t_trace :=
                         t_trace (target w)
                           ++ [(HasCollection name,
                                fault (target w) (HasCollection name))] |};
                  display := display w |},
               Err (match fault (target w) (HasCollection name) with
                    | Some e => e
                    | None => conflict_error name
                    end))).
  { unfold run, insert_data. rewrite Hpath, Hmeta. simpl.
    unfold bind, lift. rewrite Hname.
    unfold has_collection, bind, client_call, ret, raise.
    destruct (fault (target w) (HasCollection name)) as [e | ]; simpl.
    - reflexivity.
    - rewrite Hexists. reflexivity. }
  rewrite Hrun. simpl. repeat split; try assumption.
  eexists. split; [reflexivity | ]. intros ->. reflexivity.
Qed.

Lemma conflict_without_replacement_witness :
  let run := insert_data (reference_runtime true) healthy demo_dataset None
                         false true 10000%Z true world_with_t in
  (exists e, snd run = Err e /\
             (healthy (target world_with_t) (HasCollection "t") = None ->
              e = conflict_error "t"))
  /\ t_trace (target (fst run))
     = t_trace (target world_with_t)
         ++ [(HasCollection "t", healthy (target world_with_t) (HasCollection "t"))]
  /\ t_collections (target (fst run)) = t_collections (target world_with_t)
  /\ has_name "t" (t_collections (target (fst run))) = true.
Proof.
  apply (conflict_without_replacement
           (reference_runtime true) healthy demo_dataset None true 10000%Z
           true world_with_t demo_metadata "t");
    reflexivity.
Defined.

(** C2 does not hold of the code.  For a dataset directory with a valid
    [meta.json] and no parquet file, [insert_data] raises
    [FileNotFoundError] only after it has asked the target whether the
    collection exists and has created it; with [drop_if_exists] it has
    also dropped the collection that was there. *)
Theorem no_data_files_fails_after_creation :
  (let run := insert_data (reference_runtime true) healthy empty_dataset None
                          false true 10000%Z true fresh_world in
   snd run
   = Err (Raise FileNotFoundError "No parquet files found in /data/empty")
   /\ (exists sch index_params,
         t_trace (target (fst run))
         = [ (HasCollection "t", None);
             (CreateCollection "t" sch index_params, None) ])
   /\ t_collections (target (fst run)) = ["t"])
  /\
  (let run := insert_data (reference_runtime true) healthy empty_dataset None
                          true true 10000%Z true world_with_t in
   snd run
   = Err (Raise FileNotFoundError "No parquet files found in /data/empty")
   /\ (exists sch index_params,
         t_trace (target (fst run))
         = [ (HasCollection "t", None);
             (DropCollection "t", None);
             (CreateCollection "t" sch index_params, None) ])).
Proof.
  split; vm_compute; repeat split; do 2 eexists; reflexivity.
Qed.

(** * Progress display: the two branches of the batch loop *)

Lemma agree_ret {A : Type} (a : A) : agree (ret a) (ret a).
Proof. intros w1 w2 H. now split. Qed.

Lemma agree_raise {A : Type} (e : exn) : agree (@raise A e) (raise e).
Proof. intros w1 w2 H. now split. Qed.

Lemma agree_lift {A : Type} (r : result A) : agree (lift r) (lift r).
Proof. intros w1 w2 H. now split. Qed.

Lemma agree_bind {A B : Type} (m1 m2 : M A) (k1 k2 : A -> M B) :
  agree m1 m2 -> (forall a, agree (k1 a) (k2 a)) ->
  agree (bind m1 k1) (bind m2 k2).
Proof.
  intros Hm Hk w1 w2 Hw. unfold bind.
  destruct (Hm w1 w2 Hw) as [Ht Hr].
  destruct (m1 w1) as [w1' r1], (m2 w2) as [w2' r2]. simpl in Ht, Hr. subst r2.
  destruct r1 as [a | e]; [now apply Hk | now split].
Qed.

Lemma agree_try_except {A : Type} (m1 m2 : M A) (h1 h2 : exn -> M A) :
  agree m1 m2 -> (forall e, agree (h1 e) (h2 e)) ->
  agree (try_except m1 h1) (try_except m2 h2).
Proof.
  intros Hm Hh w1 w2 Hw. unfold try_except.
  destruct (Hm w1 w2 Hw) as [Ht Hr].
  destruct (m1 w1) as [w1' r1], (m2 w2) as [w2' r2]. simpl in Ht, Hr. subst r2.
  destruct r1 as [a | e]; [now split | now apply Hh].
Qed.

Lemma agree_emit_left {A : Type} (ev : progress_event) (m1 m2 : M A) :
  agree m1 m2 -> agree (bind (emit ev) (fun _ => m1)) m2.
Proof.
  intros Hm w1 w2 Hw. unfold bind, emit. apply Hm. exact Hw.
Qed.

Section Agree.
Variable rt : Runtime.
Variable fault : Target -> call -> option exn.

Lemma agree_client_call (c : call) :
  agree (client_call fault c) (client_call fault c).
Proof.
  intros w1 w2 Hw. unfold client_call. rewrite Hw.
  destruct (fault (target w2) c); now split.
Qed.

Lemma agree_has_collection (name : string) :
  agree (has_collection fault name) (has_collection fault name).
Proof.
  intros w1 w2 Hw. unfold has_collection. rewrite Hw.
  apply agree_bind; [apply agree_client_call | intros _; apply agree_ret | exact Hw].
Qed.

Lemma agree_with_progress {A : Type} (body1 body2 : M A) :
  agree body1 body2 -> agree (with_progress body1) body2.
Proof.
  intros Hbody. unfold with_progress.
  apply agree_emit_left.
  intros w1 w2 Hw. unfold try_except, bind.
  destruct (Hbody w1 w2 Hw) as [Ht Hr].
  destruct (body1 w1) as [w1' r1], (body2 w2) as [w2' r2]. simpl in Ht, Hr.
  subst r2. destruct r1 as [a | e]; simpl; now split.
Qed.

Lemma agree_insert_batch name file_name df metadata batch_size acc i :
  agree (insert_batch_progress rt fault name file_name df metadata batch_size
                               acc i)
        (insert_batch_plain rt fault name file_name df metadata batch_size
                            acc i).
Proof.
  unfold insert_batch_progress, insert_batch_plain.
  apply agree_try_except.
  - apply agree_bind; [apply agree_lift | intros data].
    apply agree_bind; [apply agree_client_call | intros _].
    apply agree_emit_left. apply agree_ret.
  - intros e. apply agree_emit_left. apply agree_ret.
Qed.

Lemma agree_for_each {S : Type} (body1 body2 : S -> Z -> M S) :
  (forall acc i, agree (body1 acc i) (body2 acc i)) ->
  forall starts acc,
    agree (for_each body1 starts acc) (for_each body2 starts acc).
Proof.
  intros Hbody. induction starts as [| i starts IH]; intros acc; simpl.
  - apply agree_ret.
  - apply agree_bind; [apply Hbody | intros acc'; apply IH].
Qed.

Lemma agree_insert_file name metadata batch_size file acc :
  agree (insert_file rt fault name metadata batch_size true file acc)
        (insert_file rt fault name metadata batch_size false file acc).
Proof.
  unfold insert_file.
  apply agree_bind; [apply agree_lift | intros df].
  apply agree_with_progress. apply agree_emit_left.
  apply agree_bind; [apply agree_lift | intros starts].
  apply agree_for_each. intros acc' i. apply agree_insert_batch.
Qed.

Lemma agree_insert_files name metadata batch_size :
  forall files acc,
    agree (insert_files rt fault name metadata batch_size true files acc)
          (insert_files rt fault name metadata batch_size false files acc).
Proof.
  induction files as [| file files IH]; intros acc; simpl.
  - apply agree_ret.
  - apply agree_bind; [apply agree_insert_file | intros acc'; apply IH].
Qed.

Lemma agree_insert_data data_path collection_name drop_if_exists create_index
      batch_size :
  agree (insert_data rt fault data_path collection_name drop_if_exists
                     create_index batch_size true)
        (insert_data rt fault data_path collection_name drop_if_exists
                     create_index batch_size false).
Proof.
  unfold insert_data.
  destruct (path_exists data_path); simpl; [ | apply agree_raise].
  destruct (meta_json data_path) as [loaded | ]; [ | apply agree_raise].
  apply agree_bind; [apply agree_lift | intros metadata].
  apply agree_bind; [apply agree_lift | intros name].
  apply agree_bind; [apply agree_has_collection | intros present].
  apply agree_bind.
  { destruct present; [ | apply agree_ret].
    destruct drop_if_exists; [apply agree_client_call | apply agree_raise]. }
  intros _.
  apply agree_bind; [apply agree_lift | intros sch].
  apply agree_bind; [apply agree_lift | intros index_params].
  apply agree_bind; [apply agree_client_call | intros _].
  destruct (sorted (parquet_files data_path)) as [| file files];
    [apply agree_raise | ].
  apply agree_bind; [apply agree_insert_files | intros acc].
  apply agree_bind; [apply agree_client_call | intros _].
  apply agree_bind; [apply agree_client_call | intros _].
  apply agree_bind; [apply agree_lift | intros index_info].
  apply agree_ret.
Qed.

End Agree.

(** C10. Run from the same world, [insert_data] with [show_progress=True]
    and with [show_progress=False] give the same outcome, the same report
    (collection name, total inserted, failed batches, indexes created,
    loaded flag) or the same error, and leave the target in the same state,
    having made the same calls. *)
Theorem show_progress_does_not_change_report
        (rt : Runtime) (fault : Target -> call -> option exn)
        (data_path : Dataset) (collection_name : option string)
        (drop_if_exists create_index : bool) (batch_size : Z) (w : World) :
  snd (insert_data rt fault data_path collection_name drop_if_exists
                   create_index batch_size true w)
  = snd (insert_data rt fault data_path collection_name drop_if_exists
                     create_index batch_size false w)
  /\ target (fst (insert_data rt fault data_path collection_name
                              drop_if_exists create_index batch_size true w))
     = target (fst (insert_data rt fault data_path collection_name
                                drop_if_exists create_index batch_size false w)).
Proof.
  destruct (agree_insert_data rt fault data_path collection_name
              drop_if_exists create_index batch_size w w eq_refl)
    as [Ht Hr].
  now split.
Qed.

(** * Batch loop: properties *)

Lemma combine_app {A B : Type} (l1 l2 : list A) (o1 o2 : list B) :
  length o1 = length l1 ->
  combine (l1 ++ l2) (o1 ++ o2) = combine l1 o1 ++ combine l2 o2.
Proof.
  revert o1. induction l1 as [| x l1 IH]; intros [| o o1] Hlen;
    simpl in *; try discriminate; [reflexivity | ].
  f_equal. apply IH. now injection Hlen.
Qed.

Lemma Zsum_app (l1 l2 : list Z) : Zsum (l1 ++ l2) = (Zsum l1 + Zsum l2)%Z.
Proof. induction l1 as [| x l1 IH]; simpl; [reflexivity | rewrite IH; lia]. Qed.

Lemma py_range_positive (stop step : Z) :
  (0 < step)%Z ->
  py_range stop step
  = Ok (map (fun k => (Z.of_nat k * step)%Z) (seq 0 (batch_count stop step))).
Proof.
  intros Hstep. unfold py_range, batch_count.
  destruct (Z.eqb_spec step 0); [lia | ].
  destruct (Z.ltb_spec step 0); [lia | reflexivity].
Qed.

Section BatchLoop.
Variable rt : Runtime.
Variable fault : Target -> call -> option exn.
Variable name : string.
Variable metadata : Metadata.
Variable batch_size : Z.
Hypothesis batch_size_positive : (0 < batch_size)%Z.

Lemma accounted_batch (file : string * DataFrame) (k : nat) acc w :
  exists o,
    accounted rt metadata name [(nth_batch batch_size file k, o)] acc w
              (insert_batch_plain rt fault name (fst file) (snd file) metadata
                                  batch_size acc
                                  (Z.of_nat k * batch_size)%Z w).
Proof.
  unfold accounted, insert_batch_plain, try_except, bind, lift.
  unfold attempt_inserted, attempt_failures, attempt_calls. simpl.
  destruct (_convert_dataframe_to_dict_list
              rt (iloc (snd file) (Z.of_nat k * batch_size)
                       (Z.of_nat k * batch_size + batch_size)) metadata)
    as [data | e] eqn:Hconv.
  - unfold client_call.
    destruct (fault (target w) (Insert name data)) as [e | ] eqn:Hfault.
    + exists (Some e). simpl. unfold batch_failure.
      rewrite Z.div_mul by lia. now rewrite ?Z.add_0_r, ?app_nil_r.
    + exists None. simpl. now rewrite ?Z.add_0_r, ?app_nil_r.
  - exists None. simpl. unfold batch_failure.
    rewrite Z.div_mul by lia. now rewrite ?Z.add_0_r, ?app_nil_r.
Qed.

Lemma accounted_for_each (file : string * DataFrame) :
  forall ks acc w,
  exists os,
    length os = length ks /\
    accounted rt metadata name (combine (map (nth_batch batch_size file) ks) os) acc w
      (for_each (insert_batch_plain rt fault name (fst file) (snd file)
                                    metadata batch_size)
                (map (fun k => (Z.of_nat k * batch_size)%Z) ks) acc w).
Proof.
  induction ks as [| k ks IH]; intros acc w.
  - exists []. split; [reflexivity | ]. unfold accounted. simpl.
    rewrite Z.add_0_r. rewrite !app_nil_r. now destruct acc.
  - destruct (accounted_batch file k acc w) as [o [Hres Htrace]].
    simpl. unfold bind.
    destruct (insert_batch_plain rt fault name (fst file) (snd file) metadata
                batch_size acc (Z.of_nat k * batch_size)%Z w)
      as [w1 r1]. simpl in Hres, Htrace. subst r1.
    destruct (IH (fst acc + (attempt_inserted rt metadata
                                 (nth_batch batch_size file k, o) + 0),
                  snd acc ++ attempt_failures rt metadata
                                 (nth_batch batch_size file k, o) ++ [])%Z w1)
      as (os & Hlen & Hres' & Htrace').
    exists (o :: os). split; [simpl; now rewrite Hlen | ].
    unfold accounted. simpl. rewrite Hres', Htrace', Htrace. simpl.
    rewrite !app_nil_r. rewrite <- !app_assoc. split; [ | reflexivity].
    do 2 f_equal. lia.
Qed.

Lemma accounted_file (file : string * DataFrame) acc w :
  exists os,
    length os = length (batches_of batch_size file) /\
    accounted rt metadata name (combine (batches_of batch_size file) os) acc w
      (insert_file rt fault name metadata batch_size false
                   (fst file, Ok (snd file)) acc w).
Proof.
  unfold insert_file, batches_of. cbn [fst snd].
  unfold bind at 1. unfold lift at 1. cbv beta iota.
  rewrite (py_range_positive _ _ batch_size_positive).
  unfold bind, lift. cbv beta iota.
  destruct (accounted_for_each file
              (seq 0 (batch_count (len (snd file)) batch_size)) acc w)
    as (os & Hlen & Hacc).
  exists os. split; [now rewrite length_map | exact Hacc].
Qed.

Lemma accounted_files :
  forall files acc w,
  exists os,
    length os = length (all_batches batch_size files) /\
    accounted rt metadata name (combine (all_batches batch_size files) os) acc w
      (insert_files rt fault name metadata batch_size false
                    (readable files) acc w).
Proof.
  induction files as [| file files IH]; intros acc w.
  - exists []. split; [reflexivity | ]. unfold accounted. simpl.
    rewrite Z.add_0_r, app_nil_r. split; [now destruct acc | now rewrite app_nil_r].
  - destruct (accounted_file file acc w) as (os1 & Hlen1 & Hres1 & Htrace1).
    simpl. unfold bind.
    destruct (insert_file rt fault name metadata batch_size false
                          (fst file, Ok (snd file)) acc w) as [w1 r1].
    simpl in Hres1, Htrace1. subst r1.
    match goal with
    | |- context [insert_files _ _ _ _ _ _ _ ?acc1 w1] =>
        destruct (IH acc1 w1) as (os2 & Hlen2 & Hres2 & Htrace2)
    end.
    exists (os1 ++ os2). split.
    + rewrite !length_app. congruence.
    + unfold accounted. rewrite Hres2, Htrace2, Htrace1. cbn [fst snd].
      change (all_batches batch_size (file :: files))
        with (batches_of batch_size file ++ all_batches batch_size files).
      rewrite (combine_app _ _ _ _ Hlen1).
      rewrite map_app, Zsum_app, !flat_map_app, <- !app_assoc.
      split; [ | reflexivity]. do 2 f_equal. symmetry. apply Z.add_assoc.
Qed.

End BatchLoop.





(** the scenario of the specification, run through [insert_data]: three
    batches, the second refused; two rows are inserted, one failure is
    recorded for batch 1 of the file, and the target has received three
    insert calls *)
Example second_batch_refused :
  let run := insert_data (reference_runtime true) refuse_second_insert
                         demo_dataset None false true 1%Z true fresh_world in
  (exists report,
      snd run = Ok report /\
      total_inserted report = 2%Z /\
      failed_batches report
      = [ {| file := "part-0.parquet"; batch := 1%Z;
             error := "insert refused" |} ] /\
      collection_loaded report = true)
  /\ map (fun cr => match cr with
                    | (Insert _ data, r) => Some (length data, r)
                    | _ => None
                    end) (t_trace (target (fst run)))
     = [ None; None;
         Some (1%nat, None);
         Some (1%nat, Some (Raise MilvusException "insert refused"));
         Some (1%nat, None);
         None; None ].
Proof.
  vm_compute. split; [ | reflexivity].
  eexists. repeat split.
Qed.

(** the end-to-end example of the specification run with the default
    options: every row inserted, no failure, the collection loaded, one
    index with metric L2 *)
Example demo_report :
  snd (insert_data (reference_runtime true) healthy demo_dataset None
                   false true 10000%Z true fresh_world)
  = Ok {| report_collection_name := "t";
          total_inserted := 3%Z;
          failed_batches := [];
          indexes_created :=
            [ {| ii_field := "v"; ii_index_type := "AUTOINDEX";
                 ii_metric_type := "L2" |} ];
          collection_loaded := true |}.
Proof. vm_compute. reflexivity. Qed.

(** * Batches: how a file is cut *)

Lemma chunks_concat {A : Type} (b : nat) :
  (0 < b)%nat ->
  forall n (l : list A),
    (length l <= n * b)%nat ->
    concat (map (fun k => firstn b (skipn (k * b) l)) (seq 0 n)) = l.
Proof.
  intros Hb. induction n as [| n IH]; intros l Hlen.
  - simpl in *. destruct l; [reflexivity | simpl in Hlen; lia].
  - rewrite <- cons_seq, <- seq_shift. cbn [map concat]. rewrite map_map.
    rewrite Nat.mul_0_l. cbn [skipn].
    transitivity (firstn b l ++ skipn b l); [ | apply firstn_skipn].
    f_equal.
    rewrite <- (IH (skipn b l)) by (rewrite length_skipn; simpl in Hlen; lia).
    f_equal. apply map_ext. intros k.
    rewrite skipn_skipn. do 2 f_equal. lia.
Qed.

Lemma batch_count_covers (rows batch_size : Z) :
  (0 < batch_size)%Z -> (0 <= rows)%Z ->
  (rows <= Z.of_nat (batch_count rows batch_size) * batch_size)%Z.
Proof.
  intros Hb Hr. unfold batch_count.
  assert (Hq : (0 <= (rows + batch_size - 1) / batch_size)%Z)
    by (apply Z.div_pos; lia).
  rewrite Z2Nat.id by exact Hq.
  pose proof (Z.mul_succ_div_gt (rows + batch_size - 1) batch_size Hb). lia.
Qed.

Lemma batch_count_tight (rows batch_size : Z) (k : nat) :
  (0 < batch_size)%Z -> (0 <= rows)%Z ->
  (k < batch_count rows batch_size)%nat ->
  (Z.of_nat k * batch_size < rows)%Z.
Proof.
  intros Hb Hr Hk. unfold batch_count in Hk.
  assert (Hq : (0 <= (rows + batch_size - 1) / batch_size)%Z)
    by (apply Z.div_pos; lia).
  assert (Hk' : (Z.of_nat k + 1 <= (rows + batch_size - 1) / batch_size)%Z) by lia.
  pose proof (Z.mul_div_le (rows + batch_size - 1) batch_size Hb).
  nia.
Qed.

Lemma nth_batch_index (batch_size : Z) (file : string * DataFrame) (k : nat) :
  (0 < batch_size)%Z ->
  index (b_rows (nth_batch batch_size file k))
  = firstn (Z.to_nat batch_size)
           (skipn (k * Z.to_nat batch_size) (index (snd file))).
Proof.
  intros Hb. unfold nth_batch, iloc. simpl. f_equal.
  - f_equal. lia.
  - f_equal. rewrite Z2Nat.inj_mul by lia. now rewrite Nat2Z.id.
Qed.

Lemma batches_partition_rows_helper (batch_size : Z) (file : string * DataFrame) :
  (0 < batch_size)%Z ->
  concat (map (fun b => index (b_rows b)) (batches_of batch_size file))
  = index (snd file).
Proof.
  intros Hb. unfold batches_of. rewrite map_map.
  rewrite (map_ext _ (fun k => firstn (Z.to_nat batch_size)
                                      (skipn (k * Z.to_nat batch_size)
                                             (index (snd file)))))
    by (intros k; now apply nth_batch_index).
  apply chunks_concat; [lia | ].
  pose proof (batch_count_covers (len (snd file)) batch_size Hb) as Hc.
  unfold len in Hc. specialize (Hc (Nat2Z.is_nonneg _)).
  fold (len (snd file)) in Hc. unfold len in Hc at 1.
  apply Nat2Z.inj_le. rewrite Nat2Z.inj_mul, Z2Nat.id by lia. exact Hc.
Qed.

(** X1. The batches of a file partition its rows: the slices
    [df.iloc[i : i + batch_size]] taken at the starts of
    [range(0, len(df), batch_size)], put end to end in order, give back the
    rows of the file, none lost and none twice. *)
Theorem batches_partition_rows (batch_size : Z) (df : DataFrame) :
  (0 < batch_size)%Z ->
  exists starts,
    py_range (len df) batch_size = Ok starts /\
    concat (map (fun i => index (iloc df i (i + batch_size))) starts)
    = index df.
Proof.
  intros Hb. rewrite (py_range_positive _ _ Hb).
  eexists. split; [reflexivity | ]. rewrite map_map.
  pose proof (batches_partition_rows_helper batch_size ("", df) Hb) as H.
  unfold batches_of in H. rewrite map_map in H. exact H.
Qed.

Lemma batches_partition_rows_witness :
  exists starts,
    py_range (len demo_frame) 2 = Ok starts /\
    concat (map (fun i => index (iloc demo_frame i (i + 2))) starts)
    = index demo_frame.
Proof.
  apply (batches_partition_rows 2 demo_frame). lia.
Defined.

Lemma batches_of_bounded (batch_size : Z) (file : string * DataFrame) :
  (0 < batch_size)%Z ->
  Forall (fun b => (0 < len (b_rows b) <= batch_size)%Z /\ b_file b = fst file)
         (batches_of batch_size file).
Proof.
  intros Hb. unfold batches_of. apply Forall_forall. intros b Hin.
  apply in_map_iff in Hin. destruct Hin as (k & <- & Hk).
  apply in_seq in Hk. destruct Hk as [_ Hk]. simpl in Hk.
  split; [ | reflexivity].
  unfold len. rewrite (nth_batch_index _ _ _ Hb).
  rewrite length_firstn, length_skipn.
  pose proof (batch_count_tight (len (snd file)) batch_size k Hb
                                (Nat2Z.is_nonneg _) Hk) as Ht.
  unfold len in Ht.
  assert (Hk' : (k * Z.to_nat batch_size < length (index (snd file)))%nat).
  { apply Nat2Z.inj_lt. rewrite Nat2Z.inj_mul, Z2Nat.id by lia. exact Ht. }
  clear Ht Hk.
  generalize dependent (k * Z.to_nat batch_size)%nat. intros m Hm.
  generalize dependent (length (index (snd file))). intros n Hm.
  lia.
Qed.

(** X2. Every slice the batch loop takes holds at least one row and at
    most [batch_size] rows. *)
Theorem batches_are_bounded (batch_size : Z) (df : DataFrame) :
  (0 < batch_size)%Z ->
  exists starts,
    py_range (len df) batch_size = Ok starts /\
    Forall (fun i => (0 < len (iloc df i (i + batch_size)) <= batch_size)%Z)
           starts.
Proof.
  intros Hb. rewrite (py_range_positive _ _ Hb).
  eexists. split; [reflexivity | ].
  pose proof (batches_of_bounded batch_size ("", df) Hb) as H.
  unfold batches_of in H. rewrite Forall_forall in H.
  apply Forall_forall. intros i Hi. apply in_map_iff in Hi.
  destruct Hi as (k & <- & Hk).
  exact (proj1 (H (nth_batch batch_size ("", df) k) (in_map _ _ _ Hk))).
Qed.

Lemma batches_are_bounded_witness :
  exists starts,
    py_range (len demo_frame) 2 = Ok starts /\
    Forall (fun i => (0 < len (iloc demo_frame i (i + 2)) <= 2)%Z) starts.
Proof.
  apply (batches_are_bounded 2 demo_frame). lia.
Defined.

(** * Batch loop: totals *)

Lemma length_concat_Zsum {A : Type} (ls : list (list A)) :
  Z.of_nat (length (concat ls)) = Zsum (map (fun l => Z.of_nat (length l)) ls).
Proof.
  induction ls as [| l ls IH]; simpl; [reflexivity | ].
  rewrite length_app, Nat2Z.inj_add, IH. reflexivity.
Qed.

Lemma Zsum_batches_of (batch_size : Z) (file : string * DataFrame) :
  (0 < batch_size)%Z ->
  Zsum (map (fun b => len (b_rows b)) (batches_of batch_size file))
  = len (snd file).
Proof.
  intros Hb. unfold len at 2.
  rewrite <- (batches_partition_rows_helper batch_size file Hb).
  rewrite length_concat_Zsum, map_map. reflexivity.
Qed.

Lemma Zsum_all_batches (batch_size : Z) (files : list (string * DataFrame)) :
  (0 < batch_size)%Z ->
  Zsum (map (fun b => len (b_rows b)) (all_batches batch_size files))
  = total_rows files.
Proof.
  intros Hb. unfold all_batches, total_rows.
  induction files as [| file files IH]; simpl; [reflexivity | ].
  rewrite map_app, Zsum_app, IH, (Zsum_batches_of _ _ Hb). reflexivity.
Qed.

(** the loop returns in both display modes, with the accounts of C1 *)
Lemma loop_accounted
      (rt : Runtime) (fault : Target -> call -> option exn)
      (name : string) (metadata : Metadata) (batch_size : Z)
      (show_progress : bool) (files : list (string * DataFrame)) (w : World) :
  (0 < batch_size)%Z ->
  exists answers : list (option exn),
    length answers = length (all_batches batch_size files) /\
    accounted rt metadata name
              (combine (all_batches batch_size files) answers) (0%Z, []) w
              (insert_files rt fault name metadata batch_size show_progress
                            (readable files) (0%Z, []) w).
Proof.
  intros Hpos.
  destruct (accounted_files rt fault name metadata batch_size Hpos files
                            (0%Z, []) w)
    as (answers & Hlen & Hres & Htrace).
  exists answers. split; [exact Hlen | ].
  destruct show_progress; [ | now split].
  destruct (agree_insert_files rt fault name metadata batch_size
              (readable files) (0%Z, []) w w eq_refl) as [Ht Hr].
  unfold accounted. rewrite Hr, Ht. now split.
Qed.

Lemma attempt_facts (rt : Runtime) (metadata : Metadata) (a : attempt) :
  (0 <= attempt_inserted rt metadata a <= len (b_rows (fst a)))%Z
  /\ (length (attempt_failures rt metadata a) <= 1)%nat
  /\ (attempt_failures rt metadata a = [] ->
      attempt_inserted rt metadata a = len (b_rows (fst a))).
Proof.
  assert (Hlen : (0 <= len (b_rows (fst a)))%Z) by (unfold len; lia).
  unfold attempt_inserted, attempt_failures.
  destruct (_convert_dataframe_to_dict_list rt (b_rows (fst a)) metadata)
    as [data | e]; [destruct (snd a) as [e | ] | ]; simpl;
    repeat split; try lia; auto; intros H; discriminate H.
Qed.

Lemma attempts_bounds (rt : Runtime) (metadata : Metadata) :
  forall (bl : list Batch) (answers : list (option exn)),
    length answers = length bl ->
    let atts := combine bl answers in
    (0 <= Zsum (map (attempt_inserted rt metadata) atts)
     <= Zsum (map (fun b => len (b_rows b)) bl))%Z
    /\ (length (flat_map (attempt_failures rt metadata) atts) <= length bl)%nat
    /\ (flat_map (attempt_failures rt metadata) atts = [] ->
        Zsum (map (attempt_inserted rt metadata) atts)
        = Zsum (map (fun b => len (b_rows b)) bl)).
Proof.
  induction bl as [| b bl IH]; intros [| o answers] Hlen;
    simpl in Hlen; try discriminate.
  - simpl. repeat split; auto; lia.
  - injection Hlen as Hlen. specialize (IH answers Hlen).
    cbv zeta in IH. destruct IH as (Hsum & Hfail & Hnone).
    destruct (attempt_facts rt metadata (b, o)) as (Hi & Hf & Hn).
    cbn [fst] in Hi, Hn.
    cbv zeta. cbn [combine map flat_map].
    change (Zsum (attempt_inserted rt metadata (b, o)
                    :: map (attempt_inserted rt metadata) (combine bl answers)))
      with (attempt_inserted rt metadata (b, o)
            + Zsum (map (attempt_inserted rt metadata) (combine bl answers)))%Z.
    change (Zsum (len (b_rows b) :: map (fun b0 => len (b_rows b0)) bl))
      with (len (b_rows b) + Zsum (map (fun b0 => len (b_rows b0)) bl))%Z.
    rewrite length_app. cbn [length].
    repeat split; try lia.
    intros H. apply app_eq_nil in H. destruct H as [H1 H2].
    rewrite (Hn H1), (Hnone H2). reflexivity.
Qed.

(** X3. Whatever the target answers, the batch loop returns with
    [0 <= total_inserted <= rows of all files] and at most one failure per
    batch; and when it records no failure, every row of every file was
    inserted. *)
Theorem total_inserted_is_bounded
        (rt : Runtime) (fault : Target -> call -> option exn)
        (name : string) (metadata : Metadata) (batch_size : Z)
        (show_progress : bool) (files : list (string * DataFrame)) (w : World) :
  (0 < batch_size)%Z ->
  exists total failed,
    snd (insert_files rt fault name metadata batch_size show_progress
                      (readable files) (0%Z, []) w) = Ok (total, failed)
    /\ (0 <= total <= total_rows files)%Z
    /\ (length failed <= length (all_batches batch_size files))%nat
    /\ (failed = [] -> total = total_rows files).
Proof.
  intros Hpos.
  destruct (loop_accounted rt fault name metadata batch_size show_progress
                           files w Hpos) as (answers & Hlen & Hres & _).
  destruct (attempts_bounds rt metadata (all_batches batch_size files)
                            answers Hlen) as (Hsum & Hfail & Hnone).
  rewrite (Zsum_all_batches _ _ Hpos) in Hsum, Hnone.
  do 2 eexists. split; [exact Hres | ]. cbn [fst snd]. rewrite Z.add_0_l.
  cbn [app]. auto.
Qed.

Lemma total_inserted_is_bounded_witness :
  exists total failed,
    snd (insert_files (reference_runtime true) refuse_second_insert "t"
                      demo_metadata 1 true
                      (readable [("part-0.parquet", demo_frame)])
                      (0%Z, []) fresh_world) = Ok (total, failed)
    /\ (0 <= total <= total_rows [("part-0.parquet", demo_frame)])%Z
    /\ (length failed
        <= length (all_batches 1 [("part-0.parquet", demo_frame)]))%nat
    /\ (failed = [] -> total = total_rows [("part-0.parquet", demo_frame)]).
Proof.
  apply (total_inserted_is_bounded
           (reference_runtime true) refuse_second_insert "t" demo_metadata 1
           true [("part-0.parquet", demo_frame)] fresh_world).
  lia.
Defined.

Section ServedLoop.
Variable rt : Runtime.
Variable fault : Target -> call -> option exn.
Variable name : string.
Variable metadata : Metadata.
Variable batch_size : Z.
Hypothesis batch_size_positive : (0 < batch_size)%Z.
Hypothesis inserts_served : forall t data, fault t (Insert name data) = None.

Lemma served_batch (file : string * DataFrame) (k : nat) acc w :
  (exists data,
      _convert_dataframe_to_dict_list
        rt (b_rows (nth_batch batch_size file k)) metadata = Ok data) ->
  snd (insert_batch_plain rt fault name (fst file) (snd file) metadata
                          batch_size acc (Z.of_nat k * batch_size)%Z w)
  = Ok ((fst acc + len (b_rows (nth_batch batch_size file k)))%Z, snd acc).
Proof.
  intros [data Hdata]. unfold nth_batch in Hdata. cbn [b_rows snd] in Hdata.
  unfold insert_batch_plain, try_except, bind, lift. rewrite Hdata.
  unfold client_call. rewrite inserts_served. reflexivity.
Qed.

Lemma served_for_each (file : string * DataFrame) :
  forall ks acc w,
    (forall k, In k ks ->
       exists data,
         _convert_dataframe_to_dict_list
           rt (b_rows (nth_batch batch_size file k)) metadata = Ok data) ->
    snd (for_each (insert_batch_plain rt fault name (fst file) (snd file)
                                      metadata batch_size)
                  (map (fun k => (Z.of_nat k * batch_size)%Z) ks) acc w)
    = Ok ((fst acc
           + Zsum (map (fun b => len (b_rows b))
                       (map (nth_batch batch_size file) ks)))%Z,
          snd acc).
Proof.
  induction ks as [| k ks IH]; intros acc w Hall.
  - simpl. rewrite Z.add_0_r. now destruct acc.
  - cbn [map for_each]. unfold bind.
    pose proof (served_batch file k acc w (Hall k (or_introl eq_refl))) as Hk.
    destruct (insert_batch_plain rt fault name (fst file) (snd file) metadata
                batch_size acc (Z.of_nat k * batch_size)%Z w) as [w1 r1].
    cbn [snd] in Hk. subst r1.
    rewrite IH by (intros k' Hk'; apply Hall; now right).
    cbn [fst snd Zsum fold_right]. do 2 f_equal. apply eq_sym, Z.add_assoc.
Qed.

Lemma served_file (file : string * DataFrame) acc w :
  (forall b, In b (batches_of batch_size file) ->
     exists data, _convert_dataframe_to_dict_list rt (b_rows b) metadata = Ok data) ->
  snd (insert_file rt fault name metadata batch_size false
                   (fst file, Ok (snd file)) acc w)
  = Ok ((fst acc
         + Zsum (map (fun b => len (b_rows b)) (batches_of batch_size file)))%Z,
        snd acc).
Proof.
  intros Hall. unfold insert_file, batches_of. cbn [fst snd].
  unfold bind at 1. unfold lift at 1. cbv beta iota.
  rewrite (py_range_positive _ _ batch_size_positive).
  unfold bind, lift. cbv beta iota.
  apply served_for_each. intros k Hk. apply Hall.
  unfold batches_of. now apply in_map.
Qed.

Lemma served_files :
  forall files acc w,
    (forall b, In b (all_batches batch_size files) ->
       exists data, _convert_dataframe_to_dict_list rt (b_rows b) metadata = Ok data) ->
    snd (insert_files rt fault name metadata batch_size false
                      (readable files) acc w)
    = Ok ((fst acc
           + Zsum (map (fun b => len (b_rows b))
                       (all_batches batch_size files)))%Z,
          snd acc).
Proof.
  induction files as [| file files IH]; intros acc w Hall.
  - simpl. rewrite Z.add_0_r. now destruct acc.
  - change (all_batches batch_size (file :: files))
      with (batches_of batch_size file ++ all_batches batch_size files) in *.
    cbn [readable map insert_files]. unfold bind.
    pose proof (served_file file acc w
                  (fun b Hb => Hall b (in_or_app _ _ b (or_introl Hb)))) as Hf.
    destruct (insert_file rt fault name metadata batch_size false
                          (fst file, Ok (snd file)) acc w) as [w1 r1].
    cbn [snd] in Hf. subst r1.
    fold (readable files).
    rewrite IH by (intros b Hb; apply Hall; apply in_or_app; now right).
    cbn [fst snd]. rewrite map_app, Zsum_app.
    do 2 f_equal. apply eq_sym, Z.add_assoc.
Qed.

End ServedLoop.

(** X4. On a target that serves every insert into the collection, with
    rows that all project, the loop inserts every row of every file and
    records no failure. *)
Theorem served_run_inserts_every_row
        (rt : Runtime) (fault : Target -> call -> option exn)
        (name : string) (metadata : Metadata) (batch_size : Z)
        (show_progress : bool) (files : list (string * DataFrame)) (w : World) :
  (0 < batch_size)%Z ->
  (forall t data, fault t (Insert name data) = None) ->
  (forall b, In b (all_batches batch_size files) ->
     exists data, _convert_dataframe_to_dict_list rt (b_rows b) metadata = Ok data) ->
  snd (insert_files rt fault name metadata batch_size show_progress
                    (readable files) (0%Z, []) w)
  = Ok (total_rows files, []).
Proof.
  intros Hpos Hserved Hproj.
  pose proof (served_files rt fault name metadata batch_size Hpos Hserved
                           files (0%Z, []) w Hproj) as Hplain.
  rewrite (Zsum_all_batches _ _ Hpos) in Hplain. cbn [fst snd] in Hplain.
  rewrite Z.add_0_l in Hplain.
  destruct show_progress; [ | exact Hplain].
  destruct (agree_insert_files rt fault name metadata batch_size
              (readable files) (0%Z, []) w w eq_refl) as [_ Hr].
  now rewrite Hr.
Qed.

Lemma served_run_inserts_every_row_witness :
  snd (insert_files (reference_runtime true) healthy "t" demo_metadata 2 true
                    (readable [("part-0.parquet", demo_frame)])
                    (0%Z, []) fresh_world)
  = Ok (total_rows [("part-0.parquet", demo_frame)], []).
Proof.
  apply (served_run_inserts_every_row
           (reference_runtime true) healthy "t" demo_metadata 2 true
           [("part-0.parquet", demo_frame)] fresh_world).
  - lia.
  - reflexivity.
  - intros b Hb. vm_compute in Hb.
    destruct Hb as [<- | [<- | []]]; eexists; vm_compute; reflexivity.
Defined.

(** * Schema translator: properties *)

Lemma datatype_in_vocabulary (s : string) (d : DataType) :
  _get_milvus_datatype s = Ok d -> In s vocabulary.
Proof.
  intros H. destruct (in_dec string_dec s vocabulary) as [Hin | Hout];
    [exact Hin | ].
  unfold _get_milvus_datatype in H.
  rewrite (dict_get_outside_vocabulary s Hout) in H. discriminate H.
Qed.

Lemma datatype_of_vocabulary (s : string) :
  In s vocabulary -> exists d, _get_milvus_datatype s = Ok d.
Proof.
  intros Hin. simpl in Hin.
  repeat (destruct Hin as [<- | Hin]; [eexists; reflexivity | ]).
  contradiction.
Qed.

Lemma datatype_error (s : string) (e : exn) :
  _get_milvus_datatype s = Err e ->
  e = Raise ValueError ("Unknown field type: " ++ s).
Proof.
  unfold _get_milvus_datatype.
  destruct (dict_get String.eqb s type_mapping); intros H;
    [discriminate H | now injection H].
Qed.

Lemma array_element_type_ok (f : FieldInfo) :
  (exists t, array_element_type f = Ok t) <->
  match fi_element_type f with
  | Some e => e = "" \/ In e vocabulary
  | None => True
  end.
Proof.
  unfold array_element_type. destruct (fi_element_type f) as [e | ].
  - destruct (String.eqb_spec e "") as [-> | Hne].
    + split; [now left | intros _; now eexists].
    + split.
      * intros [t Ht].
        destruct (_get_milvus_datatype e) as [d | x] eqn:Hd;
          [ | discriminate Ht].
        right. exact (datatype_in_vocabulary e d Hd).
      * intros [-> | Hin]; [contradiction | ].
        destruct (datatype_of_vocabulary e Hin) as [d ->]. simpl. now eexists.
  - split; [auto | intros _; now eexists].
Qed.

Lemma field_schema_ok (f : FieldInfo) :
  (exists fsch, field_schema f = Ok fsch) <-> translatable f.
Proof.
  unfold translatable, field_schema. split.
  - intros [fsch H].
    destruct (_get_milvus_datatype (fi_type f)) as [d | e] eqn:Hd;
      [ | discriminate H].
    split; [exact (datatype_in_vocabulary _ _ Hd) | ].
    intros Harr. rewrite Harr in H. simpl in H.
    apply array_element_type_ok.
    destruct (array_element_type f) as [t | e]; [now eexists | discriminate H].
  - intros [Hin Harr].
    destruct (datatype_of_vocabulary _ Hin) as [d Hd]. rewrite Hd. simpl.
    destruct ((fi_type f =? "VarChar") || (fi_type f =? "String"));
      [now eexists | ].
    destruct (contains "Vector" (fi_type f)).
    { destruct (fi_type f =? "SparseFloatVector"); now eexists. }
    destruct (String.eqb_spec (fi_type f) "Array") as [Ha | _];
      [ | now eexists].
    destruct (proj2 (array_element_type_ok f) (Harr Ha)) as [t ->].
    simpl. now eexists.
Qed.

Lemma field_schema_error (f : FieldInfo) (e : exn) :
  field_schema f = Err e -> exn_type e = ValueError.
Proof.
  unfold field_schema.
  destruct (_get_milvus_datatype (fi_type f)) as [d | x] eqn:Hd; simpl.
  - destruct ((fi_type f =? "VarChar") || (fi_type f =? "String"));
      [intros H; discriminate H | ].
    destruct (contains "Vector" (fi_type f)).
    { destruct (fi_type f =? "SparseFloatVector"); intros H; discriminate H. }
    destruct (fi_type f =? "Array"); [ | intros H; discriminate H].
    unfold array_element_type.
    destruct (fi_element_type f) as [el | ]; [ | intros H; discriminate H].
    destruct (el =? ""); [intros H; discriminate H | ].
    destruct (_get_milvus_datatype el) as [t | x] eqn:Hel; simpl;
      intros H; [discriminate H | ].
    injection H as <-. now rewrite (datatype_error _ _ Hel).
  - intros H. injection H as <-. now rewrite (datatype_error _ _ Hd).
Qed.

Lemma add_fields_shape (rt : Runtime) :
  forall fs s sch,
    add_fields rt fs s = Ok sch ->
    enable_dynamic_field sch = enable_dynamic_field s /\
    exists added,
      schema_fields sch = schema_fields s ++ added /\
      Forall2 (fun f fsch => field_schema f = Ok fsch) fs added.
Proof.
  induction fs as [| f fs IH]; intros s sch H; simpl in H.
  - injection H as <-. split; [reflexivity | ].
    exists []. split; [now rewrite app_nil_r | constructor].
  - destruct (field_schema f) as [fsch | e] eqn:Hf; simpl in H;
      [ | discriminate H].
    unfold add_field in H.
    destruct (add_field_error rt s fsch); simpl in H; [discriminate H | ].
    destruct (IH _ _ H) as (Hdyn & added & Hfields & Hall).
    split; [exact Hdyn | ].
    exists (fsch :: added). split.
    + rewrite Hfields. simpl. now rewrite <- app_assoc.
    + now constructor.
Qed.

Lemma add_fields_translatable (rt : Runtime) :
  forall fs s sch, add_fields rt fs s = Ok sch -> Forall translatable fs.
Proof.
  intros fs s sch H.
  destruct (add_fields_shape rt fs s sch H) as (_ & added & _ & Hall).
  clear H. induction Hall as [| f fsch fs added Hf _ IH]; constructor;
    [ | exact IH].
  apply field_schema_ok. now exists fsch.
Qed.

Lemma add_fields_accepted (rt : Runtime) :
  forall fs s,
    (forall s' f fsch,
        In f fs -> field_schema f = Ok fsch ->
        add_field_error rt s' fsch = None) ->
    Forall translatable fs -> exists sch, add_fields rt fs s = Ok sch.
Proof.
  induction fs as [| f fs IH]; intros s Haccept Hall; simpl.
  - now eexists.
  - inversion Hall as [| x l Hf Hrest]; subst.
    destruct (proj2 (field_schema_ok f) Hf) as [fsch Hfsch].
    rewrite Hfsch. simpl.
    unfold add_field. rewrite (Haccept s f fsch (or_introl eq_refl) Hfsch).
    simpl. apply IH; [ | exact Hrest].
    intros s' g gsch Hg. apply Haccept. now right.
Qed.

Lemma add_fields_error (rt : Runtime) :
  forall fs s e,
    add_fields rt fs s = Err e ->
    exn_type e = ValueError \/ exists s' f, add_field_error rt s' f = Some e.
Proof.
  induction fs as [| f fs IH]; intros s e H; simpl in H; [discriminate H | ].
  destruct (field_schema f) as [fsch | x] eqn:Hf; simpl in H.
  - unfold add_field in H.
    destruct (add_field_error rt s fsch) as [x | ] eqn:Hadd; simpl in H.
    + injection H as <-. right. now exists s, fsch.
    + exact (IH _ _ H).
  - injection H as <-. left. exact (field_schema_error f x Hf).
Qed.

(** X5. [_create_schema] fails closed: it succeeds only when the registry
    knows the type of every declared field (and the element type of every
    Array field that names one), and it does succeed then if the client
    library accepts the [add_field] of every declared field; an error it
    raises is the [ValueError] of the registry or the error with which the
    library refused an [add_field]. *)
Theorem create_schema_fails_closed
        (rt : Runtime) (metadata : Metadata) (declared : list FieldInfo) :
  metadata_fields metadata = Ok declared ->
  ((exists sch, _create_schema rt metadata = Ok sch) ->
   Forall translatable declared)
  /\ (Forall translatable declared ->
      (forall s f fsch,
          In f declared -> field_schema f = Ok fsch ->
          add_field_error rt s fsch = None) ->
      exists sch, _create_schema rt metadata = Ok sch)
  /\ (forall e,
         _create_schema rt metadata = Err e ->
         exn_type e = ValueError \/
         exists s f, add_field_error rt s f = Some e).
Proof.
  intros Hdeclared. unfold _create_schema. rewrite Hdeclared. simpl.
  split; [ | split].
  - intros [sch H]. exact (add_fields_translatable rt _ _ _ H).
  - intros Hall Haccept. now apply add_fields_accepted.
  - intros e. apply add_fields_error.
Qed.

Lemma create_schema_fails_closed_witness :
  exists sch, _create_schema (reference_runtime true) demo_metadata = Ok sch.
Proof.
  apply (proj1 (proj2 (create_schema_fails_closed
                         (reference_runtime true) demo_metadata demo_fields
                         eq_refl))).
  - repeat constructor; simpl; try tauto; intros H; discriminate H.
  - intros s f fsch Hin Hf. simpl in Hin.
    destruct Hin as [<- | [<- | [<- | [<- | []]]]];
      vm_compute in Hf; injection Hf as <-; reflexivity.
Defined.

(** the library's refusal comes through: [auto_id] on a field that is not
    the primary key *)
Example add_field_refusal_is_raised :
  _create_schema
    (reference_runtime true)
    {| schema :=
         Some {| collection_name := Some "t";
                 fields :=
                   Some [ {| fi_name := "id"; fi_type := "Int64";
                             fi_dim := None; fi_max_length := None;
                             fi_max_capacity := None;
                             fi_element_type := None;
                             fi_is_primary := None;
                             fi_auto_id := Some true |} ] |} |}
  = Err (Raise MilvusException
               "The auto_id can only be specified on the primary key field").
Proof. reflexivity. Qed.

(** X6. The schema [_create_schema] builds always enables dynamic fields
    and has one field per declared field, in declared order, with the
    declared name, the native type of the registry and the declared
    primary and auto-id flags (false when absent). *)
Theorem create_schema_follows_declaration
        (rt : Runtime) (metadata : Metadata) (declared : list FieldInfo)
        (sch : CollectionSchema) :
  metadata_fields metadata = Ok declared ->
  _create_schema rt metadata = Ok sch ->
  enable_dynamic_field sch = true /\
  Forall2 (fun f fsch =>
             field_name fsch = fi_name f /\
             _get_milvus_datatype (fi_type f) = Ok (datatype fsch) /\
             kw_is_primary fsch = get (fi_is_primary f) false /\
             kw_auto_id fsch = get (fi_auto_id f) false)
          declared (schema_fields sch).
Proof.
  intros Hdeclared H. unfold _create_schema in H. rewrite Hdeclared in H.
  simpl in H.
  destruct (add_fields_shape rt _ _ _ H) as (Hdyn & added & Hf & Hall).
  simpl in Hdyn, Hf. subst added. split; [exact Hdyn | ].
  eapply Forall2_impl; [ | exact Hall].
  intros f fsch Hfs. unfold field_schema in Hfs.
  destruct (_get_milvus_datatype (fi_type f)) as [d | e];
    [ | discriminate Hfs].
  simpl in Hfs.
  destruct ((fi_type f =? "VarChar") || (fi_type f =? "String")).
  { injection Hfs as <-. simpl. auto. }
  destruct (contains "Vector" (fi_type f)).
  { destruct (fi_type f =? "SparseFloatVector"); injection Hfs as <-;
      simpl; auto. }
  destruct (fi_type f =? "Array").
  - destruct (array_element_type f); [ | discriminate Hfs].
    simpl in Hfs. injection Hfs as <-. simpl. auto.
  - injection Hfs as <-. simpl. auto.
Qed.

Lemma create_schema_follows_declaration_witness :
  exists sch,
    _create_schema (reference_runtime true) demo_metadata = Ok sch /\
    enable_dynamic_field sch = true /\
    Forall2 (fun f fsch =>
               field_name fsch = fi_name f /\
               _get_milvus_datatype (fi_type f) = Ok (datatype fsch) /\
               kw_is_primary fsch = get (fi_is_primary f) false /\
               kw_auto_id fsch = get (fi_auto_id f) false)
            demo_fields (schema_fields sch).
Proof.
  eexists. split; [reflexivity | ].
  apply (create_schema_follows_declaration (reference_runtime true)
                                           demo_metadata demo_fields);
    reflexivity.
Defined.

Lemma field_schema_keywords (f : FieldInfo) (fsch : FieldSchema) :
  field_schema f = Ok fsch ->
  (kw_max_length fsch <> None <-> datatype fsch = VARCHAR) /\
  (kw_dim fsch <> None <-> is_dense_vector (datatype fsch) = true) /\
  (kw_max_capacity fsch <> None <-> datatype fsch = ARRAY) /\
  (kw_element_type fsch <> None <-> datatype fsch = ARRAY).
Proof.
  intros H.
  assert (Hin : In (fi_type f) vocabulary).
  { apply field_schema_ok. now exists fsch. }
  unfold field_schema in H. simpl in Hin.
  repeat (destruct Hin as [Hty | Hin];
          [ rewrite <- Hty in H; cbn in H;
            try (destruct (array_element_type f); cbn in H;
                 [ | discriminate H]);
            injection H as <-; cbn;
            repeat split; intros; congruence
          | ]).
  contradiction.
Qed.

(** X7. In the schema [_create_schema] builds, the type-specific
    parameters go with the native type: [max_length] is passed exactly for
    VARCHAR fields, [dim] exactly for dense vector fields (never for
    sparse vectors), [max_capacity] and [element_type] exactly for ARRAY
    fields. *)
Theorem create_schema_parameters_by_type
        (rt : Runtime) (metadata : Metadata) (sch : CollectionSchema) :
  _create_schema rt metadata = Ok sch ->
  Forall (fun fsch =>
            (kw_max_length fsch <> None <-> datatype fsch = VARCHAR) /\
            (kw_dim fsch <> None <-> is_dense_vector (datatype fsch) = true) /\
            (kw_max_capacity fsch <> None <-> datatype fsch = ARRAY) /\
            (kw_element_type fsch <> None <-> datatype fsch = ARRAY))
         (schema_fields sch).
Proof.
  intros H. unfold _create_schema in H.
  destruct (metadata_fields metadata) as [fs | e]; [ | discriminate H].
  simpl in H.
  destruct (add_fields_shape rt _ _ _ H) as (_ & added & Hf & Hall).
  simpl in Hf. rewrite Hf. clear Hf H.
  induction Hall as [| f fsch fs added Hfs _ IH]; constructor;
    [exact (field_schema_keywords f fsch Hfs) | exact IH].
Qed.

Lemma create_schema_parameters_by_type_witness :
  exists sch,
    _create_schema (reference_runtime true) demo_metadata = Ok sch /\
    Forall (fun fsch =>
              (kw_max_length fsch <> None <-> datatype fsch = VARCHAR) /\
              (kw_dim fsch <> None <-> is_dense_vector (datatype fsch) = true) /\
              (kw_max_capacity fsch <> None <-> datatype fsch = ARRAY) /\
              (kw_element_type fsch <> None <-> datatype fsch = ARRAY))
           (schema_fields sch).
Proof.
  eexists. split; [reflexivity | ].
  apply (create_schema_parameters_by_type (reference_runtime true)
                                          demo_metadata).
  reflexivity.
Defined.

(** * Pre-flight: further properties *)

(** X8. When the data path does not exist, when it has no [meta.json],
    when [meta.json] cannot be loaded, or when neither the caller nor the
    metadata names the collection, [insert_data] raises the corresponding
    error and leaves the world exactly as it was: the client is not
    called. *)
Theorem preflight_failure_touches_nothing
        (rt : Runtime) (fault : Target -> call -> option exn)
        (data_path : Dataset) (collection_name : option string)
        (drop_if_exists create_index : bool) (batch_size : Z)
        (show_progress : bool) (w : World) :
  let run := insert_data rt fault data_path collection_name drop_if_exists
                         create_index batch_size show_progress w in
  (path_exists data_path = false ->
   run = (w, Err (Raise FileNotFoundError
                        ("Data path not found: " ++ path data_path))))
  /\ (path_exists data_path = true -> meta_json data_path = None ->
      run = (w, Err (Raise FileNotFoundError
                           ("meta.json not found in " ++ path data_path))))
  /\ (forall e,
         path_exists data_path = true -> meta_json data_path = Some (Err e) ->
         run = (w, Err e))
  /\ (forall metadata e,
         path_exists data_path = true ->
         meta_json data_path = Some (Ok metadata) ->
         resolve_collection_name collection_name metadata = Err e ->
         run = (w, Err e)).
Proof.
  cbv zeta. unfold insert_data. repeat split.
  - intros ->. reflexivity.
  - intros -> ->. reflexivity.
  - intros e -> ->. reflexivity.
  - intros metadata e -> -> Hname. simpl. unfold bind, lift. now rewrite Hname.
Qed.

Lemma preflight_failure_touches_nothing_witness :
  insert_data (reference_runtime true) healthy
              {| path := "/data/none"; path_exists := true;
                 meta_json := None; parquet_files := [] |}
              None true true 10000%Z true world_with_t
  = (world_with_t,
     Err (Raise FileNotFoundError "meta.json not found in /data/none")).
Proof.
  exact (proj1 (proj2 (preflight_failure_touches_nothing
                         (reference_runtime true) healthy
                         {| path := "/data/none"; path_exists := true;
                            meta_json := None; parquet_files := [] |}
                         None true true 10000%Z true world_with_t))
               eq_refl eq_refl).
Defined.

Lemma extends_by_refl (P : call -> Prop) (w : World) : extends_by P w w.
Proof. exists []. split; [now rewrite app_nil_r | constructor]. Qed.

Lemma extends_by_trans (P : call -> Prop) (w1 w2 w3 : World) :
  extends_by P w1 w2 -> extends_by P w2 w3 -> extends_by P w1 w3.
Proof.
  intros (l1 & Ht1 & Hl1) (l2 & Ht2 & Hl2). exists (l1 ++ l2). split.
  - rewrite Ht2, Ht1. now rewrite app_assoc.
  - apply Forall_app. now split.
Qed.

Lemma extends_by_emit (P : call -> Prop) (ev : progress_event) :
  respects (extends_by P) (emit ev).
Proof.
  intros w. exists []. simpl. split; [now rewrite app_nil_r | constructor].
Qed.

Lemma extends_by_call (P : call -> Prop)
      (fault : Target -> call -> option exn) (c : call) :
  P c -> respects (extends_by P) (client_call fault c).
Proof.
  intros Hc w. unfold client_call.
  destruct (fault (target w) c) as [e | ]; simpl.
  - exists [(c, Some e)]. split; [reflexivity | ].
    constructor; [exact Hc | constructor].
  - exists [(c, None)]. split; [reflexivity | ].
    constructor; [exact Hc | constructor].
Qed.

Lemma bind_assoc {A B C : Type} (m : M A) (f : A -> M B) (g : B -> M C)
      (w : World) :
  bind m (fun a => bind (f a) g) w = bind (bind m f) g w.
Proof. unfold bind. destruct (m w) as [w1 [a | e]]; reflexivity. Qed.

Lemma bind_then_raise {A B C : Type} (m : M A) (e : exn) (k : B -> M C)
      (w : World) :
  bind m (fun _ => bind (lift (Err e)) k) w
  = (fst (m w), Err (match snd (m w) with
                     | Ok _ => e
                     | Err e' => e'
                     end)).
Proof. unfold bind, lift. destruct (m w) as [w1 [a | e']]; reflexivity. Qed.

(** the existence check and the conflict policy, up to the building of
    the schema *)
Lemma insert_data_schema_failure
      (rt : Runtime) (fault : Target -> call -> option exn)
      (data_path : Dataset) (collection_name : option string)
      (drop_if_exists create_index : bool) (batch_size : Z)
      (show_progress : bool) (w : World) (metadata : Metadata)
      (name : string) (e : exn) :
  path_exists data_path = true ->
  meta_json data_path = Some (Ok metadata) ->
  resolve_collection_name collection_name metadata = Ok name ->
  _create_schema rt metadata = Err e ->
  let checks :=
    bind (has_collection fault name)
         (fun present : bool =>
            if present then
              if drop_if_exists
              then client_call fault (DropCollection name)
              else raise (conflict_error name)
            else ret tt) in
  insert_data rt fault data_path collection_name drop_if_exists create_index
              batch_size show_progress w
  = (fst (checks w), Err (match snd (checks w) with
                          | Ok _ => e
                          | Err e' => e'
                          end)).
Proof.
  intros Hpath Hmeta Hname Hsch. cbv zeta.
  unfold insert_data. rewrite Hpath, Hmeta. simpl.
  unfold bind at 1. unfold lift at 1. cbv beta iota.
  unfold bind at 1. unfold lift at 1. rewrite Hname. cbv beta iota.
  rewrite Hsch.
  rewrite (bind_assoc (has_collection fault name)).
  apply bind_then_raise.
Qed.

(** X9. When the schema cannot be built from the metadata (a field type
    the registry does not know), [insert_data] raises without ever asking
    the target to create the collection or to insert: the target has
    received at most the existence check and, under [drop_if_exists], the
    drop of the collection that was there. *)
Theorem schema_failure_never_creates
        (rt : Runtime) (fault : Target -> call -> option exn)
        (data_path : Dataset) (collection_name : option string)
        (drop_if_exists create_index : bool) (batch_size : Z)
        (show_progress : bool) (w : World) (metadata : Metadata) (e : exn) :
  meta_json data_path = Some (Ok metadata) ->
  _create_schema rt metadata = Err e ->
  let run := insert_data rt fault data_path collection_name drop_if_exists
                         create_index batch_size show_progress w in
  (exists e', snd run = Err e') /\ extends_by asks_or_drops w (fst run).
Proof.
  intros Hmeta Hsch. cbv zeta.
  destruct (path_exists data_path) eqn:Hpath.
  2:{ unfold insert_data. rewrite Hpath. simpl.
      split; [now eexists | apply extends_by_refl]. }
  destruct (resolve_collection_name collection_name metadata)
    as [name | e0] eqn:Hname.
  2:{ unfold insert_data. rewrite Hpath, Hmeta. simpl. unfold bind, lift.
      rewrite Hname. split; [now eexists | apply extends_by_refl]. }
  rewrite (insert_data_schema_failure rt fault data_path collection_name
             drop_if_exists create_index batch_size show_progress w
             metadata name e Hpath Hmeta Hname Hsch).
  cbn [fst snd]. split; [now eexists | ].
  apply (respects_bind (extends_by asks_or_drops) (extends_by_trans _)).
  - intros w0. unfold has_collection.
    apply (respects_bind (extends_by asks_or_drops) (extends_by_trans _)
                         (client_call fault (HasCollection name))
                         (fun _ => ret _)).
    + apply extends_by_call. exact I.
    + intros _ w1. apply extends_by_refl.
  - intros present. destruct present; [ | intros w1; apply extends_by_refl].
    destruct drop_if_exists.
    + apply extends_by_call. exact I.
    + intros w1. apply extends_by_refl.
Qed.

Lemma schema_failure_never_creates_witness :
  let run := insert_data (reference_runtime true) healthy
                         untranslatable_dataset None true true 10000%Z false
                         world_with_t in
  (exists e', snd run = Err e') /\ extends_by asks_or_drops world_with_t (fst run).
Proof.
  apply (schema_failure_never_creates
           (reference_runtime true) healthy untranslatable_dataset None true
           true 10000%Z false world_with_t untranslatable_metadata
           (Raise ValueError "Unknown field type: Text"));
    reflexivity.
Defined.

(** on that dataset the collection that was there is dropped and nothing
    replaces it *)
Example unknown_type_after_drop :
  let run := insert_data (reference_runtime true) healthy
                         untranslatable_dataset None true true 10000%Z false
                         world_with_t in
  snd run = Err (Raise ValueError "Unknown field type: Text")
  /\ t_trace (target (fst run))
     = [(HasCollection "t", None); (DropCollection "t", None)]
  /\ t_collections (target (fst run)) = [].
Proof. vm_compute. repeat split. Qed.

(** * The pipeline: which collection it touches *)

Section Addressed.
Variable R : World -> World -> Prop.
Hypothesis R_refl : forall w, R w w.
Hypothesis R_trans : forall w1 w2 w3, R w1 w2 -> R w2 w3 -> R w1 w3.
Hypothesis R_emit : forall ev, respects R (emit ev).
Variable rt : Runtime.
Variable fault : Target -> call -> option exn.
Variable name : string.
Hypothesis R_insert :
  forall data, respects R (client_call fault (Insert name data)).

Lemma named_insert_batch_plain file_name df metadata batch_size acc i :
  respects R (insert_batch_plain rt fault name file_name df metadata
                                 batch_size acc i).
Proof.
  unfold insert_batch_plain. apply (respects_try_except R R_trans).
  - apply (respects_bind_lift R R_refl). intros data _.
    apply (respects_bind R R_trans); [apply R_insert | intros _].
    apply (respects_ret R R_refl).
  - intros e. apply (respects_ret R R_refl).
Qed.

Lemma named_insert_batch_progress file_name df metadata batch_size acc i :
  respects R (insert_batch_progress rt fault name file_name df metadata
                                    batch_size acc i).
Proof.
  unfold insert_batch_progress. apply (respects_try_except R R_trans).
  - apply (respects_bind_lift R R_refl). intros data _.
    apply (respects_bind R R_trans); [apply R_insert | intros _].
    apply (respects_bind R R_trans); [apply R_emit | intros _].
    apply (respects_ret R R_refl).
  - intros e. apply (respects_bind R R_trans); [apply R_emit | intros _].
    apply (respects_ret R R_refl).
Qed.

Lemma named_insert_file metadata batch_size show_progress file acc :
  respects R (insert_file rt fault name metadata batch_size show_progress
                          file acc).
Proof.
  unfold insert_file. apply (respects_bind_lift R R_refl). intros df _.
  destruct show_progress.
  - apply (respects_with_progress R R_refl R_trans R_emit).
    apply (respects_bind R R_trans); [apply R_emit | intros _].
    apply (respects_bind_lift R R_refl). intros starts _.
    apply (respects_for_each R R_refl R_trans). intros acc' i.
    apply named_insert_batch_progress.
  - apply (respects_bind_lift R R_refl). intros starts _.
    apply (respects_for_each R R_refl R_trans). intros acc' i.
    apply named_insert_batch_plain.
Qed.

Lemma named_insert_files metadata batch_size show_progress :
  forall files acc,
    respects R (insert_files rt fault name metadata batch_size show_progress
                             files acc).
Proof.
  induction files as [| file files IH]; intros acc; simpl.
  - apply (respects_ret R R_refl).
  - apply (respects_bind R R_trans); [apply named_insert_file | ].
    intros acc'. apply IH.
Qed.

Variable drop_if_exists : bool.
Variable data_path : Dataset.
Variable collection_name : option string.
Hypothesis R_has : respects R (client_call fault (HasCollection name)).
Hypothesis R_drop :
  drop_if_exists = true -> respects R (client_call fault (DropCollection name)).
Hypothesis R_create :
  forall sch index_params,
    respects R (client_call fault (CreateCollection name sch index_params)).
Hypothesis R_flush : respects R (client_call fault (Flush name)).
Hypothesis R_load : respects R (client_call fault (LoadCollection name)).
Hypothesis resolved :
  forall metadata n,
    meta_json data_path = Some (Ok metadata) ->
    resolve_collection_name collection_name metadata = Ok n -> n = name.

Lemma named_insert_data create_index batch_size show_progress :
  respects R (insert_data rt fault data_path collection_name drop_if_exists
                          create_index batch_size show_progress).
Proof.
  unfold insert_data.
  destruct (path_exists data_path); simpl; [ | apply (respects_raise R R_refl)].
  destruct (meta_json data_path) as [loaded | ] eqn:Hmeta;
    [ | apply (respects_raise R R_refl)].
  apply (respects_bind_lift R R_refl). intros metadata ->.
  apply (respects_bind_lift R R_refl). intros n Hn.
  rewrite (resolved metadata n eq_refl Hn). clear n Hn.
  apply (respects_bind R R_trans).
  { intros w. unfold has_collection.
    apply (respects_bind R R_trans (client_call fault (HasCollection name))
                         (fun _ => ret _)); [exact R_has | ].
    intros _. apply (respects_ret R R_refl). }
  intros present.
  apply (respects_bind R R_trans).
  { destruct present; [ | apply (respects_ret R R_refl)].
    destruct drop_if_exists; [now apply R_drop | apply (respects_raise R R_refl)]. }
  intros _.
  apply (respects_bind_lift R R_refl). intros sch _.
  apply (respects_bind_lift R R_refl). intros index_params _.
  apply (respects_bind R R_trans); [apply R_create | intros _].
  destruct (sorted (parquet_files data_path)) as [| file files];
    [apply (respects_raise R R_refl) | ].
  apply (respects_bind R R_trans); [apply named_insert_files | intros acc].
  apply (respects_bind R R_trans); [apply R_flush | intros _].
  apply (respects_bind R R_trans); [apply R_load | intros _].
  apply (respects_bind_lift R R_refl). intros index_info _.
  apply (respects_ret R R_refl).
Qed.

End Addressed.

(** * Index parameters: properties *)

Lemma add_indexes_filter :
  forall fs index_params,
    add_indexes fs index_params
    = index_params ++ map index_param (filter is_vector_field fs).
Proof.
  induction fs as [| f fs IH]; intros index_params; simpl.
  - now rewrite app_nil_r.
  - unfold is_vector_field at 1.
    destruct (contains "Vector" (fi_type f)); simpl.
    + rewrite IH. now rewrite <- app_assoc.
    + apply IH.
Qed.

Lemma index_param_table (f : FieldInfo) : index_table_row f (index_param f).
Proof.
  unfold index_table_row, index_param.
  destruct (String.eqb_spec (fi_type f) "SparseFloatVector") as [Hs | Hs].
  - simpl. repeat split; auto; intros; congruence.
  - destruct (String.eqb_spec (fi_type f) "BinaryVector") as [Hb | Hb];
      simpl; repeat split; auto; intros; congruence.
Qed.

(** a call followed by code that only makes calls of one kind: the call is
    recorded with its answer, then come calls of that kind *)
Lemma call_then_trace {A : Type} (P : call -> Prop)
      (fault : Target -> call -> option exn) (c : call) (k : unit -> M A)
      (w : World) :
  (forall u, respects (extends_by P) (k u)) ->
  exists answer rest,
    t_trace (target (fst (bind (client_call fault c) k w)))
    = t_trace (target w) ++ (c, answer) :: rest
    /\ Forall (fun cr => P (fst cr)) rest.
Proof.
  intros Hk. unfold bind, client_call.
  destruct (fault (target w) c) as [e | ]; simpl.
  - exists (Some e), []. split; [reflexivity | constructor].
  - match goal with
    | |- context [k tt ?w1] => destruct (Hk tt w1) as (rest & Ht & Hrest)
    end.
    exists None, rest. split; [ | exact Hrest]. rewrite Ht. simpl.
    now rewrite <- app_assoc.
Qed.

(** past the existence check and the building of the schema, the next call
    is the creation of the collection, with the index parameters; what
    follows only inserts, flushes and loads *)
Lemma insert_data_creates
      (rt : Runtime) (fault : Target -> call -> option exn)
      (data_path : Dataset) (collection_name : option string)
      (drop_if_exists create_index : bool) (batch_size : Z)
      (show_progress : bool) (w : World) (metadata : Metadata)
      (name : string) (sch : CollectionSchema)
      (index_params : list IndexParam) :
  path_exists data_path = true ->
  meta_json data_path = Some (Ok metadata) ->
  resolve_collection_name collection_name metadata = Ok name ->
  _create_schema rt metadata = Ok sch ->
  _create_index_params metadata = Ok index_params ->
  (forall t, fault t (HasCollection name) = None) ->
  (forall t, fault t (DropCollection name) = None) ->
  (has_name name (t_collections (target w)) = true -> drop_if_exists = true) ->
  exists answer rest,
    t_trace (target (fst (insert_data rt fault data_path collection_name
                                      drop_if_exists create_index
                                      batch_size show_progress w)))
    = t_trace (target w)
      ++ (HasCollection name, None)
         :: (if has_name name (t_collections (target w))
             then [(DropCollection name, None)] else [])
      ++ (CreateCollection name sch index_params, answer) :: rest
    /\ Forall (fun cr => loads_data (fst cr)) rest.
Proof.
  intros Hpath Hmeta Hname Hsch Hips Hhas Hdrop Hpolicy.
  unfold insert_data. rewrite Hpath, Hmeta. simpl.
  unfold bind at 1. unfold lift at 1. cbv beta iota.
  unfold bind at 1. unfold lift at 1. rewrite Hname. cbv beta iota.
  rewrite Hsch, Hips.
  assert (Hcheck :
            has_collection fault name w
            = ({| target :=
                    {| t_collections := t_collections (target w);
                       t_connected := t_connected (target w);
                       t_trace := t_trace (target w)
                                    ++ [(HasCollection name, None)] |};
                  display := display w |},
               Ok (has_name name (t_collections (target w))))).
  { unfold has_collection, bind, client_call, ret. now rewrite Hhas. }
  unfold bind at 1. rewrite Hcheck. clear Hcheck.
  assert (Htail : forall w2 : World,
             t_trace (target w2)
             = t_trace (target w)
               ++ (HasCollection name, None)
                  :: (if has_name name (t_collections (target w))
                      then [(DropCollection name, None)] else []) ->
             forall k : unit -> M InsertReport,
               (forall u, respects (extends_by loads_data) (k u)) ->
               exists answer rest,
                 t_trace (target
                            (fst (bind (client_call
                                          fault
                                          (CreateCollection name sch
                                                            index_params))
                                       k w2)))
                 = t_trace (target w)
                   ++ (HasCollection name, None)
                      :: (if has_name name (t_collections (target w))
                          then [(DropCollection name, None)] else [])
                   ++ (CreateCollection name sch index_params, answer) :: rest
                 /\ Forall (fun cr => loads_data (fst cr)) rest).
  { intros w2 Hw2 k Hk.
    destruct (call_then_trace loads_data fault
                (CreateCollection name sch index_params) k w2 Hk)
      as (answer & rest & Ht & Hrest).
    exists answer, rest. split; [ | exact Hrest].
    rewrite Ht, Hw2. rewrite <- app_assoc. reflexivity. }
  assert (Hloads : forall u : unit,
             respects (extends_by loads_data)
               ((fun _ : unit =>
                   match sorted (parquet_files data_path) with
                   | [] =>
                       raise (Raise FileNotFoundError
                                    ("No parquet files found in "
                                       ++ path data_path))
                   | _ :: _ =>
                       (acc <- insert_files rt fault name metadata batch_size
                                 show_progress
                                 (sorted (parquet_files data_path)) (0%Z, []) ;;
                        client_call fault (Flush name) ;;;
                        client_call fault (LoadCollection name) ;;;
                        index_info <- lift (_get_index_info name metadata) ;;
                        ret {| report_collection_name := name;
                               total_inserted := fst acc;
                               failed_batches := snd acc;
                               indexes_created := index_info;
                               collection_loaded := true |})%M
                   end) u)).
  { intros _. cbv beta.
    destruct (sorted (parquet_files data_path)) as [| file files];
      [apply (respects_raise _ (extends_by_refl loads_data)) | ].
    apply (respects_bind _ (extends_by_trans loads_data)).
    - apply (named_insert_files _ (extends_by_refl loads_data)
               (extends_by_trans loads_data) (extends_by_emit loads_data)).
      intros data. now apply extends_by_call.
    - intros acc.
      apply (respects_bind _ (extends_by_trans loads_data));
        [now apply extends_by_call | intros _].
      apply (respects_bind _ (extends_by_trans loads_data));
        [now apply extends_by_call | intros _].
      apply (respects_bind_lift _ (extends_by_refl loads_data)).
      intros index_info _.
      apply (respects_ret _ (extends_by_refl loads_data)). }
  destruct (has_name name (t_collections (target w))) eqn:Hpresent.
  - rewrite (Hpolicy eq_refl).
    unfold bind at 1. unfold client_call at 1. rewrite Hdrop.
    cbv beta iota zeta.
    unfold bind at 1. unfold lift at 1. cbv beta iota.
    unfold bind at 1. unfold lift at 1. cbv beta iota.
    apply Htail; [ | exact Hloads].
    simpl. now rewrite <- app_assoc.
  - unfold bind at 1. unfold ret at 1. cbv beta iota.
    unfold bind at 1. unfold lift at 1. cbv beta iota.
    unfold bind at 1. unfold lift at 1. cbv beta iota.
    apply Htail; [ | exact Hloads].
    reflexivity.
Qed.

(** C8. [_create_index_params] gives one entry per vector field, in
    declared order, and the entry is fixed by the field's type: a sparse
    index with metric IP and [drop_ratio_build = 0.2] for SparseFloatVector,
    the client's default index (AUTOINDEX) with metric HAMMING for
    BinaryVector and with metric L2 for every other vector type.  A run of
    [insert_data] hands exactly these parameters to the target inside the
    create-collection call, and makes no other call than existence check,
    drop, create, insert, flush and load.  The create call is made: when
    the dataset loads and names the collection, the schema builds, the
    existence check and the drop are served, and an existing collection is
    to be replaced, the target receives the existence check, the drop if
    the collection was there, and next the create call carrying the schema
    and these index parameters, whatever it then answers; every call after
    it is an insert, a flush or a load. *)
Theorem index_params_fixed_by_vector_type
        (metadata : Metadata) (declared : list FieldInfo) :
  metadata_fields metadata = Ok declared ->
  exists index_params,
    _create_index_params metadata = Ok index_params /\
    Forall2 index_table_row (filter is_vector_field declared) index_params /\
    (forall rt fault data_path collection_name drop_if_exists create_index
            batch_size show_progress w,
        meta_json data_path = Some (Ok metadata) ->
        exists calls,
          t_trace (target (fst (insert_data rt fault data_path collection_name
                                            drop_if_exists create_index
                                            batch_size show_progress w)))
          = t_trace (target w) ++ calls /\
          Forall (fun cr =>
                    match fst cr with
                    | CreateCollection _ _ supplied => supplied = index_params
                    | HasCollection _ | DropCollection _ | Insert _ _
                    | Flush _ | LoadCollection _ => True
                    | Connect _ _ _ | ListCollections | Close => False
                    end) calls) /\
    (forall rt fault data_path collection_name drop_if_exists create_index
            batch_size show_progress w name sch,
        path_exists data_path = true ->
        meta_json data_path = Some (Ok metadata) ->
        resolve_collection_name collection_name metadata = Ok name ->
        _create_schema rt metadata = Ok sch ->
        (forall t, fault t (HasCollection name) = None) ->
        (forall t, fault t (DropCollection name) = None) ->
        (has_name name (t_collections (target w)) = true ->
         drop_if_exists = true) ->
        exists answer rest,
          t_trace (target (fst (insert_data rt fault data_path collection_name
                                            drop_if_exists create_index
                                            batch_size show_progress w)))
          = t_trace (target w)
            ++ (HasCollection name, None)
               :: (if has_name name (t_collections (target w))
                   then [(DropCollection name, None)] else [])
            ++ (CreateCollection name sch index_params, answer) :: rest
          /\ Forall (fun cr => loads_data (fst cr)) rest).
Proof.
  intros Hdeclared.
  destruct (_create_index_params metadata) as [index_params | e] eqn:Hips;
    [ | unfold _create_index_params in Hips; rewrite Hdeclared in Hips;
        discriminate Hips].
  exists index_params. split; [reflexivity | ]. split; [ | split].
  - unfold _create_index_params in Hips. rewrite Hdeclared in Hips.
    simpl in Hips. injection Hips as <-.
    rewrite add_indexes_filter. simpl.
    induction (filter is_vector_field declared) as [| f fs IH]; simpl;
      constructor; [apply index_param_table | exact IH].
  - intros rt fault data_path collection_name drop_if_exists create_index
           batch_size show_progress w Hmeta.
    destruct (insert_data_only_issued rt fault data_path collection_name
                drop_if_exists create_index batch_size show_progress w)
      as [_ (calls & Htrace & Hcalls)].
    exists calls. split; [exact Htrace | ].
    eapply Forall_impl; [ | exact Hcalls].
    intros [c r] Hc. simpl in *. destruct c; simpl in Hc; auto.
    destruct Hc as (metadata' & Hmeta' & _ & Hips').
    rewrite Hmeta in Hmeta'. injection Hmeta' as <-.
    rewrite Hips in Hips'. now injection Hips' as <-.
  - intros rt fault data_path collection_name drop_if_exists create_index
           batch_size show_progress w name sch
           Hpath Hmeta Hname Hsch Hhas Hdrop Hpolicy.
    now apply (insert_data_creates rt fault data_path collection_name
                 drop_if_exists create_index batch_size show_progress w
                 metadata name sch index_params).
Qed.

Lemma index_params_fixed_by_vector_type_witness :
  exists index_params,
    _create_index_params demo_metadata = Ok index_params /\
    Forall2 index_table_row (filter is_vector_field demo_fields) index_params /\
    (forall rt fault data_path collection_name drop_if_exists create_index
            batch_size show_progress w,
        meta_json data_path = Some (Ok demo_metadata) ->
        exists calls,
          t_trace (target (fst (insert_data rt fault data_path collection_name
                                            drop_if_exists create_index
                                            batch_size show_progress w)))
          = t_trace (target w) ++ calls /\
          Forall (fun cr =>
                    match fst cr with
                    | CreateCollection _ _ supplied => supplied = index_params
                    | HasCollection _ | DropCollection _ | Insert _ _
                    | Flush _ | LoadCollection _ => True
                    | Connect _ _ _ | ListCollections | Close => False
                    end) calls) /\
    (forall rt fault data_path collection_name drop_if_exists create_index
            batch_size show_progress w name sch,
        path_exists data_path = true ->
        meta_json data_path = Some (Ok demo_metadata) ->
        resolve_collection_name collection_name demo_metadata = Ok name ->
        _create_schema rt demo_metadata = Ok sch ->
        (forall t, fault t (HasCollection name) = None) ->
        (forall t, fault t (DropCollection name) = None) ->
        (has_name name (t_collections (target w)) = true ->
         drop_if_exists = true) ->
        exists answer rest,
          t_trace (target (fst (insert_data rt fault data_path collection_name
                                            drop_if_exists create_index
                                            batch_size show_progress w)))
          = t_trace (target w)
            ++ (HasCollection name, None)
               :: (if has_name name (t_collections (target w))
                   then [(DropCollection name, None)] else [])
            ++ (CreateCollection name sch index_params, answer) :: rest
          /\ Forall (fun cr => loads_data (fst cr)) rest).
Proof.
  apply (index_params_fixed_by_vector_type demo_metadata demo_fields).
  reflexivity.
Defined.

(** the run on the demo dataset, replacing the collection that is there:
    existence check, drop, then the create call with the L2 index of the
    one vector field; three records are inserted, then flush and load *)
Example demo_creation_call :
  exists sch data,
    _create_schema (reference_runtime true) demo_metadata = Ok sch /\
    t_trace (target (fst (insert_data (reference_runtime true) healthy
                                      demo_dataset None true true 10000%Z
                                      false world_with_t)))
    = t_trace (target world_with_t)
      ++ [ (HasCollection "t", None);
           (DropCollection "t", None);
           (CreateCollection
              "t" sch
              [ {| ip_field_name := "v"; ip_index_name := None;
                   ip_index_type := None; ip_metric_type := "L2";
                   ip_params := [] |} ], None);
           (Insert "t" data, None);
           (Flush "t", None);
           (LoadCollection "t", None) ].
Proof. vm_compute. eexists. eexists. split; reflexivity. Qed.


(** X10. Every call a run of [insert_data] makes is made on the one
    collection whose name it resolved (the caller's name when given and not
    empty, otherwise the name in the metadata); the calls are existence
    check, drop, create, insert, flush and load, and a drop is made only
    under [drop_if_exists]. *)
Theorem calls_address_the_resolved_collection
        (rt : Runtime) (fault : Target -> call -> option exn)
        (data_path : Dataset) (collection_name : option string)
        (drop_if_exists create_index : bool) (batch_size : Z)
        (show_progress : bool) (w : World) (metadata : Metadata)
        (name : string) :
  meta_json data_path = Some (Ok metadata) ->
  resolve_collection_name collection_name metadata = Ok name ->
  extends_by (addressed name drop_if_exists) w
             (fst (insert_data rt fault data_path collection_name
                               drop_if_exists create_index batch_size
                               show_progress w)).
Proof.
  intros Hmeta Hname.
  apply (named_insert_data (extends_by (addressed name drop_if_exists))
           (extends_by_refl _) (extends_by_trans _) (extends_by_emit _)
           rt fault name).
  - intros data. apply extends_by_call. reflexivity.
  - apply extends_by_call. reflexivity.
  - intros Hdrop. apply extends_by_call. now split.
  - intros sch index_params. apply extends_by_call. reflexivity.
  - apply extends_by_call. reflexivity.
  - apply extends_by_call. reflexivity.
  - intros metadata' n Hmeta' Hn. rewrite Hmeta in Hmeta'.
    injection Hmeta' as <-. rewrite Hname in Hn. now injection Hn.
Qed.

Lemma calls_address_the_resolved_collection_witness :
  extends_by (addressed "other" false) world_with_t
             (fst (insert_data (reference_runtime true) healthy demo_dataset
                               (Some "other") false true 2%Z true
                               world_with_t)).
Proof.
  apply (calls_address_the_resolved_collection
           (reference_runtime true) healthy demo_dataset (Some "other") false
           true 2%Z true world_with_t demo_metadata "other");
    reflexivity.
Defined.

Lemma has_name_app (n : string) (l1 l2 : list string) :
  has_name n l1 = true -> has_name n (l1 ++ l2) = true.
Proof.
  unfold has_name. rewrite existsb_app. intros ->. reflexivity.
Qed.

Lemma collections_kept_call (fault : Target -> call -> option exn) (c : call) :
  (forall n, c <> DropCollection n) ->
  respects collections_kept (client_call fault c).
Proof.
  intros Hc w n Hn. unfold client_call.
  destruct (fault (target w) c) as [e | ]; simpl; [exact Hn | ].
  destruct c; simpl; try exact Hn.
  - exfalso. now apply (Hc name).
  - destruct (has_name name (t_collections (target w)));
      [exact Hn | now apply has_name_app].
Qed.

(** X11. Without [drop_if_exists], a run of [insert_data] removes no
    collection from the target, however it ends: every collection that
    existed before the call exists after it. *)
Theorem without_drop_no_collection_is_lost
        (rt : Runtime) (fault : Target -> call -> option exn)
        (data_path : Dataset) (collection_name : option string)
        (create_index : bool) (batch_size : Z) (show_progress : bool)
        (w : World) :
  collections_kept w
    (fst (insert_data rt fault data_path collection_name false create_index
                      batch_size show_progress w)).
Proof.
  set (name :=
         match meta_json data_path with
         | Some (Ok metadata) =>
             match resolve_collection_name collection_name metadata with
             | Ok n => n
             | Err _ => ""
             end
         | _ => ""
         end).
  apply (named_insert_data collections_kept
           (fun w0 n H => H) (fun w1 w2 w3 H12 H23 n H => H23 n (H12 n H))
           (fun ev w0 n H => H) rt fault name).
  - intros data. apply collections_kept_call. intros n H. discriminate H.
  - apply collections_kept_call. intros n H. discriminate H.
  - intros H. discriminate H.
  - intros sch index_params. apply collections_kept_call.
    intros n H. discriminate H.
  - apply collections_kept_call. intros n H. discriminate H.
  - apply collections_kept_call. intros n H. discriminate H.
  - intros metadata n Hmeta Hn. unfold name. now rewrite Hmeta, Hn.
Qed.

(** * The report: what a returned report means *)

Lemma bind_ok_run {A B : Type} (m : M A) (k : A -> M B) (w : World) (b : B) :
  snd (bind m k w) = Ok b ->
  exists a, snd (m w) = Ok a /\ bind m k w = k a (fst (m w)).
Proof.
  unfold bind. destruct (m w) as [w1 [a | e]]; simpl; intros H.
  - now exists a.
  - discriminate H.
Qed.

Lemma client_call_served (fault : Target -> call -> option exn) (c : call)
      (w : World) (u : unit) :
  snd (client_call fault c w) = Ok u ->
  t_trace (target (fst (client_call fault c w)))
  = t_trace (target w) ++ [(c, None)].
Proof.
  unfold client_call. destruct (fault (target w) c); simpl; intros H;
    [discriminate H | reflexivity].
Qed.

(** X12. A report is returned only after the target has served the flush
    and then the load of the collection, as the last two calls of the run;
    the report names the resolved collection, says the collection is
    loaded and lists the indexes [_get_index_info] derives from the
    metadata; and the dataset had at least one data file. *)
Theorem report_means_flushed_and_loaded
        (rt : Runtime) (fault : Target -> call -> option exn)
        (data_path : Dataset) (collection_name : option string)
        (drop_if_exists create_index : bool) (batch_size : Z)
        (show_progress : bool) (w : World) (report : InsertReport) :
  let run := insert_data rt fault data_path collection_name drop_if_exists
                         create_index batch_size show_progress w in
  snd run = Ok report ->
  collection_loaded report = true
  /\ (exists calls,
         t_trace (target (fst run))
         = calls ++ [ (Flush (report_collection_name report), None);
                      (LoadCollection (report_collection_name report), None) ])
  /\ (exists metadata,
         meta_json data_path = Some (Ok metadata) /\
         resolve_collection_name collection_name metadata
         = Ok (report_collection_name report) /\
         _get_index_info (report_collection_name report) metadata
         = Ok (indexes_created report))
  /\ parquet_files data_path <> [].
Proof.
  cbv zeta. unfold insert_data.
  destruct (path_exists data_path); simpl; [ | intros H; discriminate H].
  destruct (meta_json data_path) as [loaded | ]; [ | intros H; discriminate H].
  intros H.
  destruct (bind_ok_run _ _ _ _ H) as (metadata & Hload & Hrun).
  rewrite Hrun in H |- *. clear Hrun.
  unfold lift in Hload. simpl in Hload. subst loaded.
  destruct (bind_ok_run _ _ _ _ H) as (name & Hname & Hrun).
  rewrite Hrun in H |- *. clear Hrun. unfold lift in Hname. simpl in Hname.
  destruct (bind_ok_run _ _ _ _ H) as (present & _ & Hrun).
  rewrite Hrun in H |- *. clear Hrun.
  destruct (bind_ok_run _ _ _ _ H) as (u1 & _ & Hrun).
  rewrite Hrun in H |- *. clear Hrun.
  destruct (bind_ok_run _ _ _ _ H) as (sch & _ & Hrun).
  rewrite Hrun in H |- *. clear Hrun.
  destruct (bind_ok_run _ _ _ _ H) as (index_params & _ & Hrun).
  rewrite Hrun in H |- *. clear Hrun.
  destruct (bind_ok_run _ _ _ _ H) as (u2 & _ & Hrun).
  rewrite Hrun in H |- *. clear Hrun.
  destruct (sorted (parquet_files data_path)) as [| file files] eqn:Hfiles;
    [discriminate H | ].
  destruct (bind_ok_run _ _ _ _ H) as (acc & _ & Hrun).
  rewrite Hrun in H |- *. clear Hrun.
  destruct (bind_ok_run _ _ _ _ H) as (u3 & Hflush & Hrun).
  rewrite Hrun in H |- *. clear Hrun.
  destruct (bind_ok_run _ _ _ _ H) as (u4 & Hloadc & Hrun).
  rewrite Hrun in H |- *. clear Hrun.
  destruct (bind_ok_run _ _ _ _ H) as (index_info & Hinfo & Hrun).
  rewrite Hrun in H |- *. clear Hrun.
  unfold lift in Hinfo. simpl in Hinfo.
  match type of Hflush with
  | snd (client_call _ _ ?w5) = _ => remember w5 as wl eqn:Hwl in *; clear Hwl
  end.
  apply client_call_served in Hloadc. apply client_call_served in Hflush.
  unfold ret in H. cbn [snd] in H. injection H as <-.
  unfold ret, lift. cbn [fst report_collection_name collection_loaded
                         indexes_created].
  split; [reflexivity | split; [ | split]].
  - rewrite Hloadc, Hflush.
    eexists. rewrite <- app_assoc. reflexivity.
  - exists metadata. auto.
  - intros Hnil. rewrite Hnil in Hfiles. discriminate Hfiles.
Qed.

Lemma report_means_flushed_and_loaded_witness :
  exists report,
    snd (insert_data (reference_runtime true) healthy demo_dataset None
                     false true 2%Z true fresh_world) = Ok report
    /\ collection_loaded report = true
    /\ (exists calls,
           t_trace (target (fst (insert_data (reference_runtime true) healthy
                                             demo_dataset None false true 2%Z
                                             true fresh_world)))
           = calls ++ [ (Flush (report_collection_name report), None);
                        (LoadCollection (report_collection_name report), None) ])
    /\ (exists metadata,
           meta_json demo_dataset = Some (Ok metadata) /\
           resolve_collection_name None metadata
           = Ok (report_collection_name report) /\
           _get_index_info (report_collection_name report) metadata
           = Ok (indexes_created report))
    /\ parquet_files demo_dataset <> [].
Proof.
  eexists. split; [vm_compute; reflexivity | ].
  apply (report_means_flushed_and_loaded
           (reference_runtime true) healthy demo_dataset None false true 2%Z
           true fresh_world).
  vm_compute. reflexivity.
Defined.

(** * Index summary: properties *)

Lemma index_info_loop_filter :
  forall fs index_info,
    index_info_loop fs index_info
    = index_info ++ map index_info_entry (filter is_vector_field fs).
Proof.
  induction fs as [| f fs IH]; intros index_info; simpl.
  - now rewrite app_nil_r.
  - unfold is_vector_field at 1.
    destruct (contains "Vector" (fi_type f)); simpl.
    + rewrite IH. now rewrite <- app_assoc.
    + apply IH.
Qed.

Lemma index_info_entry_matches (f : FieldInfo) :
  ii_field (index_info_entry f) = ip_field_name (index_param f) /\
  ii_index_type (index_info_entry f) = effective_index_type (index_param f) /\
  ii_metric_type (index_info_entry f) = ip_metric_type (index_param f).
Proof.
  unfold index_info_entry, index_param, effective_index_type.
  destruct (fi_type f =? "SparseFloatVector"); simpl; auto.
Qed.

(** X13. The ["indexes_created"] summary of the report agrees with the
    index parameters handed to the target at creation: the same fields in
    the same order, each with the same metric type and with the index type
    the parameters name, or AUTOINDEX where they leave it to the client. *)
Theorem index_info_matches_index_params
        (name : string) (metadata : Metadata) (declared : list FieldInfo) :
  metadata_fields metadata = Ok declared ->
  exists index_params index_info,
    _create_index_params metadata = Ok index_params /\
    _get_index_info name metadata = Ok index_info /\
    Forall2 (fun ip ii =>
               ii_field ii = ip_field_name ip /\
               ii_index_type ii = effective_index_type ip /\
               ii_metric_type ii = ip_metric_type ip)
            index_params index_info.
Proof.
  intros Hdeclared. unfold _create_index_params, _get_index_info.
  rewrite Hdeclared. simpl. do 2 eexists.
  split; [reflexivity | split; [reflexivity | ]].
  rewrite add_indexes_filter, index_info_loop_filter. simpl.
  induction (filter is_vector_field declared) as [| f fs IH]; simpl;
    constructor; [apply index_info_entry_matches | exact IH].
Qed.

Lemma index_info_matches_index_params_witness :
  exists index_params index_info,
    _create_index_params demo_metadata = Ok index_params /\
    _get_index_info "t" demo_metadata = Ok index_info /\
    Forall2 (fun ip ii =>
               ii_field ii = ip_field_name ip /\
               ii_index_type ii = effective_index_type ip /\
               ii_metric_type ii = ip_metric_type ip)
            index_params index_info.
Proof.
  apply (index_info_matches_index_params "t" demo_metadata demo_fields).
  reflexivity.
Defined.

(** * Dicts: insertion and lookup *)

Section DictFacts.
Context {K V : Type} (eqb : K -> K -> bool).
Hypothesis eqb_eq : forall a b, eqb a b = true <-> a = b.

Lemma eqb_same (a : K) : eqb a a = true.
Proof. now apply eqb_eq. Qed.

Lemma eqb_other (a b : K) : a <> b -> eqb a b = false.
Proof.
  intros Hne. destruct (eqb a b) eqn:E; [ | reflexivity].
  apply eqb_eq in E. contradiction.
Qed.

Lemma lookup_after_set_same (k : K) (v : V) (d : list (K * V)) :
  dict_get eqb k (dict_set eqb k v d) = Some v.
Proof.
  induction d as [| [k' v'] d IH]; simpl.
  - now rewrite eqb_same.
  - destruct (eqb k' k) eqn:E; simpl.
    + now rewrite eqb_same.
    + now rewrite E.
Qed.

Lemma lookup_after_set_other (n k : K) (v : V) (d : list (K * V)) :
  n <> k ->
  dict_get eqb k (dict_set eqb n v d) = dict_get eqb k d.
Proof.
  intros Hne. induction d as [| [k' v'] d IH]; simpl.
  - now rewrite (eqb_other n k Hne).
  - destruct (eqb k' n) eqn:E; simpl.
    + apply eqb_eq in E. subst k'. now rewrite (eqb_other n k Hne).
    + destruct (eqb k' k); [reflexivity | exact IH].
Qed.

Lemma keys_after_set_present (k : K) (v : V) (d : list (K * V)) :
  In k (map fst d) -> map fst (dict_set eqb k v d) = map fst d.
Proof.
  induction d as [| [k' v'] d IH]; simpl; intros Hin; [contradiction | ].
  destruct (eqb k' k) eqn:E; simpl.
  - apply eqb_eq in E. now subst k'.
  - f_equal. apply IH. destruct Hin as [Heq | Hin]; [ | exact Hin].
    subst k'. now rewrite eqb_same in E.
Qed.

Lemma keys_after_set_fresh (k : K) (v : V) (d : list (K * V)) :
  ~ In k (map fst d) -> map fst (dict_set eqb k v d) = map fst d ++ [k].
Proof.
  induction d as [| [k' v'] d IH]; simpl; intros Hout; [reflexivity | ].
  destruct (eqb k' k) eqn:E; simpl.
  - apply eqb_eq in E. subst k'. exfalso. apply Hout. now left.
  - f_equal. apply IH. intros Hin. apply Hout. now right.
Qed.

Lemma keys_after_set_nodup (k : K) (v : V) (d : list (K * V)) :
  (forall a b : K, {a = b} + {a <> b}) ->
  NoDup (map fst d) -> NoDup (map fst (dict_set eqb k v d)).
Proof.
  intros dec Hnd. destruct (in_dec dec k (map fst d)) as [Hin | Hout].
  - now rewrite keys_after_set_present.
  - rewrite keys_after_set_fresh by assumption.
    apply NoDup_app; [exact Hnd | repeat constructor; intros [] | ].
    intros x Hx [<- | []]. contradiction.
Qed.

End DictFacts.

(** * Vector codec: further properties *)

Lemma view16_pairs :
  forall n bytes,
    (length bytes <= n)%nat ->
    (Nat.even (length bytes) = true ->
     exists ws,
       view16 bytes = Some ws /\
       length bytes = (2 * length ws)%nat /\
       (Forall is_byte bytes -> bytes_of_words ws = bytes))
    /\ (Nat.even (length bytes) = false -> view16 bytes = None).
Proof.
  induction n as [| n IH]; intros bytes Hlen.
  - destruct bytes; [ | simpl in Hlen; lia]. split.
    + intros _. exists []. repeat split.
    + intros H. discriminate H.
  - destruct bytes as [| lo [| hi rest]].
    + split; [intros _; exists []; repeat split | intros H; discriminate H].
    + split; [intros H; discriminate H | reflexivity].
    + assert (Hrest : (length rest <= n)%nat) by (simpl in Hlen; lia).
      destruct (IH rest Hrest) as [Heven Hodd].
      change (Nat.even (length (lo :: hi :: rest)))
        with (Nat.even (length rest)).
      split.
      * intros He. destruct (Heven He) as (ws & Hv & Hl & Hb).
        exists ((lo + 256 * hi)%Z :: ws).
        cbn [view16]. rewrite Hv. split; [reflexivity | split].
        -- simpl. lia.
        -- intros Hbytes. inversion Hbytes as [| ? ? Hlo Hb1]; subst.
           inversion Hb1 as [| ? ? Hhi Hb2]; subst.
           unfold is_byte in Hlo, Hhi. cbn [bytes_of_words flat_map app].
           fold (bytes_of_words ws). rewrite (Hb Hb2).
           f_equal; [ | f_equal].
           ++ rewrite (Z.mul_comm 256 hi), Z.mod_add by lia.
              now apply Z.mod_small.
           ++ rewrite (Z.mul_comm 256 hi), Z.div_add by lia.
              rewrite Z.div_small by lia. lia.
      * intros Ho. cbn [view16]. now rewrite (Hodd Ho).
Qed.

(** X14. For a list or array that numpy reads as the bytes [bytes], the
    Float16Vector codec (and the BFloat16Vector codec when [ml_dtypes] is
    there) pairs the bytes into half as many 16-bit values, from which the
    bytes can be read back unchanged; an odd number of bytes makes it raise
    the [ValueError] of [view]. *)
Theorem half_vector_reinterprets_bytes
        (rt : Runtime) (vector_data : pyval) (bytes : list Z) :
  is_list_or_ndarray vector_data = true ->
  np_array_uint8 rt vector_data = Ok bytes ->
  (Nat.even (length bytes) = true ->
   exists ws,
     _convert_single_vector_data rt vector_data "Float16Vector"
     = Ok (VHalfArray Float16 ws) /\
     (ml_dtypes_available rt = true ->
      _convert_single_vector_data rt vector_data "BFloat16Vector"
      = Ok (VHalfArray BFloat16 ws)) /\
     length bytes = (2 * length ws)%nat /\
     (Forall is_byte bytes -> bytes_of_words ws = bytes))
  /\ (Nat.even (length bytes) = false ->
      _convert_single_vector_data rt vector_data "Float16Vector"
      = Err view_error /\
      (ml_dtypes_available rt = true ->
       _convert_single_vector_data rt vector_data "BFloat16Vector"
       = Err view_error)).
Proof.
  intros Hlist Hnp.
  destruct (view16_pairs (length bytes) bytes (le_n _)) as [Heven Hodd].
  unfold _convert_single_vector_data.
  change ("Float16Vector" =? "Float16Vector") with true.
  change ("BFloat16Vector" =? "Float16Vector") with false.
  change ("BFloat16Vector" =? "BFloat16Vector") with true.
  cbv iota. rewrite Hlist, Hnp. unfold view_as. simpl. split.
  - intros He. destruct (Heven He) as (ws & Hv & Hl & Hb).
    exists ws. rewrite Hv. repeat split; auto. intros ->. reflexivity.
  - intros Ho. rewrite (Hodd Ho). split; [reflexivity | ].
    intros ->. reflexivity.
Qed.

Lemma half_vector_reinterprets_bytes_witness :
  exists ws,
    _convert_single_vector_data (reference_runtime true)
                                (VList [VInt 0; VInt 60; VInt 0; VInt 192])
                                "Float16Vector"
    = Ok (VHalfArray Float16 ws) /\
    (ml_dtypes_available (reference_runtime true) = true ->
     _convert_single_vector_data (reference_runtime true)
                                 (VList [VInt 0; VInt 60; VInt 0; VInt 192])
                                 "BFloat16Vector"
     = Ok (VHalfArray BFloat16 ws)) /\
    length [0; 60; 0; 192]%Z = (2 * length ws)%nat /\
    (Forall is_byte [0; 60; 0; 192]%Z -> bytes_of_words ws = [0; 60; 0; 192]%Z).
Proof.
  apply (proj1 (half_vector_reinterprets_bytes
                  (reference_runtime true)
                  (VList [VInt 0; VInt 60; VInt 0; VInt 192])
                  [0; 60; 0; 192]%Z eq_refl eq_refl)).
  reflexivity.
Defined.

(** X15. The codec hands back, unchanged and without error, every value
    whose shape it does not convert: a value that is neither a list nor an
    array (of any element type) under the three packed types, a value that
    is not a dict (with keys of either kind) under SparseFloatVector, and
    any value at all under every other type. *)
Theorem codec_passes_other_shapes_through
        (rt : Runtime) (vector_data : pyval) (field_type : string) :
  (In field_type ["Float16Vector"; "BFloat16Vector"; "BinaryVector"] ->
   is_list_or_ndarray vector_data = false ->
   _convert_single_vector_data rt vector_data field_type = Ok vector_data)
  /\ (is_dict vector_data = false ->
      _convert_single_vector_data rt vector_data "SparseFloatVector"
      = Ok vector_data)
  /\ (~ In field_type ["Float16Vector"; "BFloat16Vector"; "BinaryVector";
                       "SparseFloatVector"] ->
      _convert_single_vector_data rt vector_data field_type = Ok vector_data).
Proof.
  repeat split.
  - intros Hty Hshape. simpl in Hty.
    destruct Hty as [<- | [<- | [<- | []]]];
      unfold _convert_single_vector_data; simpl; rewrite Hshape;
      try reflexivity.
    destruct (ml_dtypes_available rt); reflexivity.
  - intros Hshape. unfold _convert_single_vector_data. simpl.
    destruct vector_data; try reflexivity; discriminate Hshape.
  - intros Hty. unfold _convert_single_vector_data.
    destruct (String.eqb_spec field_type "Float16Vector") as [-> | _];
      [exfalso; apply Hty; simpl; tauto | ].
    destruct (String.eqb_spec field_type "BFloat16Vector") as [-> | _];
      [exfalso; apply Hty; simpl; tauto | ].
    destruct (String.eqb_spec field_type "BinaryVector") as [-> | _];
      [exfalso; apply Hty; simpl; tauto | ].
    destruct (String.eqb_spec field_type "SparseFloatVector") as [-> | _];
      [exfalso; apply Hty; simpl; tauto | ].
    reflexivity.
Qed.

Lemma codec_passes_other_shapes_through_witness :
  _convert_single_vector_data (reference_runtime true)
                              (VList [VInt 1; VInt 2]) "SparseFloatVector"
  = Ok (VList [VInt 1; VInt 2]).
Proof.
  apply (proj1 (proj2 (codec_passes_other_shapes_through
                         (reference_runtime true) (VList [VInt 1; VInt 2])
                         "SparseFloatVector"))).
  reflexivity.
Defined.

Lemma sparse_comprehension_app (rt : Runtime) :
  forall pre rest acc,
    sparse_comprehension rt (pre ++ rest) acc
    = rbind (sparse_comprehension rt pre acc)
            (fun acc' => sparse_comprehension rt rest acc').
Proof.
  induction pre as [| [k v] pre IH]; intros rest acc; simpl; [reflexivity | ].
  destruct (is_not_None v); [ | apply IH].
  destruct (py_int rt k) as [n | e]; [apply IH | reflexivity].
Qed.

Lemma sparse_comprehension_total (rt : Runtime) :
  forall pre acc,
    (forall k v, In (k, v) pre -> is_not_None v = true ->
                 exists n, py_int rt k = Ok n) ->
    exists acc', sparse_comprehension rt pre acc = Ok acc'.
Proof.
  induction pre as [| [k v] pre IH]; intros acc Hkeys; simpl.
  - now exists acc.
  - assert (Hrest : forall k' v', In (k', v') pre -> is_not_None v' = true ->
                                  exists n, py_int rt k' = Ok n)
      by (intros k' v' Hin; apply Hkeys; now right).
    destruct (is_not_None v) eqn:Hv; [ | now apply IH].
    destruct (Hkeys k v (or_introl eq_refl) Hv) as [n ->]. now apply IH.
Qed.

(** X16. The sparse codec raises the error of [int] for the first entry
    whose weight is not [None] and whose key [int] does not read; an entry
    whose weight is [None] is dropped without its key being read. *)
Theorem sparse_vector_bad_key_raises
        (rt : Runtime) (pre post : list (string * pyval))
        (k : string) (v : pyval) (e : exn) :
  (forall k' v', In (k', v') pre -> is_not_None v' = true ->
                 exists n, py_int rt k' = Ok n) ->
  is_not_None v = true ->
  py_int rt k = Err e ->
  _convert_single_vector_data rt (VDict (pre ++ (k, v) :: post))
                              "SparseFloatVector"
  = Err e.
Proof.
  intros Hpre Hv Hk. unfold _convert_single_vector_data.
  change ("SparseFloatVector" =? "Float16Vector") with false.
  change ("SparseFloatVector" =? "BFloat16Vector") with false.
  change ("SparseFloatVector" =? "BinaryVector") with false.
  change ("SparseFloatVector" =? "SparseFloatVector") with true.
  cbv iota. rewrite sparse_comprehension_app.
  destruct (sparse_comprehension_total rt pre [] Hpre) as [acc' ->].
  simpl. now rewrite Hv, Hk.
Qed.

Lemma sparse_vector_bad_key_raises_witness :
  _convert_single_vector_data
    (reference_runtime true)
    (VDict ([("3", VFloat (5 # 10)); ("x", VNone)]
              ++ ("y", VFloat (1 # 1)) :: [("9", VFloat (12 # 10))]))
    "SparseFloatVector"
  = Err (Raise ValueError "invalid literal for int() with base 10: 'y'").
Proof.
  apply (sparse_vector_bad_key_raises
           (reference_runtime true)
           [("3", VFloat (5 # 10)); ("x", VNone)] [("9", VFloat (12 # 10))]
           "y" (VFloat (1 # 1))
           (Raise ValueError "invalid literal for int() with base 10: 'y'")).
  - intros k' v' Hin Hv. simpl in Hin.
    destruct Hin as [Heq | [Heq | []]]; injection Heq as <- <-.
    + now exists 3%Z.
    + discriminate Hv.
  - reflexivity.
  - reflexivity.
Defined.

Lemma sparse_comprehension_lookup (rt : Runtime) :
  forall items acc out,
    sparse_comprehension rt items acc = Ok out ->
    NoDup (map fst acc) ->
    NoDup (map fst out) /\
    forall n, dict_get Z.eqb n out
              = last_retained rt n items (dict_get Z.eqb n acc).
Proof.
  induction items as [| [k v] items IH]; intros acc out Hrun Hnd;
    simpl in Hrun.
  - injection Hrun as <-. split; [exact Hnd | reflexivity].
  - simpl. destruct (is_not_None v); [ | now apply IH].
    destruct (py_int rt k) as [m | e]; [ | discriminate Hrun].
    destruct (IH _ _ Hrun
                 (keys_after_set_nodup Z.eqb Z.eqb_eq m v acc Z.eq_dec Hnd))
      as [Hout Hget].
    split; [exact Hout | ]. intros n. rewrite Hget. f_equal.
    destruct (Z.eqb_spec m n) as [-> | Hne].
    + apply (lookup_after_set_same Z.eqb Z.eqb_eq).
    + now apply (lookup_after_set_other Z.eqb Z.eqb_eq).
Qed.

(** X17. Whenever the sparse codec returns for a dict, it returns an
    int-keyed dict without duplicate keys in which each dimension holds
    the weight of the last entry with a non-null weight whose key denotes
    that dimension: when two keys denote the same dimension, the later
    entry wins. *)
Theorem sparse_vector_later_entry_wins
        (rt : Runtime) (items : list (string * pyval)) (converted_value : pyval) :
  _convert_single_vector_data rt (VDict items) "SparseFloatVector"
  = Ok converted_value ->
  exists out,
    converted_value = VIntDict out /\
    NoDup (map fst out) /\
    forall n, dict_get Z.eqb n out = last_retained rt n items None.
Proof.
  unfold _convert_single_vector_data.
  change ("SparseFloatVector" =? "Float16Vector") with false.
  change ("SparseFloatVector" =? "BFloat16Vector") with false.
  change ("SparseFloatVector" =? "BinaryVector") with false.
  change ("SparseFloatVector" =? "SparseFloatVector") with true.
  cbv iota.
  destruct (sparse_comprehension rt items []) as [out | e] eqn:Hrun; simpl;
    intros H; [ | discriminate H].
  injection H as <-. exists out. split; [reflexivity | ].
  exact (sparse_comprehension_lookup rt items [] out Hrun (NoDup_nil _)).
Qed.

Lemma sparse_vector_later_entry_wins_witness :
  exists out,
    VIntDict [(3%Z, VFloat (12 # 10))] = VIntDict out /\
    NoDup (map fst out) /\
    forall n,
      dict_get Z.eqb n out
      = last_retained (reference_runtime true) n
                      [("3", VFloat (5 # 10)); ("+3", VFloat (12 # 10))] None.
Proof.
  apply (sparse_vector_later_entry_wins
           (reference_runtime true)
           [("3", VFloat (5 # 10)); ("+3", VFloat (12 # 10))]
           (VIntDict [(3%Z, VFloat (12 # 10))])).
  reflexivity.
Defined.

(** * Data files: the order of processing *)

Lemma string_leb_trans (a b c : string) :
  (a <=? b)%string = true -> (b <=? c)%string = true -> (a <=? c)%string = true.
Proof.
  unfold String.leb. revert b c.
  induction a as [| x a IH]; intros [| y b] [| z c]; cbn [String.compare];
    try easy.
  unfold Ascii.compare.
  destruct (N.compare_spec (N_of_ascii x) (N_of_ascii y)) as [Hxy | Hxy | Hxy],
           (N.compare_spec (N_of_ascii y) (N_of_ascii z)) as [Hyz | Hyz | Hyz],
           (N.compare_spec (N_of_ascii x) (N_of_ascii z)) as [Hxz | Hxz | Hxz];
    try easy; try (exfalso; lia).
  apply IH.
Qed.

Lemma insert_sorted_permutation {A : Type} (f : string * A) :
  forall l, Permutation (insert_sorted f l) (f :: l).
Proof.
  induction l as [| g l IH]; simpl; [reflexivity | ].
  destruct (fst f <=? fst g)%string; [reflexivity | ].
  rewrite IH. apply perm_swap.
Qed.

Lemma sorted_permutation {A : Type} (l : list (string * A)) :
  Permutation (sorted l) l.
Proof.
  induction l as [| f l IH]; simpl; [reflexivity | ].
  rewrite insert_sorted_permutation. now constructor.
Qed.

Lemma insert_sorted_sorted {A : Type} (f : string * A) :
  forall l, Sorted name_le l -> Sorted name_le (insert_sorted f l).
Proof.
  induction l as [| g l IH]; intros Hs; simpl.
  - repeat constructor.
  - destruct (fst f <=? fst g)%string eqn:Hfg.
    + constructor; [exact Hs | constructor; exact Hfg].
    + inversion Hs as [| ? ? Hl Hhd]; subst.
      assert (Hgf : name_le g f).
      { unfold name_le. destruct (String.leb_total (fst f) (fst g)) as [H | H];
          [congruence | exact H]. }
      constructor; [now apply IH | ].
      destruct l as [| h l]; simpl.
      * constructor. exact Hgf.
      * destruct (fst f <=? fst h)%string; constructor;
          [exact Hgf | now inversion Hhd].
Qed.

Lemma sorted_strongly_sorted {A : Type} (l : list (string * A)) :
  StronglySorted name_le (sorted l).
Proof.
  apply Sorted_StronglySorted.
  - intros a b c. unfold name_le. apply string_leb_trans.
  - induction l as [| f l IH]; simpl; [constructor | ].
    now apply insert_sorted_sorted.
Qed.

(** X18. [sorted] keeps every data file exactly once and puts the files in
    ascending order of their names: every file comes before all the files
    with a greater or equal name. *)
Theorem data_files_are_processed_by_name
        {A : Type} (l : list (string * A)) :
  Permutation (sorted l) l /\ StronglySorted name_le (sorted l).
Proof.
  split; [apply sorted_permutation | apply sorted_strongly_sorted].
Qed.

Lemma same_name_same_file {A : Type} (l : list (string * A)) (a b : string * A) :
  NoDup (map fst l) -> In a l -> In b l -> fst a = fst b -> a = b.
Proof.
  induction l as [| c l IH]; intros Hnd Ha Hb Hname; [contradiction | ].
  simpl in Hnd. inversion Hnd as [| ? ? Hnotin Hnd']; subst.
  destruct Ha as [-> | Ha], Hb as [-> | Hb].
  - reflexivity.
  - exfalso. apply Hnotin. rewrite Hname. now apply in_map.
  - exfalso. apply Hnotin. rewrite <- Hname. now apply in_map.
  - now apply IH.
Qed.

Lemma strongly_sorted_unique {A : Type} :
  forall l1 l2 : list (string * A),
    NoDup (map fst l1) ->
    StronglySorted name_le l1 -> StronglySorted name_le l2 ->
    Permutation l1 l2 -> l1 = l2.
Proof.
  induction l1 as [| a l1 IH]; intros l2 Hnd Hs1 Hs2 Hperm.
  - now apply Permutation_nil in Hperm.
  - destruct l2 as [| b l2];
      [apply Permutation_sym, Permutation_nil in Hperm; discriminate Hperm | ].
    inversion Hs1 as [| ? ? Hs1' Hall1]; subst.
    inversion Hs2 as [| ? ? Hs2' Hall2]; subst.
    rewrite Forall_forall in Hall1, Hall2.
    assert (Hb : In b (a :: l1))
      by (apply (Permutation_in b (Permutation_sym Hperm)); now left).
    assert (Ha : In a (b :: l2))
      by (apply (Permutation_in a Hperm); now left).
    assert (Hab : a = b).
    { destruct Hb as [Hb | Hb]; [exact Hb | ].
      destruct Ha as [Ha | Ha]; [now symmetry | ].
      apply (same_name_same_file (a :: l1)); [exact Hnd | now left | now right | ].
      apply String.leb_antisym; [exact (Hall1 b Hb) | exact (Hall2 a Ha)]. }
    subst b. f_equal.
    apply IH; [now inversion Hnd | exact Hs1' | exact Hs2' | ].
    exact (Permutation_cons_inv Hperm).
Qed.

(** X19. The order in which the files are processed does not depend on
    the order in which the directory lists them: two listings of the same
    files, with distinct names, are sorted into the same sequence. *)
Theorem processing_order_ignores_listing_order
        {A : Type} (l1 l2 : list (string * A)) :
  NoDup (map fst l1) -> Permutation l1 l2 -> sorted l1 = sorted l2.
Proof.
  intros Hnd Hperm. apply strongly_sorted_unique.
  - apply (Permutation_NoDup (l := map fst l1)); [ | exact Hnd].
    apply Permutation_map, Permutation_sym, sorted_permutation.
  - apply sorted_strongly_sorted.
  - apply sorted_strongly_sorted.
  - rewrite (sorted_permutation l1), (sorted_permutation l2). exact Hperm.
Qed.

Lemma processing_order_ignores_listing_order_witness :
  sorted [("b.parquet", 2); ("a.parquet", 1); ("c.parquet", 3)]
  = sorted [("c.parquet", 3); ("b.parquet", 2); ("a.parquet", 1)].
Proof.
  apply (processing_order_ignores_listing_order
           [("b.parquet", 2); ("a.parquet", 1); ("c.parquet", 3)]
           [("c.parquet", 3); ("b.parquet", 2); ("a.parquet", 1)]).
  - simpl. repeat constructor; simpl; intuition discriminate.
  - apply perm_trans with [("b.parquet", 2); ("c.parquet", 3); ("a.parquet", 1)].
    + apply perm_skip. apply perm_swap.
    + apply perm_swap.
Defined.

(** * Row projector: further properties *)

Lemma project_fields_keys (rt : Runtime) (df : DataFrame) (metadata : Metadata)
      (declared : list FieldInfo) (row : nat) :
  metadata_fields metadata = Ok declared ->
  forall fs rec rec',
    project_fields rt df metadata row fs rec = Ok rec' ->
    NoDup (map fst rec ++ map fi_name fs) ->
    map fst rec'
    = map fst rec ++ filter (kept_field df declared) (map fi_name fs).
Proof.
  intros Hdeclared.
  induction fs as [| f fs IH]; intros rec rec' Hrun Hnd; simpl in Hrun.
  - injection Hrun as <-. simpl. now rewrite app_nil_r.
  - unfold _is_auto_id_field in Hrun. rewrite Hdeclared in Hrun.
    simpl in Hrun. simpl. unfold kept_field at 1.
    assert (Hnd' : NoDup (map fst rec ++ map fi_name fs)).
    { simpl in Hnd. now apply NoDup_remove_1 in Hnd. }
    destruct (auto_id_scan (fi_name f) declared); simpl;
      [now apply IH | ].
    destruct (in_columns (fi_name f) df); simpl in *; [ | now apply IH].
    destruct (convert_value rt (cell df row (fi_name f)) (fi_type f))
      as [v | e]; simpl in Hrun; [ | discriminate Hrun].
    assert (Hfresh : ~ In (fi_name f) (map fst rec)).
    { apply NoDup_remove_2 in Hnd. intros Hin. apply Hnd.
      apply in_or_app. now left. }
    rewrite (IH _ _ Hrun).
    + rewrite (keys_after_set_fresh String.eqb String.eqb_eq _ _ _ Hfresh).
      now rewrite <- app_assoc.
    + rewrite (keys_after_set_fresh String.eqb String.eqb_eq _ _ _ Hfresh).
      rewrite <- app_assoc. exact Hnd.
Qed.

(** X20. When the declared field names are distinct, the keys of a
    projected record are, in declared order, exactly the names of the
    declared fields that are not auto-id and are columns of the frame. *)
Theorem record_keys_follow_declared_order
        (rt : Runtime) (df : DataFrame) (metadata : Metadata)
        (declared : list FieldInfo) (row : nat) (rec : record) :
  metadata_fields metadata = Ok declared ->
  NoDup (map fi_name declared) ->
  project_row rt df metadata row = Ok rec ->
  map fst rec = filter (kept_field df declared) (map fi_name declared).
Proof.
  intros Hdeclared Hnd Hrun. unfold project_row in Hrun.
  rewrite Hdeclared in Hrun. simpl in Hrun.
  exact (project_fields_keys rt df metadata declared row Hdeclared
                             declared [] rec Hrun Hnd).
Qed.

Lemma record_keys_follow_declared_order_witness :
  map fst [("title", VStr "a title");
           ("v", VNdarray [VFloat (1 # 10); VFloat (0 # 1)])]
  = filter (kept_field demo_frame demo_fields) (map fi_name demo_fields).
Proof.
  apply (record_keys_follow_declared_order
           (reference_runtime true) demo_frame demo_metadata demo_fields 0%nat
           [("title", VStr "a title");
            ("v", VNdarray [VFloat (1 # 10); VFloat (0 # 1)])]).
  - reflexivity.
  - simpl. repeat constructor; simpl; intuition discriminate.
  - reflexivity.
Defined.

(** * Metadata lookups: properties *)

(** X21. [_is_auto_id_field] answers true exactly when some declared
    field has that name and is marked auto-id; it raises only when the
    metadata has no field list. *)
Theorem is_auto_id_field_finds_marked_field
        (metadata : Metadata) (declared : list FieldInfo) (column_name : string) :
  metadata_fields metadata = Ok declared ->
  exists answer,
    _is_auto_id_field column_name metadata = Ok answer /\
    (answer = true <->
     exists f, In f declared /\ fi_name f = column_name /\
               fi_auto_id f = Some true).
Proof.
  intros Hdeclared. unfold _is_auto_id_field. rewrite Hdeclared. simpl.
  eexists. split; [reflexivity | ].
  clear Hdeclared. induction declared as [| g fs IH]; simpl.
  - split; [intros H; discriminate H | intros (f & [] & _)].
  - destruct (String.eqb_spec (fi_name g) column_name) as [Hname | Hname];
      simpl.
    + destruct (fi_auto_id g) as [[|] | ] eqn:Hauto; simpl.
      * split; [ | reflexivity]. intros _. exists g. auto.
      * rewrite IH. split.
        -- intros (f & Hf & Hn & Ha). exists f. auto.
        -- intros (f & [<- | Hf] & Hn & Ha); [congruence | ]. exists f. auto.
      * rewrite IH. split.
        -- intros (f & Hf & Hn & Ha). exists f. auto.
        -- intros (f & [<- | Hf] & Hn & Ha); [congruence | ]. exists f. auto.
    + rewrite IH. split.
      * intros (f & Hf & Hn & Ha). exists f. auto.
      * intros (f & [<- | Hf] & Hn & Ha); [contradiction | ]. exists f. auto.
Qed.

Lemma is_auto_id_field_finds_marked_field_witness :
  exists answer,
    _is_auto_id_field "id" demo_metadata = Ok answer /\
    (answer = true <->
     exists f, In f demo_fields /\ fi_name f = "id" /\
               fi_auto_id f = Some true).
Proof.
  apply (is_auto_id_field_finds_marked_field demo_metadata demo_fields "id").
  reflexivity.
Defined.

(** X22. [_get_field_type] gives the declared type of a declared field
    (field names being distinct), and the string "unknown" for a name that
    no declared field has. *)
Theorem get_field_type_looks_up_declaration
        (metadata : Metadata) (declared : list FieldInfo) :
  metadata_fields metadata = Ok declared ->
  (forall f, In f declared -> NoDup (map fi_name declared) ->
             _get_field_type (fi_name f) metadata = Ok (fi_type f))
  /\ (forall column_name,
         ~ In column_name (map fi_name declared) ->
         _get_field_type column_name metadata = Ok "unknown").
Proof.
  intros Hdeclared. unfold _get_field_type. rewrite Hdeclared. simpl.
  clear Hdeclared. split.
  - intros f Hin Hnd. f_equal.
    induction declared as [| g fs IH]; simpl; [contradiction | ].
    simpl in Hnd. inversion Hnd as [| ? ? Hnotin Hnd']; subst.
    destruct Hin as [-> | Hin].
    + now rewrite String.eqb_refl.
    + destruct (String.eqb_spec (fi_name g) (fi_name f)) as [Heq | _];
        [ | now apply IH].
      exfalso. apply Hnotin. rewrite Heq. now apply in_map.
  - intros column_name Hout. f_equal.
    induction declared as [| g fs IH]; simpl; [reflexivity | ].
    destruct (String.eqb_spec (fi_name g) column_name) as [Heq | _].
    + exfalso. apply Hout. left. exact Heq.
    + apply IH. intros Hin. apply Hout. now right.
Qed.

Lemma get_field_type_looks_up_declaration_witness :
  _get_field_type "embedding" demo_metadata = Ok "unknown".
Proof.
  apply (proj2 (get_field_type_looks_up_declaration demo_metadata demo_fields
                                                    eq_refl)).
  simpl. intuition discriminate.
Defined.

(** * Batch loop: edge cases *)

Lemma py_range_negative (stop step : Z) :
  (step < 0)%Z -> py_range stop step = Ok [].
Proof.
  intros Hstep. unfold py_range.
  destruct (Z.eqb_spec step 0); [lia | ].
  destruct (Z.ltb_spec step 0); [reflexivity | lia].
Qed.

Lemma negative_batch_size_file
      (rt : Runtime) (fault : Target -> call -> option exn)
      (name : string) (metadata : Metadata) (batch_size : Z)
      (show_progress : bool) (file : string * DataFrame)
      (acc : Z * list BatchFailure) (w : World) :
  (batch_size < 0)%Z ->
  exists w',
    insert_file rt fault name metadata batch_size show_progress
                (fst file, Ok (snd file)) acc w = (w', Ok acc)
    /\ target w' = target w.
Proof.
  intros Hneg. unfold insert_file. cbn [fst snd].
  destruct show_progress.
  - unfold with_progress, try_except, bind, lift, emit.
    rewrite (py_range_negative _ _ Hneg). cbn [for_each ret fst snd].
    eexists. split; reflexivity.
  - unfold bind, lift. rewrite (py_range_negative _ _ Hneg).
    cbn [for_each ret]. eexists. split; reflexivity.
Qed.

(** X23. A batch size of zero is fatal at the first data file that can be
    read: the loop raises the [ValueError] of [range] and nothing is
    submitted.  With a negative batch size no batch is formed: the loop
    returns its accumulators as they were and nothing is submitted. *)
Theorem non_positive_batch_size_submits_nothing
        (rt : Runtime) (fault : Target -> call -> option exn)
        (name : string) (metadata : Metadata) (show_progress : bool)
        (acc : Z * list BatchFailure) (w : World) :
  (forall file_name df rest,
      let run := insert_files rt fault name metadata 0 show_progress
                              ((file_name, Ok df) :: rest) acc w in
      snd run = Err (Raise ValueError "range() arg 3 must not be zero")
      /\ target (fst run) = target w)
  /\ (forall batch_size files,
         (batch_size < 0)%Z ->
         let run := insert_files rt fault name metadata batch_size
                                 show_progress (readable files) acc w in
         snd run = Ok acc /\ target (fst run) = target w).
Proof.
  split.
  - intros file_name df rest. cbv zeta.
    destruct show_progress; split; reflexivity.
  - intros batch_size files Hneg. cbv zeta. revert w.
    induction files as [| file files IH]; intros w; [now split | ].
    cbn [readable map insert_files]. fold (readable files).
    destruct (negative_batch_size_file rt fault name metadata batch_size
                show_progress file acc w Hneg) as (w' & Hfile & Ht).
    unfold bind. rewrite Hfile. rewrite <- Ht. apply IH.
Qed.

Lemma non_positive_batch_size_submits_nothing_witness :
  let run := insert_files (reference_runtime true) healthy "t" demo_metadata
                          (-5) true
                          (readable [("part-0.parquet", demo_frame)])
                          (0%Z, []) fresh_world in
  snd run = Ok (0%Z, []) /\ target (fst run) = target fresh_world.
Proof.
  apply (proj2 (non_positive_batch_size_submits_nothing
                  (reference_runtime true) healthy "t" demo_metadata true
                  (0%Z, []) fresh_world)
               (-5)%Z [("part-0.parquet", demo_frame)]).
  lia.
Defined.

Lemma insert_files_app
      (rt : Runtime) (fault : Target -> call -> option exn)
      (name : string) (metadata : Metadata) (batch_size : Z)
      (show_progress : bool) :
  forall l1 l2 acc w,
    insert_files rt fault name metadata batch_size show_progress
                 (l1 ++ l2) acc w
    = bind (insert_files rt fault name metadata batch_size show_progress l1 acc)
           (fun acc' => insert_files rt fault name metadata batch_size
                                     show_progress l2 acc') w.
Proof.
  induction l1 as [| file l1 IH]; intros l2 acc w; [reflexivity | ].
  cbn [app insert_files]. unfold bind.
  destruct (insert_file rt fault name metadata batch_size show_progress file
                        acc w) as [w1 [acc1 | e]]; [ | reflexivity].
  rewrite IH. reflexivity.
Qed.

Lemma readable_files_return
      (rt : Runtime) (fault : Target -> call -> option exn)
      (name : string) (metadata : Metadata) (batch_size : Z)
      (show_progress : bool) (files : list (string * DataFrame))
      (acc : Z * list BatchFailure) (w : World) :
  (0 < batch_size)%Z ->
  exists acc',
    snd (insert_files rt fault name metadata batch_size show_progress
                      (readable files) acc w) = Ok acc'.
Proof.
  intros Hpos.
  destruct (accounted_files rt fault name metadata batch_size Hpos files acc w)
    as (answers & _ & Hres & _).
  destruct show_progress; [ | eexists; exact Hres].
  destruct (agree_insert_files rt fault name metadata batch_size
              (readable files) acc w w eq_refl) as [_ Hr].
  rewrite Hr. eexists. exact Hres.
Qed.

(** X24. A data file that cannot be read is fatal, not a batch failure:
    the loop raises the error of the read; the files before it have been
    processed in full, as if they were the whole dataset, and the files
    after it are not touched. *)
Theorem unreadable_file_is_fatal
        (rt : Runtime) (fault : Target -> call -> option exn)
        (name : string) (metadata : Metadata) (batch_size : Z)
        (show_progress : bool) (before : list (string * DataFrame))
        (after_raw : list (string * result DataFrame))
        (file_name : string) (e : exn)
        (acc : Z * list BatchFailure) (w : World) :
  (0 < batch_size)%Z ->
  let run := insert_files rt fault name metadata batch_size show_progress
                          (readable before ++ (file_name, Err e) :: after_raw)
                          acc w in
  snd run = Err e
  /\ fst run = fst (insert_files rt fault name metadata batch_size
                                 show_progress (readable before) acc w).
Proof.
  intros Hpos. cbv zeta. rewrite insert_files_app.
  destruct (readable_files_return rt fault name metadata batch_size
              show_progress before acc w Hpos) as [acc' Hret].
  unfold bind.
  destruct (insert_files rt fault name metadata batch_size show_progress
                         (readable before) acc w) as [w1 r1].
  cbn [snd] in Hret. subst r1. cbn [insert_files insert_file fst snd].
  unfold bind, lift. split; reflexivity.
Qed.

Lemma unreadable_file_is_fatal_witness :
  let run := insert_files (reference_runtime true) healthy "t" demo_metadata
                          2 false
                          (readable [("a.parquet", demo_frame)]
                             ++ ("b.parquet", Err (Raise ValueError "bad file"))
                             :: [("c.parquet", Ok demo_frame)])
                          (0%Z, []) fresh_world in
  snd run = Err (Raise ValueError "bad file")
  /\ fst run = fst (insert_files (reference_runtime true) healthy "t"
                                 demo_metadata 2 false
                                 (readable [("a.parquet", demo_frame)])
                                 (0%Z, []) fresh_world).
Proof.
  apply (unreadable_file_is_fatal
           (reference_runtime true) healthy "t" demo_metadata 2 false
           [("a.parquet", demo_frame)] [("c.parquet", Ok demo_frame)]
           "b.parquet" (Raise ValueError "bad file") (0%Z, []) fresh_world).
  lia.
Defined.

(** * Batch loop: what the target sees *)

Lemma converted_records_count (rt : Runtime) (df : DataFrame)
      (metadata : Metadata) (data : list record) :
  _convert_dataframe_to_dict_list rt df metadata = Ok data ->
  Z.of_nat (length data) = len df.
Proof.
  intros H. unfold _convert_dataframe_to_dict_list in H.
  destruct (convert_rows_rows rt df metadata _ _ _ H) as (recs & -> & Hall).
  simpl. unfold len. f_equal. symmetry. exact (Forall2_length Hall).
Qed.

Lemma served_records_app (l1 l2 : list (call * option exn)) :
  served_records (l1 ++ l2) = (served_records l1 + served_records l2)%Z.
Proof. unfold served_records. now rewrite map_app, Zsum_app. Qed.

Lemma attempt_calls_served (rt : Runtime) (metadata : Metadata) (name : string)
      (a : attempt) :
  served_records (attempt_calls rt metadata name a)
  = attempt_inserted rt metadata a.
Proof.
  unfold attempt_calls, attempt_inserted.
  destruct (_convert_dataframe_to_dict_list rt (b_rows (fst a)) metadata)
    as [data | e] eqn:Hconv; [ | reflexivity].
  unfold served_records. simpl.
  destruct (snd a); [reflexivity | ].
  rewrite (converted_records_count _ _ _ _ Hconv). apply Z.add_0_r.
Qed.

Lemma attempts_served (rt : Runtime) (metadata : Metadata) (name : string)
      (atts : list attempt) :
  served_records (flat_map (attempt_calls rt metadata name) atts)
  = Zsum (map (attempt_inserted rt metadata) atts).
Proof.
  induction atts as [| a atts IH]; [reflexivity | ].
  cbn [map flat_map]. rewrite served_records_app, attempt_calls_served, IH.
  reflexivity.
Qed.

(** X25. [total_inserted] is what the target saw: it equals the number of
    records in the insert calls of the run that the target served. *)
Theorem total_inserted_counts_served_records
        (rt : Runtime) (fault : Target -> call -> option exn)
        (name : string) (metadata : Metadata) (batch_size : Z)
        (show_progress : bool) (files : list (string * DataFrame)) (w : World) :
  (0 < batch_size)%Z ->
  let run := insert_files rt fault name metadata batch_size show_progress
                          (readable files) (0%Z, []) w in
  exists calls failed,
    t_trace (target (fst run)) = t_trace (target w) ++ calls /\
    snd run = Ok (served_records calls, failed).
Proof.
  intros Hpos. cbv zeta.
  destruct (loop_accounted rt fault name metadata batch_size show_progress
                           files w Hpos) as (answers & _ & Hres & Htrace).
  exists (flat_map (attempt_calls rt metadata name)
                   (combine (all_batches batch_size files) answers)),
         (flat_map (attempt_failures rt metadata)
                   (combine (all_batches batch_size files) answers)).
  split; [exact Htrace | ]. rewrite Hres. cbn [fst snd app].
  rewrite Z.add_0_l. do 2 f_equal. symmetry. apply attempts_served.
Qed.

Lemma total_inserted_counts_served_records_witness :
  let run := insert_files (reference_runtime true) refuse_second_insert "t"
                          demo_metadata 1 true
                          (readable [("part-0.parquet", demo_frame)])
                          (0%Z, []) fresh_world in
  exists calls failed,
    t_trace (target (fst run)) = t_trace (target fresh_world) ++ calls /\
    snd run = Ok (served_records calls, failed).
Proof.
  apply (total_inserted_counts_served_records
           (reference_runtime true) refuse_second_insert "t" demo_metadata 1
           true [("part-0.parquet", demo_frame)] fresh_world).
  lia.
Defined.

Lemma all_batches_bounded (batch_size : Z) (files : list (string * DataFrame)) :
  (0 < batch_size)%Z ->
  Forall (fun b => (0 < len (b_rows b) <= batch_size)%Z)
         (all_batches batch_size files).
Proof.
  intros Hpos. unfold all_batches.
  induction files as [| file files IH]; simpl; [constructor | ].
  apply Forall_app. split; [ | exact IH].
  eapply Forall_impl; [ | exact (batches_of_bounded batch_size file Hpos)].
  intros b [Hb _]. exact Hb.
Qed.

(** X26. The loop never submits an empty insert nor one larger than the
    batch size: every call it makes is an insert into the collection with
    at least one and at most [batch_size] records. *)
Theorem inserts_are_bounded_by_batch_size
        (rt : Runtime) (fault : Target -> call -> option exn)
        (name : string) (metadata : Metadata) (batch_size : Z)
        (show_progress : bool) (files : list (string * DataFrame)) (w : World) :
  (0 < batch_size)%Z ->
  extends_by (bounded_insert name batch_size) w
             (fst (insert_files rt fault name metadata batch_size
                                show_progress (readable files) (0%Z, []) w)).
Proof.
  intros Hpos.
  destruct (loop_accounted rt fault name metadata batch_size show_progress
                           files w Hpos) as (answers & Hlen & _ & Htrace).
  eexists. split; [exact Htrace | ].
  pose proof (all_batches_bounded batch_size files Hpos) as Hb.
  clear Htrace. revert answers Hlen.
  induction Hb as [| b bl Hb _ IH]; intros [| o answers] Hlen;
    simpl in Hlen; try discriminate; [constructor | ].
  cbn [combine flat_map]. apply Forall_app. split.
  - unfold attempt_calls. cbn [fst snd].
    destruct (_convert_dataframe_to_dict_list rt (b_rows b) metadata)
      as [data | e] eqn:Hconv; constructor; [ | constructor].
    simpl. rewrite (converted_records_count _ _ _ _ Hconv). split; [reflexivity | lia].
  - apply IH. now injection Hlen.
Qed.

Lemma inserts_are_bounded_by_batch_size_witness :
  extends_by (bounded_insert "t" 2) fresh_world
             (fst (insert_files (reference_runtime true) healthy "t"
                                demo_metadata 2 true
                                (readable [("part-0.parquet", demo_frame)])
                                (0%Z, []) fresh_world)).
Proof.
  apply (inserts_are_bounded_by_batch_size
           (reference_runtime true) healthy "t" demo_metadata 2 true
           [("part-0.parquet", demo_frame)] fresh_world).
  lia.
Defined.

(** * Progress display: properties *)

Lemma progress_batch
      (rt : Runtime) (fault : Target -> call -> option exn)
      (name file_name : string) (df : DataFrame) (metadata : Metadata)
      (batch_size : Z) (acc : Z * list BatchFailure) (i : Z) (w : World) :
  exists acc',
    snd (insert_batch_progress rt fault name file_name df metadata batch_size
                               acc i w) = Ok acc'
    /\ display (fst (insert_batch_progress rt fault name file_name df metadata
                                           batch_size acc i w))
       = display w ++ [Update (len (iloc df i (i + batch_size)))].
Proof.
  unfold insert_batch_progress, try_except, bind, lift, emit, client_call.
  destruct (_convert_dataframe_to_dict_list rt (iloc df i (i + batch_size))
                                            metadata) as [data | e].
  - destruct (fault (target w) (Insert name data));
      eexists; split; reflexivity.
  - eexists; split; reflexivity.
Qed.

Lemma progress_for_each
      (rt : Runtime) (fault : Target -> call -> option exn)
      (name file_name : string) (df : DataFrame) (metadata : Metadata)
      (batch_size : Z) :
  forall starts acc w,
  exists acc',
    snd (for_each (insert_batch_progress rt fault name file_name df metadata
                                         batch_size) starts acc w) = Ok acc'
    /\ display (fst (for_each (insert_batch_progress rt fault name file_name
                                                     df metadata batch_size)
                              starts acc w))
       = display w
           ++ map (fun i => Update (len (iloc df i (i + batch_size)))) starts.
Proof.
  induction starts as [| i starts IH]; intros acc w.
  - exists acc. split; [reflexivity | simpl; now rewrite app_nil_r].
  - destruct (progress_batch rt fault name file_name df metadata batch_size
                             acc i w) as (acc1 & Hres & Hdisp).
    cbn [for_each map]. unfold bind.
    destruct (insert_batch_progress rt fault name file_name df metadata
                                    batch_size acc i w) as [w1 r1].
    cbn [fst snd] in Hres, Hdisp. subst r1.
    destruct (IH acc1 w1) as (acc' & Hres' & Hdisp').
    exists acc'. split; [exact Hres' | ].
    rewrite Hdisp', Hdisp. now rewrite <- app_assoc.
Qed.

(** X27. With the progress bar, a file that is read shows one task with
    the number of rows of the file as its total, and the advances of the
    bar add up to that total whether the batches are inserted or fail;
    the display is closed at the end. *)
Theorem progress_bar_reaches_total
        (rt : Runtime) (fault : Target -> call -> option exn)
        (name : string) (metadata : Metadata) (batch_size : Z)
        (file : string * DataFrame) (acc : Z * list BatchFailure) (w : World) :
  (0 < batch_size)%Z ->
  exists updates,
    display (fst (insert_file rt fault name metadata batch_size true
                              (fst file, Ok (snd file)) acc w))
    = display w
        ++ [ProgressEnter; AddTask ("Inserting " ++ fst file) (len (snd file))]
        ++ updates ++ [ProgressExit]
    /\ advances updates = len (snd file)
    /\ Forall (fun ev => exists n, ev = Update n) updates.
Proof.
  intros Hpos.
  exists (map (fun i => Update (len (iloc (snd file) i (i + batch_size))))
              (map (fun k => (Z.of_nat k * batch_size)%Z)
                   (seq 0 (batch_count (len (snd file)) batch_size)))).
  split; [ | split].
  - unfold insert_file. cbn [fst snd].
    unfold bind at 1. unfold lift at 1. cbv beta iota.
    unfold with_progress.
    unfold bind at 1. unfold emit at 1. cbv beta iota.
    unfold try_except.
    unfold bind at 1. unfold bind at 1. unfold emit at 1. cbv beta iota.
    unfold bind at 1. unfold lift at 1.
    rewrite (py_range_positive _ _ Hpos). cbv beta iota.
    match goal with
    | |- context [for_each ?body ?starts acc ?w0] =>
        destruct (progress_for_each rt fault name (fst file) (snd file)
                                    metadata batch_size starts acc w0)
          as (acc' & Hres & Hdisp);
        destruct (for_each body starts acc w0) as [w1 r1]
    end.
    cbn [fst snd] in Hres, Hdisp. subst r1.
    unfold bind, emit, ret. cbn [fst snd display]. rewrite Hdisp.
    cbn [display]. rewrite <- !app_assoc. reflexivity.
  - unfold advances. rewrite !map_map.
    transitivity (Zsum (map (fun b => len (b_rows b))
                            (batches_of batch_size file)));
      [ | exact (Zsum_batches_of batch_size file Hpos)].
    unfold batches_of. rewrite map_map. reflexivity.
  - apply Forall_forall. intros ev Hin. apply in_map_iff in Hin.
    destruct Hin as (i & <- & _). now eexists.
Qed.

Lemma progress_bar_reaches_total_witness :
  exists updates,
    display (fst (insert_file (reference_runtime true) refuse_second_insert "t"
                              demo_metadata 1 true
                              ("part-0.parquet", Ok demo_frame) (0%Z, [])
                              fresh_world))
    = display fresh_world
        ++ [ProgressEnter; AddTask "Inserting part-0.parquet" (len demo_frame)]
        ++ updates ++ [ProgressExit]
    /\ advances updates = len demo_frame
    /\ Forall (fun ev => exists n, ev = Update n) updates.
Proof.
  apply (progress_bar_reaches_total
           (reference_runtime true) refuse_second_insert "t" demo_metadata 1
           ("part-0.parquet", demo_frame) (0%Z, []) fresh_world).
  lia.
Defined.
